(** * NBA lineup pipeline: fetch orchestration and merge engine

    A shallow embedding of [pipeline/config.py], [pipeline/utils.py],
    [pipeline/fetch_lineups.py], [pipeline/fetch_supplementary.py] and
    [pipeline/main.py], and the properties of the retry caller, the frame
    merger, the category fetchers and the orchestrator.

    Conventions of the embedding:
    - a pandas [DataFrame] is its ordered column names and its rows; a cell is
      [None] for NaN / missing;
    - effects (the global call counter, the log, sleeps, files written and the
      requests sent to the statistics service) are threaded through a state
      and exception monad [M] over a [World];
    - the statistics service is an oracle [api] giving the outcome of the
      k-th request of the process;
    - wall-clock readings ([time.time()]) only feed log lines and are left
      out of the logged arguments;
    - numbers of seconds are exact rationals; in the pipeline a sleep and
      the arithmetic of a wait always go through, and [cpython] gives the
      retry caller once more with the float power and the [time.sleep] that
      can raise. *)

From Stdlib Require Import List String Ascii ZArith QArith Qpower Bool Arith Lia.
From Stdlib Require Import Permutation Sorted DecimalString.
Import ListNotations.

Local Open Scope string_scope.
Local Open Scope list_scope.
Local Close Scope Q_scope.
Local Open Scope nat_scope.

Set Implicit Arguments.
Set Warnings "-register-all".

(* ===================================================================== *)
(** * pandas: the part of the DataFrame interface the pipeline uses *)
(* ===================================================================== *)

Module pd.

Inductive value : Type :=
| VInt (z : Z)
| VStr (s : string)
| VList (l : list string).

(** A cell; [None] is NaN. *)
Definition cell : Type := option value.

Record DataFrame : Type := mkDataFrame {
  columns : list string;
  rows : list (list cell)
}.

(** [pd.DataFrame()] *)
Definition DataFrame_new : DataFrame := mkDataFrame [] [].

(** [len(df)] *)
Definition len (df : DataFrame) : nat := List.length (rows df).

(** [df.empty]: some axis has length 0. *)
Definition empty (df : DataFrame) : bool :=
  (List.length (columns df) =? 0) || (List.length (rows df) =? 0).

(** [c in df.columns] *)
Definition has_column (c : string) (df : DataFrame) : bool :=
  existsb (String.eqb c) (columns df).

Fixpoint col_index (c : string) (cols : list string) : option nat :=
  match cols with
  | [] => None
  | c' :: cols' =>
      if String.eqb c c' then Some 0
      else option_map S (col_index c cols')
  end.

(** The cell of [row] under column [c], the row being laid out along
    [cols]. *)
Definition get (cols : list string) (row : list cell) (c : string) : cell :=
  match col_index c cols with
  | Some i => nth i row None
  | None => None
  end.

(** [df[cs]] for a list [cs] of column names of [df]. *)
Definition select (df : DataFrame) (cs : list string) : DataFrame :=
  mkDataFrame cs (map (fun r => map (get (columns df) r) cs) (rows df)).

(** [df[c]] as the list of its values. *)
Definition column (df : DataFrame) (c : string) : list cell :=
  map (fun r => get (columns df) r c) (rows df).

(** Every row has one cell per column. *)
Definition well_formed (df : DataFrame) : Prop :=
  Forall (fun r => List.length r = List.length (columns df)) (rows df).

(** ** Equality and order of cells *)

Definition value_eqb (a b : value) : bool :=
  match a, b with
  | VInt x, VInt y => Z.eqb x y
  | VStr x, VStr y => String.eqb x y
  | VList x, VList y =>
      if list_eq_dec string_dec x y then true else false
  | _, _ => false
  end.

(** Join keys compare by value; two missing keys match each other, as in
    [pd.merge]. *)
Definition cell_eqb (a b : cell) : bool :=
  match a, b with
  | None, None => true
  | Some x, Some y => value_eqb x y
  | _, _ => false
  end.

Fixpoint list_compare (l1 l2 : list string) : comparison :=
  match l1, l2 with
  | [], [] => Eq
  | [], _ :: _ => Lt
  | _ :: _, [] => Gt
  | x :: l1', y :: l2' =>
      match String.compare x y with
      | Eq => list_compare l1' l2'
      | c => c
      end
  end.

Definition value_compare (a b : value) : comparison :=
  match a, b with
  | VInt x, VInt y => Z.compare x y
  | VInt _, _ => Lt
  | VStr _, VInt _ => Gt
  | VStr x, VStr y => String.compare x y
  | VStr _, VList _ => Lt
  | VList x, VList y => list_compare x y
  | VList _, _ => Gt
  end.

(** Sorting order of cells: NaN goes last. *)
Definition cell_leb (a b : cell) : bool :=
  match a, b with
  | _, None => true
  | None, Some _ => false
  | Some x, Some y =>
      match value_compare x y with Gt => false | _ => true end
  end.

Section Sorting.
Variable A : Type.
Variable leb : A -> A -> bool.

Fixpoint insert (x : A) (l : list A) : list A :=
  match l with
  | [] => [x]
  | y :: l' => if leb x y then x :: l else y :: insert x l'
  end.

(** A stable sort: equal elements keep their order. *)
Definition sort (l : list A) : list A := fold_right insert [] l.
End Sorting.

Fixpoint dedup (l : list cell) : list cell :=
  match l with
  | [] => []
  | x :: l' => x :: filter (fun y => negb (cell_eqb x y)) (dedup l')
  end.

(** ** [pd.merge(left, right, on=key, how=...)] *)

Inductive How : Type := inner | outer.

Definition overlaps (on : string) (others : list string) (c : string) : bool :=
  negb (String.eqb c on) && existsb (String.eqb c) others.

Definition suffixed (on : string) (others : list string) (sfx c : string)
  : string :=
  if overlaps on others c then c ++ sfx else c.

Definition non_key (on : string) (cols : list string) : list string :=
  filter (fun c => negb (String.eqb c on)) cols.

Definition merge_columns (on : string) (lcols rcols : list string)
  : list string :=
  map (suffixed on rcols "_x") lcols
  ++ map (suffixed on lcols "_y") (non_key on rcols).

Definition rows_with (cols : list string) (on : string) (k : cell)
  (rs : list (list cell)) : list (list cell) :=
  filter (fun r => cell_eqb (get cols r on) k) rs.

(** A left-only row padded with NaN on the right side. *)
Definition pad_right (rcols : list string) (on : string) (l : list cell)
  : list cell :=
  l ++ map (fun _ => None) (non_key on rcols).

(** A right-only row: NaN on the left side, except the key. *)
Definition pad_left (lcols rcols : list string) (on : string) (r : list cell)
  : list cell :=
  map (fun c => if String.eqb c on then get rcols r on else None) lcols
  ++ map (get rcols r) (non_key on rcols).

Definition join_rows (rcols : list string) (on : string)
  (l r : list cell) : list cell :=
  l ++ map (get rcols r) (non_key on rcols).

(** The keys of an outer join: the union of the keys of both sides,
    sorted. *)
Definition outer_keys (left right : DataFrame) (on : string) : list cell :=
  sort cell_leb (dedup (column left on ++ column right on)).

(** The rows an outer join has for the key [k]: the pairs of the rows of
    both sides with that key, or the rows of the only side that has it,
    padded. *)
Definition outer_rows_for (left right : DataFrame) (on : string) (k : cell)
  : list (list cell) :=
  let lcols := columns left in
  let rcols := columns right in
  let ls := rows_with lcols on k (rows left) in
  let rs := rows_with rcols on k (rows right) in
  match ls, rs with
  | _ :: _, [] => map (pad_right rcols on) ls
  | [], _ => map (pad_left lcols rcols on) rs
  | _, _ => flat_map (fun l => map (join_rows rcols on l) rs) ls
  end.

(** The rows an inner join has for the row [l] of its left side. *)
Definition inner_rows_for (left right : DataFrame) (on : string)
  (l : list cell) : list (list cell) :=
  map (join_rows (columns right) on l)
      (rows_with (columns right) on (get (columns left) l on) (rows right)).

Definition merge (left right : DataFrame) (on : string) (how : How)
  : DataFrame :=
  mkDataFrame
    (merge_columns on (columns left) (columns right))
    match how with
    | inner =>
        (* intersection of the keys, in the order of the left keys *)
        flat_map (inner_rows_for left right on) (rows left)
    | outer =>
        (* union of the keys, sorted *)
        flat_map (outer_rows_for left right on) (outer_keys left right on)
    end.

(** ** Column assignment, [pd.concat] and [sort_values] *)

Definition set_nth (i : nat) (v : cell) (row : list cell) : list cell :=
  firstn i row ++ v :: skipn (S i) row.

(** [df[c] = values], the value of each row being computed from the
    row: an existing column is overwritten in place, a new one is added
    last. *)
Definition assign (df : DataFrame) (c : string) (f : list cell -> cell)
  : DataFrame :=
  match col_index c (columns df) with
  | Some i =>
      mkDataFrame (columns df) (map (fun r => set_nth i (f r) r) (rows df))
  | None =>
      mkDataFrame (columns df ++ [c]) (map (fun r => r ++ [f r]) (rows df))
  end.

(** [df[c] = v] for a scalar [v]. *)
Definition assign_scalar (df : DataFrame) (c : string) (v : value)
  : DataFrame :=
  assign df c (fun _ => Some v).

Definition union_columns (frames : list DataFrame) : list string :=
  fold_left
    (fun acc df =>
       acc ++ filter (fun c => negb (existsb (String.eqb c) acc))
                     (columns df))
    frames [].

(** [pd.concat(frames, ignore_index=True)]: the columns in the order of
    their first appearance, missing cells being NaN. *)
Definition concat (frames : list DataFrame) : DataFrame :=
  let cols := union_columns frames in
  mkDataFrame cols
    (flat_map
       (fun df => map (fun r => map (get (columns df) r) cols) (rows df))
       frames).

Definition cell_before (ascending : bool) (a b : cell) : bool :=
  match a, b with
  | _, None => true
  | None, Some _ => false
  | Some x, Some y =>
      match value_compare x y with
      | Lt => ascending
      | Eq => true
      | Gt => negb ascending
      end
  end.

Fixpoint row_leb (cols : list string) (by_ : list (string * bool))
  (r1 r2 : list cell) : bool :=
  match by_ with
  | [] => true
  | (c, ascending) :: by' =>
      let a := get cols r1 c in
      let b := get cols r2 c in
      if cell_eqb a b then row_leb cols by' r1 r2
      else cell_before ascending a b
  end.

(** [df.sort_values(by=..., ascending=...)], NaN last. *)
Definition sort_values (df : DataFrame) (by_ : list string)
  (ascending : list bool) : DataFrame :=
  mkDataFrame (columns df)
    (sort (row_leb (columns df) (combine by_ ascending)) (rows df)).

(** [s.split(sep)] for a non-empty separator: [cur] is the piece being
    read and [skip] what is left of a separator just found. *)
Fixpoint split_from (sep s : string) (skip : nat) (cur : string)
  : list string :=
  match s with
  | EmptyString => [cur]
  | String ch s' =>
      match skip with
      | S k => split_from sep s' k cur
      | O =>
          if prefix sep s
          then cur :: split_from sep s' (String.length sep - 1) EmptyString
          else split_from sep s' 0 (cur ++ String ch EmptyString)
      end
  end.

Definition str_split (sep s : string) : list string :=
  split_from sep s 0 EmptyString.

End pd.

(* ===================================================================== *)
(** * Effects: the process state and the exception monad *)
(* ===================================================================== *)

(** Logging levels, by increasing severity. *)
Inductive Level : Type := DEBUG | INFO | WARNING | ERROR.

Definition level_rank (l : Level) : nat :=
  match l with DEBUG => 10 | INFO => 20 | WARNING => 30 | ERROR => 40 end.

Definition level_eqb (a b : Level) : bool := level_rank a =? level_rank b.

(** An argument of a [%]-formatted log line. *)
Inductive Arg : Type :=
| AStr (s : string)
| AInt (z : Z)
| ASecs (q : Q).

(** The endpoint classes of [nba_api.stats.endpoints] the pipeline calls. *)
Inductive Endpoint : Type :=
| LeagueDashLineups
| TeamPlayerOnOffSummary
| LeagueDashTeamClutch
| SynergyPlayTypes
| LeagueHustleStatsPlayer
| LeagueHustleStatsTeam
| LeagueDashPtStats
| LeagueDashPtDefend
| PlayerEstimatedMetrics.

(** [endpoint_class.__name__] *)
Definition class_name (e : Endpoint) : string :=
  match e with
  | LeagueDashLineups => "LeagueDashLineups"
  | TeamPlayerOnOffSummary => "TeamPlayerOnOffSummary"
  | LeagueDashTeamClutch => "LeagueDashTeamClutch"
  | SynergyPlayTypes => "SynergyPlayTypes"
  | LeagueHustleStatsPlayer => "LeagueHustleStatsPlayer"
  | LeagueHustleStatsTeam => "LeagueHustleStatsTeam"
  | LeagueDashPtStats => "LeagueDashPtStats"
  | LeagueDashPtDefend => "LeagueDashPtDefend"
  | PlayerEstimatedMetrics => "PlayerEstimatedMetrics"
  end.

(** Keyword arguments of a request. *)
Inductive PyVal : Type := PInt (z : Z) | PStr (s : string).
Definition Kwargs : Type := list (string * PyVal).

(** A Python exception (an instance of [Exception]): its class and
    message. *)
Record Exception : Type := mkException {
  exc_class : string;
  exc_msg : string
}.

Definition RuntimeError (msg : string) : Exception :=
  mkException "RuntimeError" msg.

(** An instantiated endpoint object, seen through [get_data_frames()],
    which is taken to hand out the tables of the response without
    raising. *)
Definition EndpointObj : Type := list pd.DataFrame.

(** What instantiating an endpoint class does: the request fails with an
    exception, or yields the endpoint object. *)
Inductive Response : Type :=
| Raises (exc : Exception)
| Returns (obj : EndpointObj).

Inductive Event : Type :=
| Log (logger : string) (lvl : Level) (msg : string) (args : list Arg)
| Sleep (secs : Q)
| Request (ep : Endpoint) (params : Kwargs)
| WriteCsv (path : string) (df : pd.DataFrame).

Record World : Type := mkWorld {
  _api_call_count : nat;       (* utils._api_call_count *)
  sent : nat;                  (* requests sent to the service so far *)
  log_level : Level;           (* level of the [pipeline] logger *)
  trace : list Event           (* what the process did, oldest first *)
}.

(** The process as it is after importing the pipeline's modules. *)
Definition initial_world : World := mkWorld 0 0 INFO [].

(** How a computation ends: with a value, with an exception that
    [except Exception] catches, or with [SystemExit]. *)
Inductive Outcome (A : Type) : Type :=
| Ok (a : A)
| Raise (exc : Exception)
| Exit (code : Z).

Arguments Ok {A} a.
Arguments Raise {A} exc.
Arguments Exit {A} code.

Definition M (A : Type) : Type := World -> Outcome A * World.

Definition ret {A} (a : A) : M A := fun w => (Ok a, w).

Definition bind {A B} (c : M A) (k : A -> M B) : M B :=
  fun w =>
    match c w with
    | (Ok a, w') => k a w'
    | (Raise exc, w') => (Raise exc, w')
    | (Exit code, w') => (Exit code, w')
    end.

Notation "x <- c ;; k" := (bind c (fun x => k))
  (at level 61, c at next level, right associativity).
Notation "c ;; k" := (bind c (fun _ => k))
  (at level 61, right associativity).

Definition raise {A} (exc : Exception) : M A := fun w => (Raise exc, w).

(** [sys.exit(code)] *)
Definition sys_exit {A} (code : Z) : M A := fun w => (Exit code, w).

(** [try: c  except Exception as exc: h exc] *)
Definition try_except {A} (c : M A) (h : Exception -> M A) : M A :=
  fun w =>
    match c w with
    | (Raise exc, w') => h exc w'
    | r => r
    end.

Definition emit (e : Event) : M unit :=
  fun w => (Ok tt,
            mkWorld (_api_call_count w) (sent w) (log_level w)
                    (trace w ++ [e])).

(** A logger of the [pipeline] hierarchy: the record is handled when its
    level reaches the level set on [pipeline]. *)
Definition log (logger : string) (lvl : Level) (msg : string)
  (args : list Arg) : M unit :=
  fun w =>
    if level_rank (log_level w) <=? level_rank lvl
    then emit (Log logger lvl msg args) w
    else (Ok tt, w).

(** [time.sleep(secs)] *)
Definition time_sleep (secs : Q) : M unit := emit (Sleep secs).

(** A monadic [for x in xs: body x]. *)
Fixpoint for_each {A} (xs : list A) (body : A -> M unit) : M unit :=
  match xs with
  | [] => ret tt
  | x :: xs' => body x ;; for_each xs' body
  end.

(** A [for] loop that threads the variables the body updates. *)
Fixpoint for_fold {A St} (xs : list A) (body : A -> St -> M St) (s : St)
  : M St :=
  match xs with
  | [] => ret s
  | x :: xs' => s' <- body x s ;; for_fold xs' body s'
  end.

Definition str_of_nat (n : nat) : string :=
  NilZero.string_of_uint (Nat.to_uint n).

Definition str_of_Z (z : Z) : string :=
  NilZero.string_of_int (Z.to_int z).

(* ===================================================================== *)
(** * config.py *)
(* ===================================================================== *)

Record Config : Type := mkConfig {
  SEASON : string;
  MEASURE_TYPES : list string;
  GROUP_QUANTITIES : list Z;
  PER_MODES : list string;
  SEASON_TYPES : list string;
  PT_MEASURE_TYPES : list string;
  SYNERGY_PLAY_TYPES : list string;
  DEFENSE_CATEGORIES : list string;
  DATA_DIR : string;
  API_TIMEOUT : Z;
  API_RETRIES : nat;
  API_BASE_DELAY : Q;
  API_BACKOFF_MULTIPLIER : Q;
  API_CALL_DELAY : Q;
  API_ENDPOINT_DELAY : Q
}.

(** The module as written, with [NBA_SEASON] unset and the package
    installed next to a [data] directory. *)
Definition default_config : Config := {|
  SEASON := "2025-26";
  MEASURE_TYPES :=
    ["Base"; "Advanced"; "Four Factors"; "Misc"; "Scoring"; "Opponent";
     "Defense"];
  GROUP_QUANTITIES := [5; 3; 2]%Z;
  PER_MODES := ["Totals"; "PerGame"; "Per100Possessions"];
  SEASON_TYPES := ["Regular Season"; "Playoffs"];
  PT_MEASURE_TYPES :=
    ["SpeedDistance"; "CatchShoot"; "Drives"; "Passing"; "Possessions";
     "Rebounding"; "Defense"; "Efficiency"; "PullUpShot"; "PostTouch";
     "PaintTouch"; "ElbowTouch"];
  SYNERGY_PLAY_TYPES :=
    ["Transition"; "Isolation"; "PRBallHandler"; "PRRollman"; "Postup";
     "Spotup"; "Handoff"; "Cut"; "OffScreen"; "OffRebound"; "Misc"];
  DEFENSE_CATEGORIES :=
    ["Overall"; "2 Pointers"; "3 Pointers"; "Less Than 6Ft";
     "Less Than 10Ft"; "Greater Than 15Ft"];
  DATA_DIR := "data";
  API_TIMEOUT := 120;
  API_RETRIES := 5;
  API_BASE_DELAY := 3 # 1;
  API_BACKOFF_MULTIPLIER := 2 # 1;
  API_CALL_DELAY := 3 # 2;
  API_ENDPOINT_DELAY := 3 # 1
|}.

(* ===================================================================== *)
(** * The pipeline *)
(* ===================================================================== *)

Section Pipeline.

(** The [config] module as the process sees it. *)
Variable config : Config.

(** The statistics service: [api k ep params] is what instantiating [ep]
    on the keyword arguments [params] does when it is the [k]-th request
    of the process (counting from 0). *)
Variable api : nat -> Endpoint -> Kwargs -> Response.

(** [nba_api.stats.static.teams.get_teams()], as (id, full name). *)
Variable teams : list (Z * string).

(* ------------------------------------------------------------------- *)
(** ** utils.py *)
(* ------------------------------------------------------------------- *)

(** The module's logger, [logging.getLogger("pipeline")]. *)
Definition utils_logger : string := "pipeline".

(** [setup_logging(level)] *)
Definition setup_logging (level : Level) : M unit :=
  fun w => (Ok tt, mkWorld (_api_call_count w) (sent w) level (trace w)).

Definition get_api_call_count : M nat :=
  fun w => (Ok (_api_call_count w), w).

Definition _increment_api_call_count : M unit :=
  fun w => (Ok tt,
            mkWorld (_api_call_count w + 1) (sent w) (log_level w)
                    (trace w)).

(** Instantiating [endpoint_class] on [params]: one request to the
    service. *)
Definition instantiate (endpoint_class : Endpoint) (params : Kwargs)
  : M EndpointObj :=
  fun w =>
    let w' := mkWorld (_api_call_count w) (sent w + 1) (log_level w)
                      (trace w ++ [Request endpoint_class params]) in
    match api (sent w) endpoint_class params with
    | Raises exc => (Raise exc, w')
    | Returns obj => (Ok obj, w')
    end.

(** [s[:n]] *)
Definition str_prefix (n : nat) (s : string) : string := substring 0 n s.

(** [**params, timeout=config.API_TIMEOUT]; no caller passes a [timeout]
    of its own. *)
Definition with_timeout (params : Kwargs) : Kwargs :=
  params ++ [("timeout", PInt (API_TIMEOUT config))].

(** The error raised when the last attempt has failed. *)
Definition failed_after (endpoint_class : Endpoint) (retries : nat)
  : Exception :=
  RuntimeError
    (class_name endpoint_class ++ " failed after " ++ str_of_nat retries
     ++ " attempts").

(** One turn of the loop of [api_call_with_retry]: [Some result] when the
    function returns, [None] when the loop goes on. *)
Definition attempt_once (endpoint_class : Endpoint) (params : Kwargs)
  (retries : nat) (base_delay : Q) (attempt : nat)
  : M (option EndpointObj) :=
  let endpoint_name := class_name endpoint_class in
  try_except
    (_increment_api_call_count ;;
     result <- instantiate endpoint_class (with_timeout params) ;;
     log utils_logger DEBUG "API call succeeded: %s (attempt %d)"
         [AStr endpoint_name; AInt (Z.of_nat (attempt + 1))] ;;
     ret (Some result))
    (fun exc =>
       let wait :=
         Qmult base_delay
               (Qpower (API_BACKOFF_MULTIPLIER config) (Z.of_nat attempt)) in
       if attempt <? retries - 1 then
         log utils_logger WARNING
             "%s attempt %d/%d failed: %s - retrying in %.1fs"
             [AStr endpoint_name; AInt (Z.of_nat (attempt + 1));
              AInt (Z.of_nat retries); AStr (str_prefix 200 (exc_msg exc));
              ASecs wait] ;;
         time_sleep wait ;;
         ret None
       else
         log utils_logger ERROR "%s failed after %d attempts: %s"
             [AStr endpoint_name; AInt (Z.of_nat retries);
              AStr (str_prefix 300 (exc_msg exc))] ;;
         raise (failed_after endpoint_class retries)).

(** [for attempt in range: ...] followed by the final [raise]. *)
Fixpoint attempts (endpoint_class : Endpoint) (params : Kwargs)
  (retries : nat) (base_delay : Q) (range : list nat) : M EndpointObj :=
  match range with
  | [] =>
      raise (RuntimeError (class_name endpoint_class ++ " exhausted retries"))
  | attempt :: range' =>
      r <- attempt_once endpoint_class params retries base_delay attempt ;;
      match r with
      | Some result => ret result
      | None => attempts endpoint_class params retries base_delay range'
      end
  end.

Definition api_call_with_retry (endpoint_class : Endpoint) (params : Kwargs)
  (retries : nat) (base_delay : Q) : M EndpointObj :=
  attempts endpoint_class params retries base_delay (seq 0 retries).

(** [c in seen_cols] *)
Definition mem (c : string) (cs : list string) : bool :=
  existsb (String.eqb c) cs.

Definition is_nil {A} (l : list A) : bool :=
  match l with [] => true | _ => false end.

(** [[c for c in df.columns if c not in seen_cols or c == merge_key]] *)
Definition new_columns (merge_key : string) (seen_cols : list string)
  (df : pd.DataFrame) : list string :=
  filter (fun c => negb (mem c seen_cols) || String.eqb c merge_key)
         (pd.columns df).

(** One turn of the loop of [merge_measure_types] over
    [dataframes_dict.items()]; the state is [(frames, seen_cols)]. *)
Definition collect_step (merge_key : string)
  (item : string * option pd.DataFrame)
  (state : list pd.DataFrame * list string)
  : M (list pd.DataFrame * list string) :=
  let measure_type := fst item in
  let frames := fst state in
  let seen_cols := snd state in
  match snd item with
  | None =>
      log utils_logger WARNING
          "Skipping empty DataFrame for measure type '%s'"
          [AStr measure_type] ;;
      ret state
  | Some df =>
      if pd.empty df then
        log utils_logger WARNING
            "Skipping empty DataFrame for measure type '%s'"
            [AStr measure_type] ;;
        ret state
      else
        (* Keep only the merge key plus columns we haven't seen yet. *)
        let new_cols := new_columns merge_key seen_cols df in
        if is_nil new_cols || negb (mem merge_key new_cols) then ret state
        else ret (frames ++ [pd.select df new_cols], seen_cols ++ new_cols)
  end.

(** [functools.reduce(f, frames)] on a non-empty list. *)
Definition reduce {A} (f : A -> A -> A) (first : A) (others : list A) : A :=
  fold_left f others first.

Definition merge_measure_types
  (dataframes_dict : list (string * option pd.DataFrame))
  (merge_key : string) : M pd.DataFrame :=
  if is_nil dataframes_dict then ret pd.DataFrame_new
  else
    state <- for_fold dataframes_dict (collect_step merge_key)
               ([], [merge_key]) ;;
    let frames := fst state in
    match frames with
    | [] => ret pd.DataFrame_new
    | first :: others =>
        let merged :=
          reduce (fun left right => pd.merge left right merge_key pd.outer)
                 first others in
        log utils_logger INFO
            "Merged %d measure-type frames -> %d rows x %d cols"
            [AInt (Z.of_nat (List.length frames));
             AInt (Z.of_nat (pd.len merged));
             AInt (Z.of_nat (List.length (pd.columns merged)))] ;;
        ret merged
    end.

(** The keyword arguments of the health check's request. *)
Definition health_check_params (season : string) : Kwargs :=
  [("group_quantity", PInt 5);
   ("measure_type_detailed_defense", PStr "Base");
   ("per_mode_detailed", PStr "Totals");
   ("season", PStr season);
   ("season_type_all_star", PStr "Regular Season")].

(** The line [health_check] logs before it calls the service. *)
Definition health_check_banner (season : string) : M unit :=
  log utils_logger INFO "Running API health check for season %s ..."
      [AStr season].

Definition health_check (season : string) : M bool :=
  health_check_banner season ;;
  try_except
    (result <- api_call_with_retry LeagueDashLineups
                 (health_check_params season) 3 (2 # 1) ;;
     let dfs := result in
     match dfs with
     | df0 :: _ =>
         if 0 <? pd.len df0 then
           log utils_logger INFO "Health check passed - got %d rows."
               [AInt (Z.of_nat (pd.len df0))] ;;
           ret true
         else
           log utils_logger WARNING
               "Health check: API responded but returned 0 rows." [] ;;
           ret true
     | [] =>
         log utils_logger WARNING
             "Health check: API responded but returned 0 rows." [] ;;
         ret true
     end)
    (fun exc =>
       log utils_logger ERROR "Health check failed: %s"
           [AStr (exc_msg exc)] ;;
       ret false).

(** [save_dataframe(df, filepath)] *)
Definition save_dataframe (df : pd.DataFrame) (filepath : string) : M unit :=
  emit (WriteCsv filepath df) ;;
  log utils_logger INFO "Saved %d rows x %d cols -> %s"
      [AInt (Z.of_nat (pd.len df));
       AInt (Z.of_nat (List.length (pd.columns df))); AStr filepath].

Fixpoint team_lookup (team_id : Z) (ts : list (Z * string)) : option string :=
  match ts with
  | [] => None
  | (id, full_name) :: ts' =>
      (* a dict comprehension: a later entry with the same id wins *)
      match team_lookup team_id ts' with
      | Some n => Some n
      | None => if Z.eqb id team_id then Some full_name else None
      end
  end.

(** [get_team_name(team_id)]; the cache [_TEAM_MAP] holds the same
    mapping on every call. *)
Definition get_team_name (team_id : Z) : string :=
  match team_lookup team_id teams with
  | Some n => n
  | None => "Unknown"
  end.

Fixpoint insert_Z (x : Z) (l : list Z) : list Z :=
  match l with
  | [] => [x]
  | y :: l' => if (y <=? x)%Z then y :: insert_Z x l' else x :: l
  end.

Definition get_all_team_ids : list Z :=
  fold_right insert_Z [] (map fst teams).

(** [pace(delay)] *)
Definition pace (delay : Q) : M unit := time_sleep delay.

(* ------------------------------------------------------------------- *)
(** ** Python dicts, in insertion order *)
(* ------------------------------------------------------------------- *)

(** [d[k] = v] *)
Fixpoint dict_set {K V} (eqb : K -> K -> bool) (k : K) (v : V)
  (d : list (K * V)) : list (K * V) :=
  match d with
  | [] => [(k, v)]
  | (k', v') :: d' =>
      if eqb k k' then (k, v) :: d' else (k', v') :: dict_set eqb k v d'
  end.

(** [d[k].append(x)] for a key of [d]. *)
Definition dict_append {K V} (eqb : K -> K -> bool) (k : K) (x : V)
  (d : list (K * list V)) : list (K * list V) :=
  map (fun kv => if eqb k (fst kv) then (fst kv, snd kv ++ [x]) else kv) d.

(* ------------------------------------------------------------------- *)
(** ** fetch_lineups.py *)
(* ------------------------------------------------------------------- *)

Definition lineups_logger : string := "pipeline.fetch_lineups".

(** The keyword arguments of one lineup request. *)
Definition lineups_params (season season_type : string) (group_quantity : Z)
  (per_mode measure_type : string) : Kwargs :=
  [("group_quantity", PInt group_quantity);
   ("measure_type_detailed_defense", PStr measure_type);
   ("per_mode_detailed", PStr per_mode);
   ("season", PStr season);
   ("season_type_all_star", PStr season_type);
   ("last_n_games", PInt 0);
   ("month", PInt 0);
   ("opponent_team_id", PInt 0);
   ("pace_adjust", PStr "N");
   ("period", PInt 0);
   ("plus_minus", PStr "N");
   ("rank", PStr "N")].

Definition fetch_all_lineups (season season_type : string)
  (group_quantity : Z) (per_mode measure_type : string)
  : M (option pd.DataFrame) :=
  log lineups_logger INFO "Fetching lineups: %s | %s | %d-man | %s | %s"
      [AStr season; AStr season_type; AInt group_quantity; AStr per_mode;
       AStr measure_type] ;;
  try_except
    (result <- api_call_with_retry LeagueDashLineups
                 (lineups_params season season_type group_quantity per_mode
                                 measure_type)
                 (API_RETRIES config) (API_BASE_DELAY config) ;;
     let dfs := result in
     match dfs with
     | df :: _ =>
         if negb (pd.empty df) then
           log lineups_logger INFO "  -> %d rows for %s / %s / %d-man / %s"
               [AInt (Z.of_nat (pd.len df)); AStr measure_type;
                AStr season_type; AInt group_quantity; AStr per_mode] ;;
           ret (Some df)
         else
           log lineups_logger WARNING "  -> 0 rows for %s / %s / %d-man / %s"
               [AStr measure_type; AStr season_type; AInt group_quantity;
                AStr per_mode] ;;
           ret None
     | [] =>
         log lineups_logger WARNING "  -> 0 rows for %s / %s / %d-man / %s"
             [AStr measure_type; AStr season_type; AInt group_quantity;
              AStr per_mode] ;;
         ret None
     end)
    (fun exc =>
       log lineups_logger ERROR
           "Failed to fetch lineups (%s/%s/%d-man/%s/%s): %s"
           [AStr season; AStr season_type; AInt group_quantity;
            AStr per_mode; AStr measure_type; AStr (exc_msg exc)] ;;
       ret None).

(** One turn of the loop over [config.MEASURE_TYPES]: fetch the measure
    type [mt], keep its table in [measure_frames] when there is one, and
    pace. *)
Definition measure_frames_step (season season_type : string)
  (group_quantity : Z) (per_mode mt : string)
  (measure_frames : list (string * option pd.DataFrame))
  : M (list (string * option pd.DataFrame)) :=
  df <- fetch_all_lineups season season_type group_quantity per_mode mt ;;
  let measure_frames' :=
    match df with
    | Some d =>
        if negb (pd.empty d)
        then dict_set String.eqb mt (Some d) measure_frames
        else measure_frames
    | None => measure_frames
    end in
  pace (API_CALL_DELAY config) ;;
  ret measure_frames'.

(** The loop over [config.MEASURE_TYPES] that fills [measure_frames]. *)
Definition fetch_measure_frames (season season_type : string)
  (group_quantity : Z) (per_mode : string)
  : M (list (string * option pd.DataFrame)) :=
  for_fold (MEASURE_TYPES config)
    (measure_frames_step season season_type group_quantity per_mode) [].

(** [merged["TEAM_ID"].apply(get_team_name)], row by row. *)
Definition team_of (cols : list string) (r : list pd.cell) : pd.cell :=
  match pd.get cols r "TEAM_ID" with
  | Some (pd.VInt team_id) => Some (pd.VStr (get_team_name team_id))
  | _ => Some (pd.VStr "Unknown")
  end.

(** [merged["GROUP_NAME"].fillna("").str.split(" - ")], row by row. *)
Definition players_of (cols : list string) (r : list pd.cell) : pd.cell :=
  match pd.get cols r "GROUP_NAME" with
  | None => Some (pd.VList (pd.str_split " - " ""))
  | Some (pd.VStr s) => Some (pd.VList (pd.str_split " - " s))
  | Some _ => None
  end.

(** The metadata columns added to a merged combination. *)
Definition tag_lineups (merged : pd.DataFrame) (season_type : string)
  (group_quantity : Z) (per_mode : string) : pd.DataFrame :=
  let m1 := pd.assign_scalar merged "SEASON_TYPE" (pd.VStr season_type) in
  let m2 := pd.assign_scalar m1 "GROUP_QUANTITY" (pd.VInt group_quantity) in
  let m3 := pd.assign_scalar m2 "PER_MODE" (pd.VStr per_mode) in
  let m4 :=
    if pd.has_column "TEAM_ID" m3
    then pd.assign m3 "team" (team_of (pd.columns m3))
    else m3 in
  if pd.has_column "GROUP_NAME" m4
  then pd.assign m4 "players_list" (players_of (pd.columns m4))
  else m4.

(** The body of the innermost loop of [fetch_and_merge_lineups], for one
    (season type, group quantity, per-mode) combination. *)
Definition lineup_combo (season season_type : string) (group_quantity : Z)
  (per_mode : string) (state : list (Z * list pd.DataFrame) * nat)
  : M (list (Z * list pd.DataFrame) * nat) :=
  let accumulators := fst state in
  let combo_idx := snd state + 1 in
  let total_combos :=
    List.length (SEASON_TYPES config)
    * List.length (GROUP_QUANTITIES config)
    * List.length (PER_MODES config) in
  log lineups_logger INFO "- Combo %d/%d: %s | %d-man | %s"
      [AInt (Z.of_nat combo_idx); AInt (Z.of_nat total_combos);
       AStr season_type; AInt group_quantity; AStr per_mode] ;;
  measure_frames <- fetch_measure_frames season season_type group_quantity
                      per_mode ;;
  if is_nil measure_frames then
    log lineups_logger WARNING "No data for combo %s/%d-man/%s - skipping."
        [AStr season_type; AInt group_quantity; AStr per_mode] ;;
    ret (accumulators, combo_idx)
  else
    merged <- merge_measure_types measure_frames "GROUP_ID" ;;
    if pd.empty merged then ret (accumulators, combo_idx)
    else
      let merged' := tag_lineups merged season_type group_quantity per_mode in
      time_sleep (API_ENDPOINT_DELAY config) ;;
      ret (dict_append Z.eqb group_quantity merged' accumulators, combo_idx).

(** The sort directions of the combined lineup table. *)
Definition lineup_ascending (sort_cols : list string) : list bool :=
  if mem "MIN" sort_cols
  then repeat true (List.length sort_cols - 1) ++ [false]
  else repeat true (List.length sort_cols).

Definition fetch_and_merge_lineups (season : string)
  : M (list (Z * pd.DataFrame)) :=
  let accumulators :=
    fold_left (fun d gq => dict_set Z.eqb gq [] d)
              (GROUP_QUANTITIES config) [] in
  state <-
    for_fold (SEASON_TYPES config)
      (fun season_type =>
         for_fold (GROUP_QUANTITIES config)
           (fun group_quantity =>
              for_fold (PER_MODES config)
                (fun per_mode =>
                   lineup_combo season season_type group_quantity per_mode)))
      (accumulators, 0) ;;
  for_fold (fst state)
    (fun item results =>
       let gq := fst item in
       let frames := snd item in
       if is_nil frames then
         log lineups_logger WARNING "No data collected for %d-man lineups."
             [AInt gq] ;;
         ret results
       else
         let combined := pd.concat frames in
         let sort_cols :=
           filter (fun c => pd.has_column c combined)
                  ["team"; "SEASON_TYPE"; "PER_MODE"; "MIN"] in
         let combined :=
           if negb (is_nil sort_cols)
           then pd.sort_values combined sort_cols (lineup_ascending sort_cols)
           else combined in
         let filepath :=
           (DATA_DIR config ++ "/lineups_" ++ str_of_Z gq ++ "man_"
            ++ season ++ ".csv")%string in
         save_dataframe combined filepath ;;
         log lineups_logger INFO "%d-man lineups: %d rows x %d cols -> %s"
             [AInt gq; AInt (Z.of_nat (pd.len combined));
              AInt (Z.of_nat (List.length (pd.columns combined)));
              AStr filepath] ;;
         ret (dict_set Z.eqb gq combined results))
    [].

(* ------------------------------------------------------------------- *)
(** ** fetch_supplementary.py *)
(* ------------------------------------------------------------------- *)

Definition supp_logger : string := "pipeline.fetch_supplementary".

(** [api_call_with_retry(endpoint_class, params=...)] with the default
    [retries] and [base_delay]. *)
Definition api_call (endpoint_class : Endpoint) (params : Kwargs)
  : M EndpointObj :=
  api_call_with_retry endpoint_class params (API_RETRIES config)
                      (API_BASE_DELAY config).

(** The end of the single-table fetchers: drop the empty frames, return
    [None] when nothing is left, otherwise concatenate, save and
    return. *)
Definition concat_and_save (frames : list pd.DataFrame)
  (none_msg filename done_msg : string) : M (option pd.DataFrame) :=
  let frames := filter (fun f => negb (pd.empty f)) frames in
  if is_nil frames then
    log supp_logger ERROR none_msg [] ;;
    ret None
  else
    let df := pd.concat frames in
    let filepath := (DATA_DIR config ++ "/" ++ filename)%string in
    save_dataframe df filepath ;;
    log supp_logger INFO done_msg
        [AInt (Z.of_nat (pd.len df)); AStr filepath] ;;
    ret (Some df).

(** One (team, season type) point of [fetch_on_off]. *)
Definition on_off_point (season : string) (team_id : Z) (team_name : string)
  (season_type : string) (all_frames : list pd.DataFrame)
  : M (list pd.DataFrame) :=
  all_frames' <-
    try_except
      (result <- api_call TeamPlayerOnOffSummary
                   [("team_id", PInt team_id);
                    ("season", PStr season);
                    ("season_type_all_star", PStr season_type);
                    ("measure_type_detailed_defense", PStr "Base");
                    ("per_mode_detailed", PStr "Totals");
                    ("last_n_games", PInt 0);
                    ("month", PInt 0);
                    ("opponent_team_id", PInt 0);
                    ("pace_adjust", PStr "N");
                    ("period", PInt 0);
                    ("plus_minus", PStr "N");
                    ("rank", PStr "N")] ;;
       let dfs := result in
       if 3 <=? List.length dfs then
         let on_court :=
           pd.assign_scalar (nth 1 dfs pd.DataFrame_new) "COURT_STATUS"
                            (pd.VStr "On") in
         let off_court :=
           pd.assign_scalar (nth 2 dfs pd.DataFrame_new) "COURT_STATUS"
                            (pd.VStr "Off") in
         let combined := pd.concat [on_court; off_court] in
         let combined := pd.assign_scalar combined "team" (pd.VStr team_name) in
         let combined :=
           pd.assign_scalar combined "SEASON_TYPE" (pd.VStr season_type) in
         ret (all_frames ++ [combined])
       else ret all_frames)
      (fun exc =>
         log supp_logger ERROR "Failed on/off for %s (%s): %s"
             [AStr team_name; AStr season_type; AStr (exc_msg exc)] ;;
         ret all_frames) ;;
  pace (API_CALL_DELAY config) ;;
  ret all_frames'.

Definition fetch_on_off (season : string) : M (option pd.DataFrame) :=
  log supp_logger INFO "Fetching on/off court data for season %s ..."
      [AStr season] ;;
  let team_ids := get_all_team_ids in
  state <-
    for_fold team_ids
      (fun team_id state =>
         let idx := snd state + 1 in
         let team_name := get_team_name team_id in
         log supp_logger INFO "  [%d/%d] %s (ID %d)"
             [AInt (Z.of_nat idx); AInt (Z.of_nat (List.length team_ids));
              AStr team_name; AInt team_id] ;;
         all_frames <-
           for_fold (SEASON_TYPES config)
             (on_off_point season team_id team_name) (fst state) ;;
         time_sleep (API_ENDPOINT_DELAY config) ;;
         ret (all_frames, idx))
      ([], 0) ;;
  concat_and_save (fst state) "No on/off data collected."
    ("on_off_" ++ season ++ ".csv") "On/off data: %d rows -> %s".

(** The part shared by the flat fetchers inside their [try]: the first
    table of the response with its tag columns set, when there is one and
    it is not empty. *)
Definition tagged_first (dfs : list pd.DataFrame)
  (tags : list (string * pd.value)) : option pd.DataFrame :=
  match dfs with
  | df :: _ =>
      if negb (pd.empty df)
      then Some (fold_left (fun d t => pd.assign_scalar d (fst t) (snd t))
                           tags df)
      else None
  | [] => None
  end.

Definition clutch_point (season season_type : string)
  (frames : list pd.DataFrame) : M (list pd.DataFrame) :=
  frames' <-
    try_except
      (result <- api_call LeagueDashTeamClutch
                   [("season", PStr season);
                    ("season_type_all_star", PStr season_type);
                    ("measure_type_detailed_defense", PStr "Base");
                    ("per_mode_detailed", PStr "Totals");
                    ("ahead_behind", PStr "Ahead or Behind");
                    ("clutch_time", PStr "Last 5 Minutes");
                    ("point_diff", PInt 5);
                    ("last_n_games", PInt 0);
                    ("month", PInt 0);
                    ("opponent_team_id", PInt 0);
                    ("pace_adjust", PStr "N");
                    ("period", PInt 0);
                    ("plus_minus", PStr "N");
                    ("rank", PStr "N")] ;;
       match tagged_first result [("SEASON_TYPE", pd.VStr season_type)] with
       | Some df =>
           log supp_logger INFO "  %s: %d rows"
               [AStr season_type; AInt (Z.of_nat (pd.len df))] ;;
           ret (frames ++ [df])
       | None => ret frames
       end)
      (fun exc =>
         log supp_logger ERROR "Failed clutch (%s): %s"
             [AStr season_type; AStr (exc_msg exc)] ;;
         ret frames) ;;
  pace (API_CALL_DELAY config) ;;
  ret frames'.

Definition fetch_clutch (season : string) : M (option pd.DataFrame) :=
  log supp_logger INFO "Fetching clutch data for season %s ..."
      [AStr season] ;;
  frames <- for_fold (SEASON_TYPES config) (clutch_point season) [] ;;
  concat_and_save frames "No clutch data collected."
    ("clutch_" ++ season ++ ".csv") "Clutch data: %d rows -> %s".

Definition type_groupings : list string := ["Offensive"; "Defensive"].

Definition play_type_player_or_team : list (string * string) :=
  [("T", "Team"); ("P", "Player")].

(** The keyword arguments of one play-type request. *)
Definition play_type_params (season season_type play_type tg pt_abbr : string)
  : Kwargs :=
  [("season", PStr season);
   ("season_type_all_star", PStr season_type);
   ("play_type_nullable", PStr play_type);
   ("type_grouping_nullable", PStr tg);
   ("player_or_team_abbreviation", PStr pt_abbr);
   ("per_mode_simple", PStr "Totals");
   ("league_id", PStr "00")].

(** One parameter point of [fetch_play_types]; the state is
    [(frames, call_idx)]. *)
Definition play_type_point (season season_type play_type tg : string)
  (pt : string * string) (state : list pd.DataFrame * nat)
  : M (list pd.DataFrame * nat) :=
  let pt_abbr := fst pt in
  let pt_label := snd pt in
  let frames := fst state in
  let call_idx := snd state + 1 in
  let total :=
    List.length (SYNERGY_PLAY_TYPES config) * List.length type_groupings
    * List.length play_type_player_or_team
    * List.length (SEASON_TYPES config) in
  log supp_logger INFO "  [%d/%d] %s | %s | %s | %s | %s"
      [AInt (Z.of_nat call_idx); AInt (Z.of_nat total); AStr season_type;
       AStr play_type; AStr tg; AStr pt_label; AStr season] ;;
  frames' <-
    try_except
      (result <- api_call SynergyPlayTypes
                   (play_type_params season season_type play_type tg
                                     pt_abbr) ;;
       match tagged_first result
               [("PLAY_TYPE", pd.VStr play_type);
                ("TYPE_GROUPING", pd.VStr tg);
                ("PLAYER_OR_TEAM", pd.VStr pt_label);
                ("SEASON_TYPE", pd.VStr season_type)] with
       | Some df => ret (frames ++ [df])
       | None => ret frames
       end)
      (fun exc =>
         log supp_logger ERROR "Failed play-type %s/%s/%s/%s: %s"
             [AStr play_type; AStr tg; AStr pt_label; AStr season_type;
              AStr (exc_msg exc)] ;;
         ret frames) ;;
  pace (API_CALL_DELAY config) ;;
  ret (frames', call_idx).

(** The four nested loops of [fetch_play_types]. *)
Definition play_type_sweep (season : string)
  (state : list pd.DataFrame * nat) : M (list pd.DataFrame * nat) :=
  for_fold (SEASON_TYPES config)
    (fun season_type =>
       for_fold (SYNERGY_PLAY_TYPES config)
         (fun play_type =>
            for_fold type_groupings
              (fun tg =>
                 for_fold play_type_player_or_team
                   (play_type_point season season_type play_type tg))))
    state.

Definition fetch_play_types (season : string) : M (option pd.DataFrame) :=
  log supp_logger INFO "Fetching play-type data for season %s ..."
      [AStr season] ;;
  state <- play_type_sweep season ([], 0) ;;
  concat_and_save (fst state) "No play-type data collected."
    ("play_types_" ++ season ++ ".csv") "Play-type data: %d rows -> %s".

(** One of the two calls [fetch_hustle] makes per season type. *)
Definition hustle_call (endpoint_class : Endpoint)
  (season season_type what : string) (frames : list pd.DataFrame)
  : M (list pd.DataFrame) :=
  frames' <-
    try_except
      (result <- api_call endpoint_class
                   [("season", PStr season);
                    ("season_type_all_star", PStr season_type);
                    ("per_mode_time", PStr "Totals")] ;;
       match tagged_first result [("SEASON_TYPE", pd.VStr season_type)] with
       | Some df =>
           log supp_logger INFO "  Hustle %s (%s): %d rows"
               [AStr what; AStr season_type; AInt (Z.of_nat (pd.len df))] ;;
           ret (frames ++ [df])
       | None => ret frames
       end)
      (fun exc =>
         log supp_logger ERROR "Failed hustle %s (%s): %s"
             [AStr what; AStr season_type; AStr (exc_msg exc)] ;;
         ret frames) ;;
  pace (API_CALL_DELAY config) ;;
  ret frames'.

(** The end of [fetch_hustle] for one of its two tables. *)
Definition hustle_save (frames : list pd.DataFrame) (season what : string)
  : M (option pd.DataFrame) :=
  if is_nil frames then ret None
  else
    let df := pd.concat frames in
    save_dataframe df
      (DATA_DIR config ++ "/hustle_" ++ what ++ "_" ++ season ++ ".csv") ;;
    log supp_logger INFO "Hustle %s: %d rows"
        [AStr what; AInt (Z.of_nat (pd.len df))] ;;
    ret (Some df).

Definition fetch_hustle (season : string)
  : M (option pd.DataFrame * option pd.DataFrame) :=
  log supp_logger INFO "Fetching hustle stats for season %s ..."
      [AStr season] ;;
  state <-
    for_fold (SEASON_TYPES config)
      (fun season_type state =>
         player_frames <-
           hustle_call LeagueHustleStatsPlayer season season_type "players"
                       (fst state) ;;
         team_frames <-
           hustle_call LeagueHustleStatsTeam season season_type "teams"
                       (snd state) ;;
         ret (player_frames, team_frames))
      ([], []) ;;
  let player_frames := filter (fun f => negb (pd.empty f)) (fst state) in
  let team_frames := filter (fun f => negb (pd.empty f)) (snd state) in
  player_df <- hustle_save player_frames season "players" ;;
  team_df <- hustle_save team_frames season "teams" ;;
  match player_df, team_df with
  | None, None =>
      log supp_logger ERROR "No hustle data collected." [] ;;
      ret (player_df, team_df)
  | _, _ => ret (player_df, team_df)
  end.

Definition tracking_player_or_team : list (string * string) :=
  [("Player", "Player"); ("Team", "Team")].

Definition tracking_point (season season_type pt_measure : string)
  (pot : string * string) (state : list pd.DataFrame * nat)
  : M (list pd.DataFrame * nat) :=
  let pot_param := fst pot in
  let pot_label := snd pot in
  let frames := fst state in
  let call_idx := snd state + 1 in
  let total :=
    List.length (PT_MEASURE_TYPES config)
    * List.length tracking_player_or_team
    * List.length (SEASON_TYPES config) in
  log supp_logger INFO "  [%d/%d] %s | %s | %s"
      [AInt (Z.of_nat call_idx); AInt (Z.of_nat total); AStr pt_measure;
       AStr pot_label; AStr season_type] ;;
  frames' <-
    try_except
      (result <- api_call LeagueDashPtStats
                   [("season", PStr season);
                    ("season_type_all_star", PStr season_type);
                    ("pt_measure_type", PStr pt_measure);
                    ("player_or_team", PStr pot_param);
                    ("per_mode_simple", PStr "Totals");
                    ("last_n_games", PInt 0);
                    ("month", PInt 0);
                    ("opponent_team_id", PInt 0)] ;;
       match tagged_first result
               [("PT_MEASURE_TYPE", pd.VStr pt_measure);
                ("PLAYER_OR_TEAM", pd.VStr pot_label);
                ("SEASON_TYPE", pd.VStr season_type)] with
       | Some df => ret (frames ++ [df])
       | None => ret frames
       end)
      (fun exc =>
         log supp_logger ERROR "Failed tracking %s/%s/%s: %s"
             [AStr pt_measure; AStr pot_label; AStr season_type;
              AStr (exc_msg exc)] ;;
         ret frames) ;;
  pace (API_CALL_DELAY config) ;;
  ret (frames', call_idx).

Definition fetch_tracking (season : string) : M (option pd.DataFrame) :=
  log supp_logger INFO "Fetching tracking stats for season %s ..."
      [AStr season] ;;
  state <-
    for_fold (SEASON_TYPES config)
      (fun season_type =>
         for_fold (PT_MEASURE_TYPES config)
           (fun pt_measure =>
              for_fold tracking_player_or_team
                (tracking_point season season_type pt_measure)))
      ([], 0) ;;
  concat_and_save (fst state) "No tracking data collected."
    ("tracking_" ++ season ++ ".csv") "Tracking data: %d rows -> %s".

Definition defense_point (season season_type category : string)
  (state : list pd.DataFrame * nat) : M (list pd.DataFrame * nat) :=
  let frames := fst state in
  let call_idx := snd state + 1 in
  let total :=
    List.length (DEFENSE_CATEGORIES config)
    * List.length (SEASON_TYPES config) in
  log supp_logger INFO "  [%d/%d] %s | %s"
      [AInt (Z.of_nat call_idx); AInt (Z.of_nat total); AStr category;
       AStr season_type] ;;
  frames' <-
    try_except
      (result <- api_call LeagueDashPtDefend
                   [("season", PStr season);
                    ("season_type_all_star", PStr season_type);
                    ("defense_category", PStr category);
                    ("per_mode_simple", PStr "Totals");
                    ("league_id", PStr "00")] ;;
       match tagged_first result
               [("DEFENSE_CATEGORY", pd.VStr category);
                ("SEASON_TYPE", pd.VStr season_type)] with
       | Some df => ret (frames ++ [df])
       | None => ret frames
       end)
      (fun exc =>
         log supp_logger ERROR "Failed defense tracking %s/%s: %s"
             [AStr category; AStr season_type; AStr (exc_msg exc)] ;;
         ret frames) ;;
  pace (API_CALL_DELAY config) ;;
  ret (frames', call_idx).

Definition fetch_defense_tracking (season : string)
  : M (option pd.DataFrame) :=
  log supp_logger INFO "Fetching defense tracking for season %s ..."
      [AStr season] ;;
  state <-
    for_fold (SEASON_TYPES config)
      (fun season_type =>
         for_fold (DEFENSE_CATEGORIES config)
           (defense_point season season_type))
      ([], 0) ;;
  concat_and_save (fst state) "No defense tracking data collected."
    ("defense_tracking_" ++ season ++ ".csv")
    "Defense tracking: %d rows -> %s".

Definition estimated_point (season season_type : string)
  (frames : list pd.DataFrame) : M (list pd.DataFrame) :=
  frames' <-
    try_except
      (result <- api_call PlayerEstimatedMetrics
                   [("season", PStr season);
                    ("season_type", PStr season_type);
                    ("league_id", PStr "00")] ;;
       match tagged_first result [("SEASON_TYPE", pd.VStr season_type)] with
       | Some df =>
           log supp_logger INFO "  Estimated metrics (%s): %d rows"
               [AStr season_type; AInt (Z.of_nat (pd.len df))] ;;
           ret (frames ++ [df])
       | None => ret frames
       end)
      (fun exc =>
         log supp_logger ERROR "Failed estimated metrics (%s): %s"
             [AStr season_type; AStr (exc_msg exc)] ;;
         ret frames) ;;
  pace (API_CALL_DELAY config) ;;
  ret frames'.

Definition fetch_estimated_metrics (season : string)
  : M (option pd.DataFrame) :=
  log supp_logger INFO "Fetching estimated metrics for season %s ..."
      [AStr season] ;;
  frames <- for_fold (SEASON_TYPES config) (estimated_point season) [] ;;
  concat_and_save frames "No estimated metrics collected."
    ("estimated_metrics_" ++ season ++ ".csv")
    "Estimated metrics: %d rows -> %s".

(* ------------------------------------------------------------------- *)
(** ** main.py *)
(* ------------------------------------------------------------------- *)

Definition main_logger : string := "pipeline.main".

(** What a section's callable may return, as far as [_run_section]
    looks at it. *)
Inductive PyObj : Type :=
| PyNone
| PyFrame (df : pd.DataFrame)
| PyDict (values : list PyObj)
| PyTuple (items : list PyObj)
| PyOther (length : option nat).   (* any other object and its [__len__] *)

(** [sum(len(v) for v in vs if isinstance(v, pd.DataFrame))] *)
Definition sum_frame_lens (vs : list PyObj) : nat :=
  fold_right
    (fun v acc => match v with PyFrame df => pd.len df + acc | _ => acc end)
    0 vs.

(** The row count [_run_section] derives from a result. *)
Definition count_rows (result : PyObj) : nat :=
  match result with
  | PyNone => 0
  | PyDict values => sum_frame_lens values
  | PyTuple items => sum_frame_lens items
  | PyFrame df => pd.len df
  | PyOther (Some n) => n
  | PyOther None => 0
  end.

Definition banner : string :=
  "------------------------------------------------------------".

(** The three lines that open a section in the log. *)
Definition section_banner (name : string) : M unit :=
  log main_logger INFO banner [] ;;
  log main_logger INFO "SECTION: %s" [AStr name] ;;
  log main_logger INFO banner [].

Definition _run_section (name : string) (fn : M PyObj) : M (bool * nat) :=
  section_banner name ;;
  try_except
    (result <- fn ;;
     let rows := count_rows result in
     if 0 <? rows then
       log main_logger INFO "%s completed in %.1fs - %d rows"
           [AStr name; AInt (Z.of_nat rows)] ;;
       ret (true, rows)
     else
       log main_logger WARNING "%s completed but produced 0 rows (%.1fs)"
           [AStr name] ;;
       ret (false, 0))
    (fun exc =>
       log main_logger ERROR "%s FAILED after %.1fs: %s"
           [AStr name; AStr (exc_msg exc)] ;;
       ret (false, 0)).

Definition rule : string :=
  "============================================================".

Definition _print_summary (results : list (string * (bool * nat)))
  (files_written : list string) : M unit :=
  api_calls <- get_api_call_count ;;
  let total_rows := fold_right (fun kv acc => snd (snd kv) + acc) 0 results in
  let succeeded := map fst (filter (fun kv => fst (snd kv)) results) in
  let failed := map fst (filter (fun kv => negb (fst (snd kv))) results) in
  log main_logger INFO "" [] ;;
  log main_logger INFO rule [] ;;
  log main_logger INFO "PIPELINE SUMMARY" [] ;;
  log main_logger INFO rule [] ;;
  log main_logger INFO "Total wall time    : %.1f s (%.1f min)" [] ;;
  log main_logger INFO "Total API calls    : %d" [AInt (Z.of_nat api_calls)] ;;
  log main_logger INFO "Total rows fetched : %d"
      [AInt (Z.of_nat total_rows)] ;;
  log main_logger INFO "Files written      : %d"
      [AInt (Z.of_nat (List.length files_written))] ;;
  (if negb (is_nil succeeded) then
     log main_logger INFO "" [] ;;
     log main_logger INFO "Succeeded (%d):"
         [AInt (Z.of_nat (List.length succeeded))] ;;
     for_each (filter (fun kv => fst (snd kv)) results)
       (fun kv =>
          log main_logger INFO "    * %s (%d rows)"
              [AStr (fst kv); AInt (Z.of_nat (snd (snd kv)))])
   else ret tt) ;;
  (if negb (is_nil failed) then
     log main_logger INFO "" [] ;;
     log main_logger INFO "Failed (%d):"
         [AInt (Z.of_nat (List.length failed))] ;;
     for_each failed (fun f => log main_logger INFO "    * %s" [AStr f])
   else ret tt) ;;
  log main_logger INFO rule [].

(** The [argparse.Namespace] of [_parse_args]. *)
Record Namespace : Type := mkNamespace {
  season : string;
  lineups_only : bool;
  supplementary_only : bool;
  dry_run : bool;
  verbose : bool
}.

Definition starts_with_dash (s : string) : bool := prefix "-" s.

(** The options the parser declares, each spelled in full: four
    independent [store_true] flags and [--season VALUE].  Nothing relates
    [--lineups-only] to [--supplementary-only].  An argument list the
    parser does not accept ends the process with status 2.  Abbreviated
    options, [--season=VALUE] and [--help] are not part of this model and
    are rejected here. *)
Fixpoint parse_known (argv : list string) (ns : Namespace)
  : Outcome Namespace :=
  match argv with
  | [] => Ok ns
  | a :: argv' =>
      if String.eqb a "--lineups-only" then
        parse_known argv'
          (mkNamespace (season ns) true (supplementary_only ns) (dry_run ns)
                       (verbose ns))
      else if String.eqb a "--supplementary-only" then
        parse_known argv'
          (mkNamespace (season ns) (lineups_only ns) true (dry_run ns)
                       (verbose ns))
      else if String.eqb a "--dry-run" then
        parse_known argv'
          (mkNamespace (season ns) (lineups_only ns) (supplementary_only ns)
                       true (verbose ns))
      else if String.eqb a "--verbose" then
        parse_known argv'
          (mkNamespace (season ns) (lineups_only ns) (supplementary_only ns)
                       (dry_run ns) true)
      else if String.eqb a "--season" then
        match argv' with
        | v :: argv'' =>
            if starts_with_dash v then Exit 2
            else
              parse_known argv''
                (mkNamespace v (lineups_only ns) (supplementary_only ns)
                             (dry_run ns) (verbose ns))
        | [] => Exit 2
        end
      else Exit 2
  end.

Definition _parse_args (argv : list string) : M Namespace :=
  fun w =>
    (parse_known argv (mkNamespace (SEASON config) false false false false),
     w).

Definition data_file (stem season : string) : string :=
  DATA_DIR config ++ "/" ++ stem ++ "_" ++ season ++ ".csv".

(** One section of [run]: run it, record its result under [key], list its
    files when it succeeded. *)
Definition record_section (name key : string) (fn : M PyObj)
  (files : list string)
  (state : list (string * (bool * nat)) * list string)
  : M (list (string * (bool * nat)) * list string) :=
  r <- _run_section name fn ;;
  let results := dict_set String.eqb key r (fst state) in
  let files_written :=
    if fst r then snd state ++ files else snd state in
  ret (results, files_written).

Definition opt_frame (o : option pd.DataFrame) : PyObj :=
  match o with Some df => PyFrame df | None => PyNone end.

(** A fetcher as the callable handed to [_run_section]. *)
Definition as_section {A} (f : M A) (to_obj : A -> PyObj) : M PyObj :=
  r <- f ;; ret (to_obj r).

Definition run (argv : list string) : M unit :=
  args <- _parse_args argv ;;
  setup_logging (if verbose args then DEBUG else INFO) ;;
  let season := season args in
  log main_logger INFO rule [] ;;
  log main_logger INFO "NBA DATA PIPELINE - season %s" [AStr season] ;;
  log main_logger INFO rule [] ;;
  (* Health check *)
  healthy <- health_check season ;;
  (if negb healthy then
     if dry_run args then
       log main_logger ERROR "Dry-run health check failed. Exiting." [] ;;
       sys_exit 1
     else
       log main_logger WARNING "Health check failed - continuing anyway ..."
           []
   else ret tt) ;;
  if dry_run args then
    log main_logger INFO "Dry-run complete - API is reachable. Exiting." []
  else
    let state : list (string * (bool * nat)) * list string := ([], []) in
    (* Core lineups *)
    state <-
      (if negb (supplementary_only args) then
         state <-
           record_section "Lineups (5/3/2-man)" "Lineups"
             (as_section (fetch_and_merge_lineups season)
                (fun d => PyDict (map (fun kv => PyFrame (snd kv)) d)))
             (map (fun gq =>
                     (DATA_DIR config ++ "/lineups_" ++ str_of_Z gq
                      ++ "man_" ++ season ++ ".csv")%string)
                  (GROUP_QUANTITIES config))
             state ;;
         time_sleep (API_ENDPOINT_DELAY config) ;;
         ret state
       else ret state) ;;
    (* Supplementary data *)
    state <-
      (if negb (lineups_only args) then
         state <-
           record_section "On/Off Court" "On/Off"
             (as_section (fetch_on_off season) opt_frame)
             [data_file "on_off" season] state ;;
         time_sleep (API_ENDPOINT_DELAY config) ;;
         state <-
           record_section "Clutch" "Clutch"
             (as_section (fetch_clutch season) opt_frame)
             [data_file "clutch" season] state ;;
         time_sleep (API_ENDPOINT_DELAY config) ;;
         state <-
           record_section "Play Types" "Play Types"
             (as_section (fetch_play_types season) opt_frame)
             [data_file "play_types" season] state ;;
         time_sleep (API_ENDPOINT_DELAY config) ;;
         state <-
           record_section "Hustle Stats" "Hustle"
             (as_section (fetch_hustle season)
                (fun p => PyTuple [opt_frame (fst p); opt_frame (snd p)]))
             [data_file "hustle_players" season;
              data_file "hustle_teams" season] state ;;
         time_sleep (API_ENDPOINT_DELAY config) ;;
         state <-
           record_section "Player Tracking" "Tracking"
             (as_section (fetch_tracking season) opt_frame)
             [data_file "tracking" season] state ;;
         time_sleep (API_ENDPOINT_DELAY config) ;;
         state <-
           record_section "Defense Tracking" "Defense Tracking"
             (as_section (fetch_defense_tracking season) opt_frame)
             [data_file "defense_tracking" season] state ;;
         time_sleep (API_ENDPOINT_DELAY config) ;;
         record_section "Estimated Metrics" "Estimated Metrics"
           (as_section (fetch_estimated_metrics season) opt_frame)
           [data_file "estimated_metrics" season] state
       else ret state) ;;
    (* Summary *)
    _print_summary (fst state) (snd state).

End Pipeline.

(* ===================================================================== *)
(** * The retry caller under Python's arithmetic and clock *)
(* ===================================================================== *)

(** [api_call_with_retry] once more, with what the pipeline above leaves
    out: the power of the back-off is a float and [time.sleep] checks its
    argument, and either can raise inside the [except] handler.  Where no
    wait is refused the two renderings run alike. *)
Module cpython.

Definition OverflowError (msg : string) : Exception :=
  mkException "OverflowError" msg.

Definition ValueError (msg : string) : Exception :=
  mkException "ValueError" msg.

(** [x ** n] for a float [x] and an [int] [n >= 0]: CPython raises
    [OverflowError] when the power is out of the range of a float, that
    is from [2 ** 1024] on in magnitude.  The value is the exact power:
    the rounding of floats is left out. *)
Definition float_pow (x : Q) (n : nat) : Outcome Q :=
  let p := Qpower x (Z.of_nat n) in
  let limit := inject_Z (2 ^ 1024) in
  if Qle_bool limit p || Qle_bool p (Qopp limit)
  then Raise (OverflowError "(34, 'Numerical result out of range')")
  else Ok p.

(** What [time.sleep(secs)] raises instead of sleeping: CPython turns the
    delay into a signed 64-bit count of nanoseconds and raises
    [OverflowError] when it does not fit (an infinite product of floats
    included), then raises [ValueError] on a negative delay. *)
Definition sleep_refusal (secs : Q) : option Exception :=
  let ns := Qmult secs (inject_Z (10 ^ 9)) in
  if negb (Qle_bool (inject_Z (- 2 ^ 63)) ns)
     || Qle_bool (inject_Z (2 ^ 63)) ns
  then Some (OverflowError "timestamp too large to convert to C _PyTime_t")
  else if negb (Qle_bool 0 secs)
  then Some (ValueError "sleep length must be non-negative")
  else None.

(** [time.sleep(secs)] *)
Definition time_sleep (secs : Q) : M unit :=
  match sleep_refusal secs with
  | Some exc => raise exc
  | None => emit (Sleep secs)
  end.

(** The value of an expression that may raise. *)
Definition eval {A} (o : Outcome A) : M A := fun w => (o, w).

Section RetryCaller.
Variable config : Config.
Variable api : nat -> Endpoint -> Kwargs -> Response.

(** One turn of the loop of [api_call_with_retry]: [Some result] when the
    function returns, [None] when the loop goes on. *)
Definition attempt_once (endpoint_class : Endpoint) (params : Kwargs)
  (retries : nat) (base_delay : Q) (attempt : nat)
  : M (option EndpointObj) :=
  let endpoint_name := class_name endpoint_class in
  try_except
    (_increment_api_call_count ;;
     result <- instantiate api endpoint_class (with_timeout config params) ;;
     log utils_logger DEBUG "API call succeeded: %s (attempt %d)"
         [AStr endpoint_name; AInt (Z.of_nat (attempt + 1))] ;;
     ret (Some result))
    (fun exc =>
       power <- eval (float_pow (API_BACKOFF_MULTIPLIER config) attempt) ;;
       let wait := Qmult base_delay power in
       if attempt <? retries - 1 then
         log utils_logger WARNING
             "%s attempt %d/%d failed: %s - retrying in %.1fs"
             [AStr endpoint_name; AInt (Z.of_nat (attempt + 1));
              AInt (Z.of_nat retries); AStr (str_prefix 200 (exc_msg exc));
              ASecs wait] ;;
         time_sleep wait ;;
         ret None
       else
         log utils_logger ERROR "%s failed after %d attempts: %s"
             [AStr endpoint_name; AInt (Z.of_nat retries);
              AStr (str_prefix 300 (exc_msg exc))] ;;
         raise (failed_after endpoint_class retries)).

(** [for attempt in range: ...] followed by the final [raise]. *)
Fixpoint attempts (endpoint_class : Endpoint) (params : Kwargs)
  (retries : nat) (base_delay : Q) (range : list nat) : M EndpointObj :=
  match range with
  | [] =>
      raise (RuntimeError (class_name endpoint_class ++ " exhausted retries"))
  | attempt :: range' =>
      r <- attempt_once endpoint_class params retries base_delay attempt ;;
      match r with
      | Some result => ret result
      | None => attempts endpoint_class params retries base_delay range'
      end
  end.

Definition api_call_with_retry (endpoint_class : Endpoint) (params : Kwargs)
  (retries : nat) (base_delay : Q) : M EndpointObj :=
  attempts endpoint_class params retries base_delay (seq 0 retries).

End RetryCaller.

End cpython.

(* ===================================================================== *)
(** * Observations on a run *)
(* ===================================================================== *)

(** The request failed. *)
Definition is_raise (r : Response) : Prop := exists exc, r = Raises exc.

Definition is_log_from (logger : string) (lvl : Level) (e : Event) : bool :=
  match e with
  | Log lg l _ _ => String.eqb lg logger && level_eqb l lvl
  | _ => false
  end.

(** How many records of level [lvl] the logger [logger] has written. *)
Definition count_logs (logger : string) (lvl : Level) (t : list Event) : nat :=
  List.length (filter (is_log_from logger lvl) t).

(** [w'] is [w] after [n] attempted requests and nothing else that the
    counters, the logging level or the loggers other than that of [utils]
    can show. *)
Definition advanced (n : nat) (w w' : World) : Prop :=
  _api_call_count w' = _api_call_count w + n
  /\ sent w' = sent w + n
  /\ log_level w' = log_level w
  /\ forall lg lvl, lg <> utils_logger ->
       count_logs lg lvl (trace w') = count_logs lg lvl (trace w).

(** [w'] is [w] after [n] attempted requests during which the logger
    [logger] has reported [errs] errors. *)
Definition fetched (logger : string) (n errs : nat) (w w' : World) : Prop :=
  _api_call_count w' = _api_call_count w + n
  /\ sent w' = sent w + n
  /\ log_level w' = log_level w
  /\ count_logs logger ERROR (trace w')
     = count_logs logger ERROR (trace w) + errs.

(** A table the frame merger does not skip: it is not empty and it has the
    merge key. *)
Definition contributes (merge_key : string) (df : pd.DataFrame) : bool :=
  negb (pd.empty df) && pd.has_column merge_key df.

(** Apart from the key, no column of [left] is a column of [right]. *)
Definition disjoint_columns (on : string) (left right : pd.DataFrame)
  : Prop :=
  forall c, In c (pd.columns left) -> c <> on -> ~ In c (pd.columns right).

(** A table that can be joined on [on]: it has that column and its rows
    are complete. *)
Definition joinable (on : string) (f : pd.DataFrame) : Prop :=
  In on (pd.columns f) /\ pd.well_formed f.

(** What holds of the state [(frames, seen_cols)] of the frame merger once
    it has gone through [items]: the key is claimed; every other claimed
    column comes from a contributing table; the frames share nothing but
    the key; each frame is a contributing table cut down to some of its
    columns, all claimed, the key among them (and distinct when those of
    the table are); and every contributing table has its frame. *)
Definition collected (key : string)
  (items : list (string * option pd.DataFrame))
  (state : list pd.DataFrame * list string) : Prop :=
  In key (snd state)
  /\ (forall c, In c (snd state) ->
        c = key
        \/ exists mt df,
             In (mt, Some df) items /\ contributes key df = true
             /\ In c (pd.columns df))
  /\ ForallOrdPairs (disjoint_columns key) (fst state)
  /\ (forall f, In f (fst state) ->
        (forall c, In c (pd.columns f) -> In c (snd state))
        /\ exists mt df,
             In (mt, Some df) items /\ contributes key df = true
             /\ f = pd.select df (pd.columns f)
             /\ In key (pd.columns f)
             /\ incl (pd.columns f) (pd.columns df)
             /\ (NoDup (pd.columns df) -> NoDup (pd.columns f)))
  /\ (forall mt df,
        In (mt, Some df) items -> contributes key df = true ->
        exists cs, In key cs /\ In (pd.select df cs) (fst state)).

(** Where the row [r] of the merged table [merged] takes its cells under
    the columns of a source table [src]: from a row of [src] with the same
    key, or, when [src] has no such row, they are all missing. *)
Definition drawn_from (on : string) (merged src : pd.DataFrame)
  (r : list pd.cell) : Prop :=
  (exists a,
      In a (pd.rows src)
      /\ pd.get (pd.columns src) a on = pd.get (pd.columns merged) r on
      /\ forall c, In c (pd.columns src) ->
           pd.get (pd.columns merged) r c = pd.get (pd.columns src) a c)
  \/ (~ In (pd.get (pd.columns merged) r on) (pd.column src on)
      /\ forall c, In c (pd.columns src) -> c <> on ->
           pd.get (pd.columns merged) r c = None).

(** The rows of all the tables of a mapping, counted. *)
Definition total_rows (d : list (string * option pd.DataFrame)) : nat :=
  fold_right
    (fun kv acc =>
       match snd kv with Some df => pd.len df + acc | None => acc end)
    0 d.

(** Counters left as they were. *)
Definition same_counters (w w' : World) : Prop :=
  _api_call_count w' = _api_call_count w /\ sent w' = sent w.

(** A computation that only writes to the log. *)
Definition quiet (c : M unit) : Prop :=
  forall w, exists w', c w = (Ok tt, w') /\ same_counters w w'.

(** The seconds the process has slept, call by call. *)
Definition sleeps (t : list Event) : list Q :=
  flat_map (fun e => match e with Sleep secs => [secs] | _ => [] end) t.

(** The requests the process has sent, in order. *)
Definition requests (t : list Event) : list (Endpoint * Kwargs) :=
  flat_map (fun e => match e with Request ep params => [(ep, params)]
                               | _ => [] end) t.

(** The files the process has written, in order. *)
Definition files (t : list Event) : list (string * pd.DataFrame) :=
  flat_map (fun e => match e with WriteCsv path df => [(path, df)]
                               | _ => [] end) t.

(** [base_delay * (config.API_BACKOFF_MULTIPLIER ** attempt)] *)
Definition wait (config : Config) (base_delay : Q) (attempt : nat) : Q :=
  Qmult base_delay (Qpower (API_BACKOFF_MULTIPLIER config) (Z.of_nat attempt)).

(** What a step of the process has added to the counters, the requests
    and the sleeps, the files and the logging level being left alone. *)
Definition did (n : nat) (reqs : list (Endpoint * Kwargs)) (sl : list Q)
  (w w' : World) : Prop :=
  _api_call_count w' = _api_call_count w + n
  /\ sent w' = sent w + n
  /\ log_level w' = log_level w
  /\ requests (trace w') = requests (trace w) ++ reqs
  /\ sleeps (trace w') = sleeps (trace w) ++ sl
  /\ files (trace w') = files (trace w).

(** A table the frame merger reports as empty: [None], or a table with no
    row or no column. *)
Definition reported_empty (item : string * option pd.DataFrame) : bool :=
  match snd item with
  | None => true
  | Some df => pd.empty df
  end.

(** A table the frame merger passes over. *)
Definition passed_over (key : string) (item : string * option pd.DataFrame)
  : bool :=
  match snd item with
  | None => true
  | Some df => negb (contributes key df)
  end.

(** What also holds of the state [(frames, seen_cols)] of the frame merger
    once it has gone through [items]: a claimed column other than the key
    is in a frame, and the columns of the contributing tables are all
    claimed. *)
Definition claimed (key : string)
  (items : list (string * option pd.DataFrame))
  (state : list pd.DataFrame * list string) : Prop :=
  (forall c, In c (snd state) ->
     c = key \/ exists f, In f (fst state) /\ In c (pd.columns f))
  /\ (forall mt df c,
        In (mt, Some df) items -> contributes key df = true ->
        In c (pd.columns df) -> In c (snd state)).

(** What a part of the pipeline is allowed to do: a request must carry the
    pipeline's timeout after keyword arguments that [reqs] accepts for its
    endpoint, and a file must be one that [paths] accepts; logging and
    sleeping are always allowed. *)
Definition allowed (config : Config) (reqs : Endpoint -> Kwargs -> Prop)
  (paths : string -> Prop) (e : Event) : Prop :=
  match e with
  | Request ep params =>
      exists kwargs, params = with_timeout config kwargs /\ reqs ep kwargs
  | WriteCsv path _ => paths path
  | Log _ _ _ _ => True
  | Sleep _ => True
  end.

(** [w'] is [w] some events later, all of them [ok], the call counter
    having counted the requests among them. *)
Definition extends (ok : Event -> Prop) (w w' : World) : Prop :=
  exists t,
    trace w' = trace w ++ t
    /\ Forall ok t
    /\ _api_call_count w' = _api_call_count w + List.length (requests t)
    /\ sent w' = sent w + List.length (requests t).

(** A computation that always returns, with a value in [Q], having done
    [ok] things only. *)
Definition returns {A} (ok : Event -> Prop) (Q : A -> Prop) (c : M A)
  : Prop :=
  forall w, exists a w', c w = (Ok a, w') /\ extends ok w w' /\ Q a.

(** A computation that returns or raises, but does not end the process. *)
Definition may_raise {A} (ok : Event -> Prop) (Q : A -> Prop) (c : M A)
  : Prop :=
  forall w, exists out w',
    c w = (out, w') /\ extends ok w w'
    /\ match out with
       | Ok a => Q a
       | Raise _ => True
       | Exit _ => False
       end.

(** The file of the lineups of [gq] players. *)
Definition lineups_file (config : Config) (gq : Z) (season : string)
  : string :=
  DATA_DIR config ++ "/lineups_" ++ str_of_Z gq ++ "man_" ++ season ++ ".csv".

(** A computation that returns, raises or ends the process, with an
    outcome in [Q]. *)
Definition ends {A} (ok : Event -> Prop) (Q : Outcome A -> Prop) (c : M A)
  : Prop :=
  forall w, exists out w', c w = (out, w') /\ extends ok w w' /\ Q out.

(** The stems of the files of the supplementary sections. *)
Definition supplementary_stems : list string :=
  ["on_off"; "clutch"; "play_types"; "hustle_players"; "hustle_teams";
   "tracking"; "defense_tracking"; "estimated_metrics"].

(** [ok] lets the lineup section do its work: request the configured
    combinations and write the files of the configured group sizes. *)
Definition lineups_allowed (config : Config) (season : string)
  (ok : Event -> Prop) : Prop :=
  (forall season_type gq per_mode mt,
      In season_type (SEASON_TYPES config) ->
      In gq (GROUP_QUANTITIES config) ->
      In per_mode (PER_MODES config) ->
      In mt (MEASURE_TYPES config) ->
      ok (Request LeagueDashLineups
            (with_timeout config
               (lineups_params season season_type gq per_mode mt))))
  /\ (forall gq df,
        In gq (GROUP_QUANTITIES config) ->
        ok (WriteCsv (lineups_file config gq season) df)).

(** [ok] lets the supplementary sections do their work. *)
Definition supplementary_allowed (config : Config) (season : string)
  (ok : Event -> Prop) : Prop :=
  (forall ep kwargs,
      ep <> LeagueDashLineups ->
      ok (Request ep (with_timeout config kwargs)))
  /\ (forall stem df,
        In stem supplementary_stems ->
        ok (WriteCsv (data_file config stem season) df)).

(** A computation that always returns, having done [ok] things only. *)
Definition steady {A} (ok : Event -> Prop) (c : M A) : Prop :=
  returns ok (fun _ => True) c.

(** A computation that always returns, after at least [lo] and at most
    [hi] requests. *)
Definition spends {A} (lo hi : nat) (c : M A) : Prop :=
  forall w, exists a w',
    c w = (Ok a, w') /\ sent w + lo <= sent w' <= sent w + hi.

(** A computation that returns or raises, after at least [lo] and at most
    [hi] requests. *)
Definition may_spend {A} (lo hi : nat) (c : M A) : Prop :=
  forall w, exists out w',
    c w = (out, w') /\ sent w + lo <= sent w' <= sent w + hi
    /\ match out with Exit _ => False | _ => True end.

(** The file a fetcher has written when it returns the table [r], if
    any. *)
Definition saved (path : string) (r : option pd.DataFrame)
  : list (string * pd.DataFrame) :=
  match r with
  | Some df => [(path, df)]
  | None => []
  end.

(** A table that is returned has rows. *)
Definition has_rows (r : option pd.DataFrame) : Prop :=
  match r with
  | Some df => 0 < pd.len df
  | None => True
  end.

(** A fetcher that always returns, and has written the table it returns,
    and that table only, to [path]. *)
Definition writes_what_it_returns (path : string)
  (c : M (option pd.DataFrame)) : Prop :=
  forall w, exists r w',
    c w = (Ok r, w')
    /\ files (trace w') = files (trace w) ++ saved path r
    /\ has_rows r.

(** The table of one group size: the tables of its combinations put
    together and sorted. *)
Definition combined_lineups (frames : list pd.DataFrame) : pd.DataFrame :=
  let combined := pd.concat frames in
  let sort_cols :=
    filter (fun c => pd.has_column c combined)
           ["team"; "SEASON_TYPE"; "PER_MODE"; "MIN"] in
  if negb (is_nil sort_cols)
  then pd.sort_values combined sort_cols (lineup_ascending sort_cols)
  else combined.

(** The tables the lineup fetcher returns for the accumulated frames. *)
Definition lineup_results (accumulators : list (Z * list pd.DataFrame))
  : list (Z * pd.DataFrame) :=
  flat_map
    (fun item =>
       if is_nil (snd item) then []
       else [(fst item, combined_lineups (snd item))])
    accumulators.

(** What holds of the accumulators of the lineup fetcher: one entry per
    configured group size, holding tables that are not empty. *)
Definition accumulating (config : Config)
  (accumulators : list (Z * list pd.DataFrame)) : Prop :=
  incl (map fst accumulators) (GROUP_QUANTITIES config)
  /\ NoDup (map fst accumulators)
  /\ Forall (fun kv => Forall (fun f => pd.empty f = false) (snd kv))
            accumulators.

(** The rows of the files [fs], all together. *)
Definition written_rows (fs : list (string * pd.DataFrame)) : nat :=
  fold_right (fun f acc => pd.len (snd f) + acc) 0 fs.

(** A section whose verdict is what it has written: [_run_section] returns
    for it, the row count it reports is that of the files the section has
    written, and it reports success exactly when there is such a file. *)
Definition accounts_for_its_files (name : string) (fn : M PyObj) : Prop :=
  forall w, exists fs w',
    _run_section name fn w = (Ok (negb (is_nil fs), written_rows fs), w')
    /\ files (trace w') = files (trace w) ++ fs.

(** The error that ends the retry caller when the attempt [attempt] has
    failed, if any: that of the power, or that of [time.sleep] when a retry
    is to follow. *)
Definition wait_error (config : Config) (retries : nat) (base_delay : Q)
  (attempt : nat) : option Exception :=
  match cpython.float_pow (API_BACKOFF_MULTIPLIER config) attempt with
  | Ok power =>
      if attempt <? retries - 1
      then cpython.sleep_refusal (Qmult base_delay power)
      else None
  | Raise exc => Some exc
  | Exit _ => None
  end.

(** The tables among the values of a dict, or the items of a tuple. *)
Definition frames_among (vs : list PyObj) : list pd.DataFrame :=
  flat_map (fun v => match v with PyFrame df => [df] | _ => [] end) vs.

(** The callable neither calls [sys.exit] nor is interrupted: it returns or
    raises an [Exception]. *)
Definition never_exits {A} (fn : M A) : Prop :=
  forall w code w', fn w <> (Exit code, w').

(** A computation that, however it ends, has done [ok] things only. *)
Definition confined {A} (ok : Event -> Prop) (c : M A) : Prop :=
  ends ok (fun _ => True) c.

(** A fetcher that, when it returns, has written the table it returns,
    and that table only, to [path]. *)
Definition returned_is_written (path : string)
  (c : M (option pd.DataFrame)) : Prop :=
  forall w r w',
    c w = (Ok r, w') ->
    files (trace w') = files (trace w) ++ saved path r /\ has_rows r.

(** A section that, when it is reported as succeeded, has written files
    whose rows are the rows reported. *)
Definition success_is_on_disk (name : string) (fn : M PyObj) : Prop :=
  forall w rows w',
    _run_section name fn w = (Ok (true, rows), w') ->
    exists fs,
      files (trace w') = files (trace w) ++ fs
      /\ fs <> []
      /\ rows = written_rows fs.

(** A fetcher that, however it ends, has sent at most [config.API_RETRIES]
    requests for each of its [points] parameter points and, when it
    returns, at least one for each (none when the ceiling is 0). *)
Definition calls_within {A} (config : Config) (points : nat) (c : M A)
  : Prop :=
  forall w,
    sent (snd (c w)) <= sent w + points * API_RETRIES config
    /\ (forall r, fst (c w) = Ok r ->
          sent w + points * Nat.min 1 (API_RETRIES config)
          <= sent (snd (c w))).

(** The column [c] of [df], where it has one, holds integers and missing
    values only. *)
Definition holds_ints (c : string) (df : pd.DataFrame) : Prop :=
  forall r, In r (pd.rows df) ->
    match pd.get (pd.columns df) r c with
    | Some (pd.VInt _) | None => True
    | Some _ => False
    end.

(** The column [c] of [df], where it has one, holds strings and missing
    values only. *)
Definition holds_strings (c : string) (df : pd.DataFrame) : Prop :=
  forall r, In r (pd.rows df) ->
    match pd.get (pd.columns df) r c with
    | Some (pd.VStr _) | None => True
    | Some _ => False
    end.

(* ===================================================================== *)
(** * Scenarios *)
(* ===================================================================== *)

Definition connection_error : Exception :=
  mkException "ConnectionError" "service unreachable".

(** A service that never answers. *)
Definition api_down : nat -> Endpoint -> Kwargs -> Response :=
  fun _ _ _ => Raises connection_error.

(** A service whose first [n] requests fail and that then answers with one
    table [df]. *)
Definition api_flaky (n : nat) (df : pd.DataFrame)
  : nat -> Endpoint -> Kwargs -> Response :=
  fun k _ _ => if k <? n then Raises connection_error else Returns [df].

Definition int_cell (z : Z) : pd.cell := Some (pd.VInt z).

Fixpoint kwarg (name : string) (params : Kwargs) : option PyVal :=
  match params with
  | [] => None
  | (n, v) :: params' => if String.eqb n name then Some v else kwarg name params'
  end.

(** The Base table of the scenario: lineups 1, 2 and 3. *)
Definition base_lineups : pd.DataFrame :=
  pd.mkDataFrame ["GROUP_ID"; "MIN"]
    [[int_cell 1; int_cell 10]; [int_cell 2; int_cell 20];
     [int_cell 3; int_cell 30]].

(** The Advanced table of the scenario: lineups 2, 3 and 4. *)
Definition advanced_lineups : pd.DataFrame :=
  pd.mkDataFrame ["GROUP_ID"; "OFF_RATING"]
    [[int_cell 2; int_cell 102]; [int_cell 3; int_cell 103];
     [int_cell 4; int_cell 104]].

(** A service that answers the Base and Advanced measure types and fails
    on every other one. *)
Definition api_base_advanced : nat -> Endpoint -> Kwargs -> Response :=
  fun _ _ params =>
    match kwarg "measure_type_detailed_defense" params with
    | Some (PStr mt) =>
        if String.eqb mt "Base" then Returns [base_lineups]
        else if String.eqb mt "Advanced" then Returns [advanced_lineups]
        else Raises connection_error
    | _ => Raises connection_error
    end.

(** [config] with other measure types and another retry ceiling. *)
Definition with_measure_types (mts : list string) (retries : nat) : Config :=
  mkConfig (SEASON default_config) mts (GROUP_QUANTITIES default_config)
    (PER_MODES default_config) (SEASON_TYPES default_config)
    (PT_MEASURE_TYPES default_config) (SYNERGY_PLAY_TYPES default_config)
    (DEFENSE_CATEGORIES default_config) (DATA_DIR default_config)
    (API_TIMEOUT default_config) retries (API_BASE_DELAY default_config)
    (API_BACKOFF_MULTIPLIER default_config) (API_CALL_DELAY default_config)
    (API_ENDPOINT_DELAY default_config).

(** The value a run ends with, or [default] when it does not return. *)
Definition result_of {A} (default : A) (r : Outcome A * World) : A :=
  match fst r with
  | Ok a => a
  | _ => default
  end.

(** Tables [A] (columns [K, X]) and [B] (columns [K, X, Y]) that share the
    key 2. *)
Definition table_A : pd.DataFrame :=
  pd.mkDataFrame ["K"; "X"]
    [[int_cell 1; int_cell 10]; [int_cell 2; int_cell 20]].

Definition table_B : pd.DataFrame :=
  pd.mkDataFrame ["K"; "X"; "Y"]
    [[int_cell 2; int_cell 21; int_cell 22];
     [int_cell 3; int_cell 31; int_cell 32]].

(** Two tables of three rows each, all under the key 1. *)
Definition repeated_A : pd.DataFrame :=
  pd.mkDataFrame ["K"; "X"]
    [[int_cell 1; int_cell 11]; [int_cell 1; int_cell 12];
     [int_cell 1; int_cell 13]].

Definition repeated_B : pd.DataFrame :=
  pd.mkDataFrame ["K"; "Y"]
    [[int_cell 1; int_cell 21]; [int_cell 1; int_cell 22];
     [int_cell 1; int_cell 23]].

(** A table without the [GROUP_ID] column. *)
Definition keyless_table : pd.DataFrame :=
  pd.mkDataFrame ["TEAM_ID"; "W"] [[int_cell 7; int_cell 41]].

(** The scenario of the lineup merge: Base has the lineups 1, 2, 3 and
    Advanced the lineups 2, 3, 4. *)
Definition scenario_config : Config :=
  with_measure_types ["Base"; "Advanced"] 2.

Definition scenario_fetch
  : Outcome (list (string * option pd.DataFrame)) * World :=
  fetch_measure_frames scenario_config api_base_advanced "2025-26"
    "Regular Season" 5 "Totals" initial_world.

Definition scenario_frames : list (string * option pd.DataFrame) :=
  [("Base", Some base_lineups); ("Advanced", Some advanced_lineups)].

Definition scenario_merge : Outcome pd.DataFrame * World :=
  merge_measure_types scenario_frames "GROUP_ID" (snd scenario_fetch).

(** The tables a run of [lineup_combo] has accumulated. *)
Definition combo_frames
  (r : Outcome (list (Z * list pd.DataFrame) * nat) * World)
  : list pd.DataFrame :=
  match fst r with
  | Ok (accumulators, _) => flat_map snd accumulators
  | _ => []
  end.

(** The frame merger run on [A] then [B]. *)
Definition tables_AB_run : Outcome pd.DataFrame * World :=
  merge_measure_types [("A", Some table_A); ("B", Some table_B)] "K"
    initial_world.

(** The frame merger run on the tables with a repeated key. *)
Definition repeated_tables : list (string * option pd.DataFrame) :=
  [("A", Some repeated_A); ("B", Some repeated_B)].

Definition repeated_run : Outcome pd.DataFrame * World :=
  merge_measure_types repeated_tables "K" initial_world.

(** The frame merger run on Base and on a table without the key. *)
Definition keyless_run : Outcome pd.DataFrame * World :=
  merge_measure_types
    [("Base", Some base_lineups); ("Misc", Some keyless_table)] "GROUP_ID"
    initial_world.

(** A table with a few lineups. *)
Definition some_lineups : pd.DataFrame :=
  pd.mkDataFrame ["GROUP_ID"; "MIN"]
    [[int_cell 1; int_cell 10]; [int_cell 2; int_cell 20]].

(** The orchestrator run with both restricting flags, the service
    answering. *)
Definition both_flags_run : Outcome unit * World :=
  run default_config (api_flaky 0 some_lineups) []
      ["--lineups-only"; "--supplementary-only"] initial_world.

(** A lineup table without rows. *)
Definition no_lineups : pd.DataFrame :=
  pd.mkDataFrame ["GROUP_ID"; "MIN"] [].



(** A table without the [GROUP_ID] column, of two rows. *)
Definition keyless_pair : pd.DataFrame :=
  pd.mkDataFrame ["TEAM_ID"; "W"]
    [[int_cell 7; int_cell 41]; [int_cell 8; int_cell 39]].

(** Base and Advanced with a table without the key between them. *)
Definition mixed_tables : list (string * option pd.DataFrame) :=
  [("Base", Some base_lineups); ("Misc", Some keyless_pair);
   ("Advanced", Some advanced_lineups)].

Definition mixed_run : Outcome pd.DataFrame * World :=
  merge_measure_types mixed_tables "GROUP_ID" initial_world.

(** Two lineups of one team, the second without a name, and the team. *)
Definition named_lineups : pd.DataFrame :=
  pd.mkDataFrame ["GROUP_ID"; "GROUP_NAME"; "TEAM_ID"; "MIN"]
    [[int_cell 1; Some (pd.VStr "T. Young - C. Capela");
      int_cell 1610612737; int_cell 10];
     [int_cell 2; None; int_cell 1610612737; int_cell 20]].

Definition one_team : list (Z * string) :=
  [(1610612737%Z, "Atlanta Hawks")].

(** The lineup fetcher run for the Base measure type alone, on a service
    that answers every request with the same table. *)
Definition lineups_run : Outcome (list (Z * pd.DataFrame)) * World :=
  fetch_and_merge_lineups (with_measure_types ["Base"] 1)
    (api_flaky 0 some_lineups) [] "2025-26" initial_world.

(* ===================================================================== *)
(** * Properties of the retry caller *)
(* ===================================================================== *)

Lemma count_logs_app lg lvl t1 t2 :
  count_logs lg lvl (t1 ++ t2) = count_logs lg lvl t1 + count_logs lg lvl t2.
Proof. unfold count_logs. now rewrite filter_app, length_app. Qed.

Lemma count_logs_snoc lg lvl t e :
  count_logs lg lvl (t ++ [e])
  = count_logs lg lvl t + (if is_log_from lg lvl e then 1 else 0).
Proof.
  rewrite count_logs_app. f_equal. unfold count_logs. cbn [filter].
  destruct (is_log_from lg lvl e); reflexivity.
Qed.

Lemma advanced_refl w : advanced 0 w w.
Proof. unfold advanced. repeat split; auto. Qed.

Lemma advanced_trans n m w w1 w2 :
  advanced n w w1 -> advanced m w1 w2 -> advanced (n + m) w w2.
Proof.
  intros (A1 & A2 & A3 & A4) (B1 & B2 & B3 & B4).
  unfold advanced. repeat split; try lia; try congruence.
  intros lg lvl H. rewrite B4, A4; auto.
Qed.

Lemma log_run logger lvl msg args w :
  exists w', log logger lvl msg args w = (Ok tt, w')
    /\ _api_call_count w' = _api_call_count w
    /\ sent w' = sent w
    /\ log_level w' = log_level w
    /\ (trace w' = trace w \/ trace w' = trace w ++ [Log logger lvl msg args]).
Proof.
  unfold log, emit.
  destruct (level_rank (log_level w) <=? level_rank lvl);
    eexists; (split; [reflexivity|]); simpl; auto.
Qed.

Lemma log_error_run logger msg args w :
  exists w', log logger ERROR msg args w = (Ok tt, w')
    /\ _api_call_count w' = _api_call_count w
    /\ sent w' = sent w
    /\ log_level w' = log_level w
    /\ trace w' = trace w ++ [Log logger ERROR msg args].
Proof.
  unfold log, emit.
  assert (H : (level_rank (log_level w) <=? level_rank ERROR) = true).
  { destruct (log_level w); reflexivity. }
  rewrite H. eexists; (split; [reflexivity|]); simpl; auto.
Qed.

Lemma is_log_from_other lg lg' lvl lvl' msg args :
  lg <> lg' -> is_log_from lg lvl (Log lg' lvl' msg args) = false.
Proof.
  intros H. simpl. destruct (String.eqb_spec lg' lg); [congruence | reflexivity].
Qed.

Lemma utils_log_advanced lvl msg args w :
  exists w', log utils_logger lvl msg args w = (Ok tt, w') /\ advanced 0 w w'.
Proof.
  destruct (log_run utils_logger lvl msg args w) as (w' & E & H1 & H2 & H3 & H4).
  exists w'. split; [exact E|]. unfold advanced. repeat split; try lia; auto.
  intros lg l Hlg. destruct H4 as [-> | ->]; [reflexivity|].
  rewrite count_logs_snoc, is_log_from_other by exact Hlg. lia.
Qed.

Lemma sleep_advanced secs w :
  exists w', time_sleep secs w = (Ok tt, w') /\ advanced 0 w w'.
Proof.
  unfold time_sleep, emit. eexists; split; [reflexivity|].
  unfold advanced; simpl. repeat split; try lia.
  intros. rewrite count_logs_snoc. cbn [is_log_from]. lia.
Qed.

Section RetryCaller.
Variable config : Config.
Variable api : nat -> Endpoint -> Kwargs -> Response.

Lemma attempt_once_returns ep params retries base_delay attempt w obj :
  api (sent w) ep (with_timeout config params) = Returns obj ->
  exists w',
    attempt_once config api ep params retries base_delay attempt w
    = (Ok (Some obj), w')
    /\ advanced 1 w w'.
Proof.
  intros H.
  unfold attempt_once, try_except, bind, _increment_api_call_count, instantiate.
  cbn [sent _api_call_count log_level trace]. rewrite H.
  match goal with
  | |- context [log ?a ?b ?c ?d ?w0] =>
      destruct (utils_log_advanced b c d w0) as (w' & E & A)
  end.
  rewrite E. eexists; split; [reflexivity|].
  destruct A as (A1 & A2 & A3 & A4). cbn in A1, A2, A3.
  unfold advanced. repeat split; try lia; auto.
  intros lg lvl Hlg. rewrite A4 by exact Hlg. cbn [trace].
  rewrite count_logs_snoc. cbn [is_log_from]. lia.
Qed.

Lemma attempt_once_retries ep params retries base_delay attempt w :
  is_raise (api (sent w) ep (with_timeout config params)) ->
  attempt < retries - 1 ->
  exists w',
    attempt_once config api ep params retries base_delay attempt w
    = (Ok None, w')
    /\ advanced 1 w w'.
Proof.
  intros [exc H] Hlt.
  unfold attempt_once, try_except, bind, _increment_api_call_count, instantiate.
  cbn [sent _api_call_count log_level trace]. rewrite H.
  apply Nat.ltb_lt in Hlt. rewrite Hlt.
  match goal with
  | |- context [log ?a ?b ?c ?d ?w0] =>
      destruct (utils_log_advanced b c d w0) as (w1 & E & A)
  end.
  rewrite E.
  match goal with
  | |- context [time_sleep ?q ?w0] =>
      destruct (sleep_advanced q w0) as (w2 & E2 & A2)
  end.
  rewrite E2. eexists; split; [reflexivity|].
  pose proof (advanced_trans A A2) as (B1 & B2 & B3 & B4).
  cbn in B1, B2, B3.
  unfold advanced. repeat split; try lia; auto.
  intros lg lvl Hlg. rewrite B4 by exact Hlg. cbn [trace].
  rewrite count_logs_snoc. cbn [is_log_from]. lia.
Qed.

Lemma attempt_once_gives_up ep params retries base_delay attempt w :
  is_raise (api (sent w) ep (with_timeout config params)) ->
  ~ attempt < retries - 1 ->
  exists w',
    attempt_once config api ep params retries base_delay attempt w
    = (Raise (failed_after ep retries), w')
    /\ advanced 1 w w'.
Proof.
  intros [exc H] Hlt.
  unfold attempt_once, try_except, bind, _increment_api_call_count, instantiate.
  cbn [sent _api_call_count log_level trace]. rewrite H.
  apply Nat.ltb_nlt in Hlt. rewrite Hlt.
  match goal with
  | |- context [log ?a ?b ?c ?d ?w0] =>
      destruct (utils_log_advanced b c d w0) as (w1 & E & A)
  end.
  rewrite E. eexists; split; [reflexivity|].
  destruct A as (B1 & B2 & B3 & B4).
  cbn in B1, B2, B3.
  unfold advanced. repeat split; try lia; auto.
  intros lg lvl Hlg. rewrite B4 by exact Hlg. cbn [trace].
  rewrite count_logs_snoc. cbn [is_log_from]. lia.
Qed.

Lemma attempts_succeed ep params retries base_delay obj :
  forall k a w m,
    (forall i, i < k ->
       is_raise (api (sent w + i) ep (with_timeout config params))) ->
    api (sent w + k) ep (with_timeout config params) = Returns obj ->
    a + k < retries ->
    exists w',
      attempts config api ep params retries base_delay (seq a (S k + m)) w
      = (Ok obj, w')
      /\ advanced (S k) w w'.
Proof.
  induction k as [|k IH]; intros a w m Hfail Hok Hlt.
  - rewrite Nat.add_0_r in Hok.
    destruct (@attempt_once_returns ep params retries base_delay a w obj Hok)
      as (w' & E & A).
    exists w'. split; [|exact A].
    cbn [seq Nat.add attempts]. unfold bind. rewrite E. reflexivity.
  - assert (H0 : is_raise (api (sent w) ep (with_timeout config params))).
    { specialize (Hfail 0). rewrite Nat.add_0_r in Hfail. apply Hfail. lia. }
    destruct (@attempt_once_retries ep params retries base_delay a w H0)
      as (w1 & E & A); [lia|].
    assert (S1 : sent w1 = sent w + 1) by apply A.
    destruct (IH (S a) w1 m) as (w' & E' & A').
    + intros i Hi. rewrite S1.
      replace (sent w + 1 + i) with (sent w + S i) by lia.
      apply Hfail. lia.
    + rewrite S1. replace (sent w + 1 + k) with (sent w + S k) by lia.
      exact Hok.
    + lia.
    + exists w'. split.
      * change (seq a (S (S k) + m)) with (a :: seq (S a) (S k + m)).
        cbn [attempts]. unfold bind at 1. rewrite E. exact E'.
      * apply (advanced_trans A A').
Qed.

Lemma attempts_fail ep params retries base_delay :
  forall m a w,
    a + S m = retries ->
    (forall i, i < S m ->
       is_raise (api (sent w + i) ep (with_timeout config params))) ->
    exists w',
      attempts config api ep params retries base_delay (seq a (S m)) w
      = (Raise (failed_after ep retries), w')
      /\ advanced (S m) w w'.
Proof.
  induction m as [|m IH]; intros a w Ha Hfail.
  - assert (H0 : is_raise (api (sent w) ep (with_timeout config params))).
    { specialize (Hfail 0). rewrite Nat.add_0_r in Hfail. apply Hfail. lia. }
    destruct (@attempt_once_gives_up ep params retries base_delay a w H0)
      as (w' & E & A); [lia|].
    exists w'. split; [|exact A].
    cbn [seq attempts]. unfold bind. rewrite E. reflexivity.
  - assert (H0 : is_raise (api (sent w) ep (with_timeout config params))).
    { specialize (Hfail 0). rewrite Nat.add_0_r in Hfail. apply Hfail. lia. }
    destruct (@attempt_once_retries ep params retries base_delay a w H0)
      as (w1 & E & A); [lia|].
    assert (S1 : sent w1 = sent w + 1) by apply A.
    destruct (IH (S a) w1) as (w' & E' & A').
    + lia.
    + intros i Hi. rewrite S1.
      replace (sent w + 1 + i) with (sent w + S i) by lia.
      apply Hfail. lia.
    + exists w'. split.
      * change (seq a (S (S m))) with (a :: seq (S a) (S m)).
        cbn [attempts]. unfold bind at 1. rewrite E. exact E'.
      * apply (advanced_trans A A').
Qed.

End RetryCaller.

(* ===================================================================== *)
(** * Properties of the health check and of the orchestrator *)
(* ===================================================================== *)

Section HealthCheck.
Variable config : Config.
Variable api : nat -> Endpoint -> Kwargs -> Response.

Lemma response_cases (r : Response) : is_raise r \/ exists obj, r = Returns obj.
Proof. destruct r; [left; eexists; reflexivity | right; eexists; reflexivity]. Qed.

Lemma attempts_outcome ep params retries base_delay :
  forall m a w,
    a + m = retries ->
    (exists obj w' n,
        attempts config api ep params retries base_delay (seq a m) w
        = (Ok obj, w')
        /\ 1 <= n <= m /\ advanced n w w')
    \/ (exists exc w',
        attempts config api ep params retries base_delay (seq a m) w
        = (Raise exc, w')
        /\ advanced m w w').
Proof.
  induction m as [|m IH]; intros a w Ha.
  - right. eexists; eexists. split; [reflexivity | apply advanced_refl].
  - destruct (response_cases (api (sent w) ep (with_timeout config params)))
      as [Hr | [obj Hobj]].
    + destruct m as [|m].
      * destruct (@attempt_once_gives_up config api ep params retries
                    base_delay a w Hr) as (w' & E & A); [lia|].
        right. exists (failed_after ep retries), w'. split; [|exact A].
        cbn [seq attempts]. unfold bind. rewrite E. reflexivity.
      * destruct (@attempt_once_retries config api ep params retries
                    base_delay a w Hr) as (w1 & E & A); [lia|].
        change (seq a (S (S m))) with (a :: seq (S a) (S m)).
        cbn [attempts]. unfold bind. rewrite E.
        destruct (IH (S a) w1) as [(obj & w' & n & E' & Hn & A')
                                  | (exc & w' & E' & A')]; [lia | |].
        -- left. exists obj, w', (1 + n). split; [exact E'|].
           split; [lia | apply (advanced_trans A A')].
        -- right. exists exc, w'. split; [exact E'|].
           apply (advanced_trans A A').
    + destruct (@attempt_once_returns config api ep params retries base_delay
                  a w obj Hobj) as (w' & E & A).
      left. exists obj, w', 1. split; [|split; [lia | exact A]].
      cbn [seq attempts]. unfold bind. rewrite E. reflexivity.
Qed.

(** The retry caller either returns an endpoint object after between 1 and
    [retries] attempts, or raises after [retries] attempts; it never ends
    the process. *)
Lemma retry_outcome ep params retries base_delay w :
  (exists obj w' n,
      api_call_with_retry config api ep params retries base_delay w
      = (Ok obj, w')
      /\ 1 <= n <= retries /\ advanced n w w')
  \/ (exists exc w',
      api_call_with_retry config api ep params retries base_delay w
      = (Raise exc, w')
      /\ advanced retries w w').
Proof. apply attempts_outcome. reflexivity. Qed.

Ltac run_log :=
  match goal with
  | |- context [log ?a ?b ?c ?d ?w0] =>
      let w1 := fresh "w" in
      let E := fresh "E" in
      let H1 := fresh "Hc" in
      let H2 := fresh "Hs" in
      let H3 := fresh "Hl" in
      let H4 := fresh "Ht" in
      destruct (log_run a b c d w0) as (w1 & E & H1 & H2 & H3 & H4);
      rewrite E; clear E
  end.

(** C10: the health check returns [True] whenever the wrapped call comes
    back from the retry caller without raising, whatever the response
    holds (no table, or a first table with zero rows), and [False] exactly
    when the retry caller raises. *)
Theorem health_check_reports_reachability (season : string) (w : World) :
  match api_call_with_retry config api LeagueDashLineups
          (health_check_params season) 3 (2 # 1)
          (snd (health_check_banner season w)) with
  | (Ok _, _) => fst (health_check config api season w) = Ok true
  | (Raise _, _) => fst (health_check config api season w) = Ok false
  | (Exit _, _) => False
  end.
Proof.
  unfold health_check, health_check_banner, try_except, bind.
  destruct (log_run utils_logger INFO
              "Running API health check for season %s ..." [AStr season] w)
    as (w0 & E0 & _).
  rewrite E0. cbn [snd].
  destruct (retry_outcome LeagueDashLineups (health_check_params season) 3
              (2 # 1) w0)
    as [(obj & w1 & n & E & _) | (exc & w1 & E & _)]; rewrite E.
  - destruct obj as [|df0 dfs].
    + run_log. reflexivity.
    + destruct (0 <? pd.len df0); run_log; reflexivity.
  - run_log. reflexivity.
Qed.

(** The health check always returns, after between 1 and 3 attempted
    requests. *)
Lemma health_check_run (season : string) (w : World) :
  exists b w' n,
    health_check config api season w = (Ok b, w')
    /\ 1 <= n <= 3
    /\ _api_call_count w' = _api_call_count w + n
    /\ sent w' = sent w + n.
Proof.
  unfold health_check, health_check_banner, try_except, bind.
  run_log.
  destruct (retry_outcome LeagueDashLineups (health_check_params season) 3
              (2 # 1) w0)
    as [(obj & w1 & n & E & Hn & A) | (exc & w1 & E & A)]; rewrite E;
    destruct A as (A1 & A2 & _).
  - destruct obj as [|df0 dfs].
    + run_log. exists true, w2, n. repeat split; try lia; reflexivity.
    + destruct (0 <? pd.len df0); run_log; exists true, w2, n;
        repeat split; try lia; reflexivity.
  - run_log. exists false, w2, 3. repeat split; try lia; reflexivity.
Qed.

End HealthCheck.

Lemma same_counters_refl w : same_counters w w.
Proof. split; reflexivity. Qed.

Lemma same_counters_trans w w1 w2 :
  same_counters w w1 -> same_counters w1 w2 -> same_counters w w2.
Proof. unfold same_counters. intuition congruence. Qed.

Lemma log_same logger lvl msg args w :
  exists w', log logger lvl msg args w = (Ok tt, w') /\ same_counters w w'.
Proof.
  destruct (log_run logger lvl msg args w) as (w' & E & H1 & H2 & _).
  exists w'. split; [exact E | split; assumption].
Qed.

Ltac log_step :=
  match goal with
  | |- context [log ?a ?b ?c ?d ?w0] =>
      let w1 := fresh "w" in
      let E := fresh "E" in
      let H := fresh "Hsame" in
      destruct (log_same a b c d w0) as (w1 & E & H);
      rewrite E; clear E
  end.

Lemma quiet_ret : quiet (ret tt).
Proof. intros w. exists w. split; [reflexivity | apply same_counters_refl]. Qed.

Lemma quiet_log logger lvl msg args : quiet (log logger lvl msg args).
Proof. intros w. apply log_same. Qed.

Lemma quiet_seq (c k : M unit) : quiet c -> quiet k -> quiet (c ;; k).
Proof.
  intros Hc Hk w. unfold bind.
  destruct (Hc w) as (w1 & E1 & S1). rewrite E1.
  destruct (Hk w1) as (w2 & E2 & S2). exists w2.
  split; [exact E2 | exact (same_counters_trans S1 S2)].
Qed.

Lemma quiet_if (b : bool) (c k : M unit) :
  quiet c -> quiet k -> quiet (if b then c else k).
Proof. destruct b; auto. Qed.

Lemma quiet_for_each (A : Type) (xs : list A) (f : A -> M unit) :
  (forall x, quiet (f x)) -> quiet (for_each xs f).
Proof.
  intros Hf. induction xs as [|x xs IH].
  - apply quiet_ret.
  - cbn [for_each]. apply quiet_seq; auto.
Qed.

Lemma quiet_get_count (k : nat -> M unit) :
  (forall n, quiet (k n)) -> quiet (n <- get_api_call_count ;; k n).
Proof. intros Hk w. unfold bind, get_api_call_count. apply Hk. Qed.

Lemma print_summary_quiet results files_written :
  quiet (_print_summary results files_written).
Proof.
  unfold _print_summary. apply quiet_get_count. intros api_calls.
  repeat first
    [ apply quiet_log | apply quiet_ret | apply quiet_seq | apply quiet_if
    | apply quiet_for_each; intros ? ].
Qed.

Section Orchestrator.
Variable config : Config.
Variable api : nat -> Endpoint -> Kwargs -> Response.
Variable teams : list (Z * string).

(** C7: the section runner catches any exception the fetcher raises and
    reports [(False, 0)]; otherwise it reports the rows of the result - of
    the table, or of the tables of the dict or tuple - with [True] when
    there is at least one row and [False] when there is none; so no
    exception leaves [_run_section]. *)
Theorem run_section_classifies (name : string) (fn : M PyObj) (w : World) :
  never_exits fn ->
  exists success rows w',
    _run_section name fn w = (Ok (success, rows), w')
    /\ success = (1 <=? rows)
    /\ match fn (snd (section_banner name w)) with
       | (Ok PyNone, _) => rows = 0
       | (Ok (PyFrame df), _) => rows = pd.len df
       | (Ok (PyDict values), _) =>
           rows = list_sum (map pd.len (frames_among values))
       | (Ok (PyTuple items), _) =>
           rows = list_sum (map pd.len (frames_among items))
       | (Ok (PyOther (Some length)), _) => rows = length
       | (Ok (PyOther None), _) => rows = 0
       | (Raise _, _) => rows = 0
       | (Exit _, _) => False
       end.
Proof.
  intros Hfn.
  assert (Hsum : forall vs,
            sum_frame_lens vs = list_sum (map pd.len (frames_among vs))).
  { induction vs as [|v vs IH]; [reflexivity|].
    unfold frames_among in *. cbn [sum_frame_lens fold_right flat_map].
    fold (sum_frame_lens vs). rewrite map_app, list_sum_app, <- IH.
    destruct v; cbn [map list_sum fold_right]; lia. }
  unfold _run_section, try_except, bind.
  destruct (@quiet_seq _ _ (quiet_log main_logger INFO banner [])
              (@quiet_seq _ _
                 (quiet_log main_logger INFO "SECTION: %s" [AStr name])
                 (quiet_log main_logger INFO banner [])) w)
    as (w0 & E0 & _).
  fold (section_banner name) in E0. rewrite E0. cbn [snd].
  destruct (fn w0) as [[result | exc | code] w1] eqn:Efn.
  - cbv zeta.
    assert (Hn : match result with
                 | PyNone => count_rows result = 0
                 | PyFrame df => count_rows result = pd.len df
                 | PyDict values =>
                     count_rows result
                     = list_sum (map pd.len (frames_among values))
                 | PyTuple items =>
                     count_rows result
                     = list_sum (map pd.len (frames_among items))
                 | PyOther (Some length) => count_rows result = length
                 | PyOther None => count_rows result = 0
                 end).
    { destruct result as [|df|vs|vs|[n|]]; cbn [count_rows];
        try reflexivity; apply Hsum. }
    destruct (count_rows result) as [|n]; cbn [Nat.ltb Nat.leb];
      log_step; cbv beta iota delta [ret].
    + exists false, 0, w2. split; [reflexivity|]. split; [reflexivity|].
      destruct result as [|df|vs|vs|[m|]]; exact Hn.
    + exists true, (S n), w2. split; [reflexivity|]. split; [reflexivity|].
      destruct result as [|df|vs|vs|[m|]]; exact Hn.
  - log_step. exists false, 0, w2. repeat split; reflexivity.
  - exfalso. exact (Hfn _ _ _ Efn).
Qed.

(** C2, as the code has it: with both [--lineups-only] and
    [--supplementary-only] set nothing is rejected.  The orchestrator runs
    the health check, which attempts between 1 and 3 requests, so the call
    counter ends above 0; it then runs no section and ends normally, or
    with status 1 when the run is a dry run and the service is
    unreachable. *)
Theorem both_flags_run_only_the_health_check
  (argv : list string) (args : Namespace) (w : World) :
  parse_known argv (mkNamespace (SEASON config) false false false false)
  = Ok args ->
  lineups_only args = true ->
  supplementary_only args = true ->
  exists out w' n,
    run config api teams argv w = (out, w')
    /\ (out = Ok tt \/ (dry_run args = true /\ out = Exit 1))
    /\ 1 <= n <= 3
    /\ _api_call_count w' = _api_call_count w + n
    /\ sent w' = sent w + n.
Proof.
  intros Hparse Hl Hs.
  unfold run, _parse_args. unfold bind at 1. rewrite Hparse.
  unfold bind at 1, setup_logging.
  set (w1 := mkWorld _ _ _ _).
  assert (S1 : same_counters w w1) by (split; reflexivity).
  clearbody w1. revert S1.
  unfold bind. repeat log_step.
  destruct (health_check_run config api (season args) w3)
    as (b & w4 & n & E & Hn & Hc & Hsent).
  rewrite E. intros S1.
  assert (S3 : same_counters w w3).
  { repeat (eapply same_counters_trans; [eassumption|]).
    apply same_counters_refl. }
  destruct S3 as [C3 T3].
  rewrite Hl, Hs. cbn [negb].
  destruct b; cbn [negb]; destruct (dry_run args) eqn:Hdry;
    cbv beta iota delta [ret fst snd].
  - log_step. exists (Ok tt), w5, n. destruct Hsame2.
    repeat split; auto; lia.
  - destruct (print_summary_quiet [] [] w4) as (w5 & E5 & [C5 T5]).
    rewrite E5. exists (Ok tt), w5, n.
    repeat split; auto; lia.
  - log_step. unfold sys_exit. exists (Exit 1), w5, n. destruct Hsame2.
    repeat split; auto; lia.
  - log_step.
    destruct (print_summary_quiet [] [] w5) as (w6 & E6 & [C6 T6]).
    rewrite E6. exists (Ok tt), w6, n. destruct Hsame2.
    repeat split; auto; lia.
Qed.

End Orchestrator.

Lemma run_section_classifies_witness :
  exists success rows w',
    _run_section "Clutch" (raise connection_error) initial_world
    = (Ok (success, rows), w')
    /\ success = (1 <=? rows)
    /\ rows = 0.
Proof.
  apply (@run_section_classifies "Clutch" (raise connection_error)
           initial_world).
  intros w code w' H. discriminate H.
Defined.

(** With both flags set and the service answering, the run is not
    rejected: it ends normally, and the health check has made a call. *)
Lemma both_flags_are_not_rejected :
  fst both_flags_run = Ok tt
  /\ _api_call_count (snd both_flags_run) = 1
  /\ ~ (exists exc,
          fst both_flags_run = Raise exc
          /\ _api_call_count (snd both_flags_run) = 0).
Proof.
  vm_compute. split; [reflexivity|]. split; [reflexivity|].
  intros (exc & H & _). discriminate H.
Qed.

Lemma both_flags_run_only_the_health_check_witness :
  exists out w' n,
    run default_config api_down []
        ["--lineups-only"; "--supplementary-only"] initial_world
    = (out, w')
    /\ (out = Ok tt \/ (false = true /\ out = Exit 1))
    /\ 1 <= n <= 3
    /\ _api_call_count w' = 0 + n
    /\ sent w' = 0 + n.
Proof.
  apply (@both_flags_run_only_the_health_check default_config api_down []
           ["--lineups-only"; "--supplementary-only"]
           (mkNamespace "2025-26" true true false false) initial_world);
    reflexivity.
Defined.

(* ===================================================================== *)
(** * Properties of the category fetchers *)
(* ===================================================================== *)

Lemma fetched_trans lg n m e f w w1 w2 :
  fetched lg n e w w1 -> fetched lg m f w1 w2 ->
  fetched lg (n + m) (e + f) w w2.
Proof.
  intros (A1 & A2 & A3 & A4) (B1 & B2 & B3 & B4).
  unfold fetched. repeat split; try lia; congruence.
Qed.

Lemma advanced_fetched lg n w w' :
  lg <> utils_logger -> advanced n w w' -> fetched lg n 0 w w'.
Proof.
  intros Hlg (A1 & A2 & A3 & A4). unfold fetched.
  repeat split; try assumption. rewrite A4 by exact Hlg. lia.
Qed.

Lemma log_fetched lg' logger lvl msg args w :
  lvl <> ERROR ->
  exists w', log logger lvl msg args w = (Ok tt, w') /\ fetched lg' 0 0 w w'.
Proof.
  intros Hlvl.
  destruct (log_run logger lvl msg args w) as (w' & E & H1 & H2 & H3 & H4).
  exists w'. split; [exact E|]. unfold fetched.
  repeat split; try lia; try assumption.
  destruct H4 as [-> | ->]; [lia|].
  rewrite count_logs_snoc. cbn [is_log_from].
  replace (level_eqb lvl ERROR) with false
    by (destruct lvl; try reflexivity; congruence).
  rewrite andb_false_r. lia.
Qed.

Lemma log_error_fetched logger msg args w :
  exists w',
    log logger ERROR msg args w = (Ok tt, w') /\ fetched logger 0 1 w w'.
Proof.
  destruct (log_error_run logger msg args w) as (w' & E & H1 & H2 & H3 & H4).
  exists w'. split; [exact E|]. unfold fetched.
  repeat split; try lia; try assumption.
  rewrite H4, count_logs_snoc. cbn [is_log_from].
  rewrite String.eqb_refl. reflexivity.
Qed.

Lemma sleep_fetched lg secs w :
  exists w', time_sleep secs w = (Ok tt, w') /\ fetched lg 0 0 w w'.
Proof.
  unfold time_sleep, emit. eexists; split; [reflexivity|].
  unfold fetched; simpl. repeat split; try lia.
  rewrite count_logs_snoc. cbn [is_log_from]. lia.
Qed.

Section Fetchers.
Variable config : Config.
Variable api : nat -> Endpoint -> Kwargs -> Response.
Variable teams : list (Z * string).

(** When every attempt fails the retry caller raises, also for a ceiling
    of 0. *)
Lemma retry_all_fail ep params retries base_delay w :
  (forall i, i < retries ->
     is_raise (api (sent w + i) ep (with_timeout config params))) ->
  exists exc w',
    api_call_with_retry config api ep params retries base_delay w
    = (Raise exc, w')
    /\ advanced retries w w'.
Proof.
  intros Hfail. destruct retries as [|m].
  - eexists; eexists. split; [reflexivity | apply advanced_refl].
  - destruct (@attempts_fail config api ep params (S m) base_delay m 0 w)
      as (w' & E & A); [lia | exact Hfail |].
    eexists; exists w'. split; [exact E | exact A].
Qed.

Lemma retry_first_success ep params retries base_delay w k obj :
  k < retries ->
  (forall i, i < k ->
     is_raise (api (sent w + i) ep (with_timeout config params))) ->
  api (sent w + k) ep (with_timeout config params) = Returns obj ->
  exists w',
    api_call_with_retry config api ep params retries base_delay w
    = (Ok obj, w')
    /\ advanced (S k) w w'.
Proof.
  intros Hk Hfail Hok.
  destruct (@attempts_succeed config api ep params retries base_delay obj k 0
              w (retries - S k) Hfail Hok) as (w' & E & A); [lia|].
  replace (S k + (retries - S k)) with retries in E by lia.
  exists w'. split; [exact E | exact A].
Qed.

Lemma lineups_not_utils : lineups_logger <> utils_logger.
Proof. discriminate. Qed.

Lemma supp_not_utils : supp_logger <> utils_logger.
Proof. discriminate. Qed.

Ltac fetched_log lg :=
  match goal with
  | |- context [log ?a ERROR ?c ?d ?w0] =>
      let w1 := fresh "w" in
      let E := fresh "E" in
      let F := fresh "F" in
      destruct (log_error_fetched a c d w0) as (w1 & E & F);
      rewrite E; clear E
  | |- context [log ?a ?b ?c ?d ?w0] =>
      let w1 := fresh "w" in
      let E := fresh "E" in
      let F := fresh "F" in
      destruct (@log_fetched lg a b c d w0) as (w1 & E & F);
      [discriminate|]; rewrite E; clear E
  end.

Ltac fetched_chain :=
  repeat match goal with
         | F1 : fetched ?lg _ _ ?w ?w1, F2 : fetched ?lg _ _ ?w1 ?w2 |- _ =>
             pose proof (fetched_trans F1 F2); clear F1 F2
         end.

Ltac fetched_done :=
  fetched_chain;
  match goal with
  | H : fetched ?lg ?n ?e ?w ?w' |- fetched ?lg ?n' ?e' ?w ?w' =>
      replace n' with n by lia; replace e' with e by lia; exact H
  end.

(** A lineup point whose every attempt fails is skipped: no data, one
    error from the fetcher. *)
Lemma fetch_all_lineups_skips season season_type gq per_mode mt w :
  (forall i, i < API_RETRIES config ->
     is_raise
       (api (sent w + i) LeagueDashLineups
            (with_timeout config
               (lineups_params season season_type gq per_mode mt)))) ->
  exists w',
    fetch_all_lineups config api season season_type gq per_mode mt w
    = (Ok None, w')
    /\ fetched lineups_logger (API_RETRIES config) 1 w w'.
Proof.
  intros Hfail. unfold fetch_all_lineups, try_except, bind.
  fetched_log lineups_logger.
  assert (S0 : sent w0 = sent w) by (destruct F as (_ & F2 & _); lia).
  rewrite <- S0 in Hfail.
  destruct (@retry_all_fail LeagueDashLineups
              (lineups_params season season_type gq per_mode mt)
              (API_RETRIES config) (API_BASE_DELAY config) w0 Hfail)
    as (exc & w1 & E & A).
  rewrite E. apply (advanced_fetched lineups_not_utils) in A.
  fetched_log lineups_logger.
  exists w2. split; [reflexivity|].
  fetched_done.
Qed.

Lemma fetch_all_lineups_returns season season_type gq per_mode mt w k df rest :
  k < API_RETRIES config ->
  (forall i, i < k ->
     is_raise
       (api (sent w + i) LeagueDashLineups
            (with_timeout config
               (lineups_params season season_type gq per_mode mt)))) ->
  api (sent w + k) LeagueDashLineups
      (with_timeout config (lineups_params season season_type gq per_mode mt))
  = Returns (df :: rest) ->
  pd.empty df = false ->
  exists w',
    fetch_all_lineups config api season season_type gq per_mode mt w
    = (Ok (Some df), w')
    /\ fetched lineups_logger (S k) 0 w w'.
Proof.
  intros Hk Hfail Hok Hdf. unfold fetch_all_lineups, try_except, bind.
  fetched_log lineups_logger.
  assert (S0 : sent w0 = sent w) by (destruct F as (_ & F2 & _); lia).
  rewrite <- S0 in Hfail, Hok.
  destruct (@retry_first_success LeagueDashLineups
              (lineups_params season season_type gq per_mode mt)
              (API_RETRIES config) (API_BASE_DELAY config) w0 k (df :: rest)
              Hk Hfail Hok)
    as (w1 & E & A).
  rewrite E. apply (advanced_fetched lineups_not_utils) in A.
  rewrite Hdf. cbn [negb].
  fetched_log lineups_logger.
  exists w2. split; [reflexivity|].
  fetched_done.
Qed.

Lemma measure_frames_step_skips season season_type gq per_mode mt mf w :
  (forall i, i < API_RETRIES config ->
     is_raise
       (api (sent w + i) LeagueDashLineups
            (with_timeout config
               (lineups_params season season_type gq per_mode mt)))) ->
  exists w',
    measure_frames_step config api season season_type gq per_mode mt mf w
    = (Ok mf, w')
    /\ fetched lineups_logger (API_RETRIES config) 1 w w'.
Proof.
  intros Hfail. unfold measure_frames_step, pace, bind.
  destruct (@fetch_all_lineups_skips season season_type gq per_mode mt w Hfail)
    as (w1 & E & F1).
  rewrite E.
  destruct (sleep_fetched lineups_logger (API_CALL_DELAY config) w1)
    as (w2 & E2 & F2).
  rewrite E2. exists w2. split; [reflexivity | fetched_done].
Qed.

Lemma measure_frames_step_keeps season season_type gq per_mode mt mf w k df
  rest :
  k < API_RETRIES config ->
  (forall i, i < k ->
     is_raise
       (api (sent w + i) LeagueDashLineups
            (with_timeout config
               (lineups_params season season_type gq per_mode mt)))) ->
  api (sent w + k) LeagueDashLineups
      (with_timeout config (lineups_params season season_type gq per_mode mt))
  = Returns (df :: rest) ->
  pd.empty df = false ->
  exists w',
    measure_frames_step config api season season_type gq per_mode mt mf w
    = (Ok (dict_set String.eqb mt (Some df) mf), w')
    /\ fetched lineups_logger (S k) 0 w w'.
Proof.
  intros Hk Hfail Hok Hdf. unfold measure_frames_step, pace, bind.
  destruct (@fetch_all_lineups_returns season season_type gq per_mode mt w k
              df rest Hk Hfail Hok Hdf) as (w1 & E & F1).
  rewrite E, Hdf. cbn [negb].
  destruct (sleep_fetched lineups_logger (API_CALL_DELAY config) w1)
    as (w2 & E2 & F2).
  rewrite E2. exists w2. split; [reflexivity | fetched_done].
Qed.

(** C6: a parameter point whose fetch raises is caught and logged by the
    fetcher, contributes no data and does not stop the sweep.  With three
    measure types of which only the second raises (whatever the number of
    retries the other two need), the accumulated output holds exactly the
    tables of the first and the third, and the fetcher has logged exactly
    one error. *)
Theorem lineup_sweep_skips_the_failed_point
  (season season_type : string) (gq : Z) (per_mode m1 m2 m3 : string)
  (d1 d3 : pd.DataFrame) (rest1 rest3 : list pd.DataFrame) (k1 k3 : nat)
  (w : World) :
  MEASURE_TYPES config = [m1; m2; m3] ->
  m1 <> m3 ->
  pd.empty d1 = false ->
  pd.empty d3 = false ->
  (* point 1 succeeds at its attempt [k1] *)
  k1 < API_RETRIES config ->
  (forall i, i < k1 ->
     is_raise
       (api (sent w + i) LeagueDashLineups
            (with_timeout config
               (lineups_params season season_type gq per_mode m1)))) ->
  api (sent w + k1) LeagueDashLineups
      (with_timeout config (lineups_params season season_type gq per_mode m1))
  = Returns (d1 :: rest1) ->
  (* point 2 fails at every attempt *)
  (forall i, i < API_RETRIES config ->
     is_raise
       (api (sent w + (S k1 + i)) LeagueDashLineups
            (with_timeout config
               (lineups_params season season_type gq per_mode m2)))) ->
  (* point 3 succeeds at its attempt [k3] *)
  k3 < API_RETRIES config ->
  (forall i, i < k3 ->
     is_raise
       (api (sent w + (S k1 + API_RETRIES config + i)) LeagueDashLineups
            (with_timeout config
               (lineups_params season season_type gq per_mode m3)))) ->
  api (sent w + (S k1 + API_RETRIES config + k3)) LeagueDashLineups
      (with_timeout config (lineups_params season season_type gq per_mode m3))
  = Returns (d3 :: rest3) ->
  exists w',
    fetch_measure_frames config api season season_type gq per_mode w
    = (Ok [(m1, Some d1); (m3, Some d3)], w')
    /\ count_logs lineups_logger ERROR (trace w')
       = count_logs lineups_logger ERROR (trace w) + 1.
Proof.
  intros HM Hne Hd1 Hd3 Hk1 Hf1 Hok1 Hf2 Hk3 Hf3 Hok3.
  unfold fetch_measure_frames. rewrite HM. cbn [for_fold]. unfold bind.
  destruct (@measure_frames_step_keeps season season_type gq per_mode m1 []
              w k1 d1 rest1 Hk1 Hf1 Hok1 Hd1) as (w1 & E1 & F1).
  rewrite E1.
  assert (S1 : sent w1 = sent w + S k1) by apply F1.
  destruct (@measure_frames_step_skips season season_type gq per_mode m2
              (dict_set String.eqb m1 (Some d1) []) w1) as (w2 & E2 & F2).
  { intros i Hi. rewrite S1. replace (sent w + S k1 + i)
      with (sent w + (S k1 + i)) by lia. apply Hf2. exact Hi. }
  rewrite E2.
  assert (S2 : sent w2 = sent w + S k1 + API_RETRIES config)
    by (destruct F2 as (_ & F2 & _); lia).
  destruct (@measure_frames_step_keeps season season_type gq per_mode m3
              (dict_set String.eqb m1 (Some d1) []) w2 k3 d3 rest3)
    as (w3 & E3 & F3).
  { exact Hk3. }
  { intros i Hi. rewrite S2.
    replace (sent w + S k1 + API_RETRIES config + i)
      with (sent w + (S k1 + API_RETRIES config + i)) by lia.
    apply Hf3. exact Hi. }
  { rewrite S2.
    replace (sent w + S k1 + API_RETRIES config + k3)
      with (sent w + (S k1 + API_RETRIES config + k3)) by lia.
    exact Hok3. }
  { exact Hd3. }
  rewrite E3. exists w3. split.
  - unfold ret. cbn [dict_set].
    destruct (String.eqb_spec m3 m1) as [Heq | _]; [congruence | reflexivity].
  - pose proof (fetched_trans (fetched_trans F1 F2) F3) as (_ & _ & _ & H).
    rewrite H. lia.
Qed.

Lemma for_fold_total (A St : Type) (body : A -> St -> M St) :
  (forall x s w, exists s' w', body x s w = (Ok s', w')) ->
  forall xs s w, exists s' w', for_fold xs body s w = (Ok s', w').
Proof.
  intros Hbody. induction xs as [|x xs IH]; intros s w.
  - exists s, w. reflexivity.
  - cbn [for_fold]. unfold bind.
    destruct (Hbody x s w) as (s1 & w1 & E). rewrite E. apply IH.
Qed.

Lemma fetch_all_lineups_total season season_type gq per_mode mt w :
  exists r w',
    fetch_all_lineups config api season season_type gq per_mode mt w
    = (Ok r, w').
Proof.
  unfold fetch_all_lineups, try_except, bind. log_step.
  destruct (retry_outcome config api LeagueDashLineups
              (lineups_params season season_type gq per_mode mt)
              (API_RETRIES config) (API_BASE_DELAY config) w0)
    as [(obj & w1 & n & E & _) | (exc & w1 & E & _)]; rewrite E.
  - destruct obj as [|df dfs]; [|destruct (negb (pd.empty df))];
      log_step; eexists; eexists; reflexivity.
  - log_step. eexists; eexists; reflexivity.
Qed.

(** Whatever the service does, the loop over the measure types runs to
    its end. *)
Lemma fetch_measure_frames_never_aborts season season_type gq per_mode w :
  exists frames w',
    fetch_measure_frames config api season season_type gq per_mode w
    = (Ok frames, w').
Proof.
  unfold fetch_measure_frames. apply for_fold_total. clear w.
  intros mt mf w. unfold measure_frames_step, pace, time_sleep, emit, bind.
  destruct (fetch_all_lineups_total season season_type gq per_mode mt w)
    as (r & w1 & E).
  rewrite E. eexists; eexists; reflexivity.
Qed.

(** A play-type point whose every attempt fails is skipped: [frames] is
    left as it was and the fetcher logs one error. *)
Lemma play_type_point_skips season season_type play_type tg pt frames idx w :
  (forall i, i < API_RETRIES config ->
     is_raise
       (api (sent w + i) SynergyPlayTypes
            (with_timeout config
               (play_type_params season season_type play_type tg (fst pt))))) ->
  exists w',
    play_type_point config api season season_type play_type tg pt
                    (frames, idx) w
    = (Ok (frames, idx + 1), w')
    /\ fetched supp_logger (API_RETRIES config) 1 w w'.
Proof.
  intros Hfail. unfold play_type_point, api_call, try_except, pace, bind.
  cbn [fst snd].
  fetched_log supp_logger.
  assert (S0 : sent w0 = sent w) by (destruct F as (_ & F2 & _); lia).
  rewrite <- S0 in Hfail.
  destruct (@retry_all_fail SynergyPlayTypes
              (play_type_params season season_type play_type tg (fst pt))
              (API_RETRIES config) (API_BASE_DELAY config) w0 Hfail)
    as (exc & w1 & E & A).
  rewrite E. apply (advanced_fetched supp_not_utils) in A.
  fetched_log supp_logger. cbv beta iota delta [ret].
  destruct (sleep_fetched supp_logger (API_CALL_DELAY config) w2)
    as (w3 & E3 & F3).
  rewrite E3. exists w3. split; [reflexivity | fetched_done].
Qed.

Lemma play_type_point_total season season_type play_type tg pt state w :
  exists state' w',
    play_type_point config api season season_type play_type tg pt state w
    = (Ok state', w').
Proof.
  unfold play_type_point, api_call, try_except, pace, time_sleep, emit, bind.
  log_step.
  destruct (retry_outcome config api SynergyPlayTypes
              (play_type_params season season_type play_type tg (fst pt))
              (API_RETRIES config) (API_BASE_DELAY config) w0)
    as [(obj & w1 & n & E & _) | (exc & w1 & E & _)]; rewrite E.
  - destruct (tagged_first obj _); eexists; eexists; reflexivity.
  - log_step. eexists; eexists; reflexivity.
Qed.

(** Whatever the service does, the play-type sweep runs to its end. *)
Lemma play_type_sweep_never_aborts season state w :
  exists state' w',
    play_type_sweep config api season state w = (Ok state', w').
Proof.
  unfold play_type_sweep. revert state w.
  apply for_fold_total. intros season_type.
  apply for_fold_total. intros play_type.
  apply for_fold_total. intros tg.
  apply for_fold_total. intros pt state w.
  apply play_type_point_total.
Qed.

End Fetchers.

Lemma lineup_sweep_skips_the_failed_point_witness :
  exists w',
    fetch_measure_frames (with_measure_types ["Base"; "Misc"; "Advanced"] 2)
      api_base_advanced "2025-26" "Regular Season" 5 "Totals" initial_world
    = (Ok [("Base", Some base_lineups); ("Advanced", Some advanced_lineups)],
       w')
    /\ count_logs lineups_logger ERROR (trace w')
       = count_logs lineups_logger ERROR (trace initial_world) + 1.
Proof.
  apply (@lineup_sweep_skips_the_failed_point
           (with_measure_types ["Base"; "Misc"; "Advanced"] 2)
           api_base_advanced "2025-26" "Regular Season" 5%Z "Totals"
           "Base" "Misc" "Advanced" base_lineups advanced_lineups [] [] 0 0
           initial_world).
  - reflexivity.
  - discriminate.
  - reflexivity.
  - reflexivity.
  - simpl. lia.
  - intros i Hi. lia.
  - reflexivity.
  - intros i _. exists connection_error. reflexivity.
  - simpl. lia.
  - intros i Hi. lia.
  - reflexivity.
Defined.

(* ===================================================================== *)
(** * Properties of the frame merger *)
(* ===================================================================== *)

(** ** Facts about the DataFrame operations *)

Module pd_facts.
Import pd.

Lemma mem_In c cs : existsb (String.eqb c) cs = true <-> In c cs.
Proof.
  rewrite existsb_exists. split.
  - intros (x & Hx & E). apply String.eqb_eq in E. now subst.
  - intros H. exists c. split; [exact H | apply String.eqb_refl].
Qed.

Lemma mem_not_In c cs : existsb (String.eqb c) cs = false <-> ~ In c cs.
Proof.
  rewrite <- mem_In. destruct (existsb (String.eqb c) cs); split; congruence.
Qed.

Lemma col_index_None c cols : col_index c cols = None <-> ~ In c cols.
Proof.
  induction cols as [|c' cols IH]; cbn [col_index].
  - split; [intros _ [] | reflexivity].
  - destruct (String.eqb_spec c c') as [-> | Hne].
    + split; [discriminate | intros H; exfalso; apply H; now left].
    + destruct (col_index c cols) eqn:E; cbn [option_map].
      * split; [discriminate|]. intros H. exfalso. apply H. right.
        destruct (in_dec string_dec c cols) as [Hin | Hnin]; [exact Hin|].
        apply IH in Hnin. discriminate.
      * split; [|reflexivity]. intros _ [H | H]; [congruence|].
        now apply IH in H.
Qed.

Lemma col_index_Some c cols :
  In c cols -> exists i, col_index c cols = Some i /\ i < List.length cols
                         /\ nth i cols EmptyString = c.
Proof.
  induction cols as [|c' cols IH]; [intros []|]. intros H.
  cbn [col_index]. destruct (String.eqb_spec c c') as [-> | Hne].
  - exists 0. cbn. repeat split; lia.
  - destruct H as [H | H]; [congruence|].
    destruct (IH H) as (i & E & Hi & Hn). rewrite E. exists (S i).
    cbn. repeat split; [lia | exact Hn].
Qed.

Lemma col_index_app_l c cols1 cols2 :
  In c cols1 -> col_index c (cols1 ++ cols2) = col_index c cols1.
Proof.
  induction cols1 as [|c' cols1 IH]; [intros []|]. intros H.
  cbn [col_index app]. destruct (String.eqb_spec c c') as [-> | Hne].
  - reflexivity.
  - destruct H as [H | H]; [congruence|]. now rewrite IH.
Qed.

Lemma col_index_app_r c cols1 cols2 :
  ~ In c cols1 ->
  col_index c (cols1 ++ cols2)
  = option_map (fun i => List.length cols1 + i) (col_index c cols2).
Proof.
  induction cols1 as [|c' cols1 IH]; intros H; cbn [col_index app].
  - destruct (col_index c cols2); reflexivity.
  - destruct (String.eqb_spec c c') as [-> | Hne].
    + exfalso. apply H. now left.
    + rewrite IH by (intros Hin; apply H; now right).
      destruct (col_index c cols2); reflexivity.
Qed.

(** Reading a row made of two parts. *)
Lemma get_app_l c cols1 cols2 (r1 r2 : list cell) :
  In c cols1 -> List.length r1 = List.length cols1 ->
  get (cols1 ++ cols2) (r1 ++ r2) c = get cols1 r1 c.
Proof.
  intros Hin Hlen. unfold get. rewrite col_index_app_l by exact Hin.
  destruct (col_index_Some c cols1 Hin) as (i & E & Hi & _). rewrite E.
  apply app_nth1. lia.
Qed.

Lemma get_app_r c cols1 cols2 (r1 r2 : list cell) :
  ~ In c cols1 -> List.length r1 = List.length cols1 ->
  get (cols1 ++ cols2) (r1 ++ r2) c = get cols2 r2 c.
Proof.
  intros Hin Hlen. unfold get. rewrite col_index_app_r by exact Hin.
  destruct (col_index c cols2) as [i|]; cbn [option_map]; [|reflexivity].
  rewrite app_nth2 by lia. f_equal. lia.
Qed.

(** Reading a row computed column by column. *)
Lemma get_map c cols (f : string -> cell) :
  get cols (map f cols) c = if existsb (String.eqb c) cols then f c else None.
Proof.
  unfold get. destruct (existsb (String.eqb c) cols) eqn:E.
  - apply mem_In in E. destruct (col_index_Some c cols E) as (i & Ei & Hi & Hn).
    rewrite Ei. rewrite nth_indep with (d' := f EmptyString)
      by (rewrite length_map; exact Hi).
    rewrite map_nth. now rewrite Hn.
  - apply mem_not_In in E. apply col_index_None in E. now rewrite E.
Qed.

Lemma value_eqb_eq a b : value_eqb a b = true <-> a = b.
Proof.
  destruct a, b; cbn [value_eqb]; try (split; [discriminate | congruence]).
  - rewrite Z.eqb_eq. split; congruence.
  - rewrite String.eqb_eq. split; congruence.
  - destruct (list_eq_dec string_dec l l0); split; congruence.
Qed.

Lemma cell_eqb_eq a b : cell_eqb a b = true <-> a = b.
Proof.
  destruct a, b; cbn [cell_eqb]; try (split; [discriminate | congruence]).
  - rewrite value_eqb_eq. split; congruence.
  - split; reflexivity.
Qed.

Lemma cell_eqb_refl a : cell_eqb a a = true.
Proof. now apply cell_eqb_eq. Qed.

(** ** Sorting and deduplication *)

Lemma insert_perm (A : Type) (leb : A -> A -> bool) x l :
  Permutation (insert leb x l) (x :: l).
Proof.
  induction l as [|y l IH]; cbn [insert]; [reflexivity|].
  destruct (leb x y); [reflexivity|].
  rewrite IH. apply perm_swap.
Qed.

Lemma sort_perm (A : Type) (leb : A -> A -> bool) l :
  Permutation (sort leb l) l.
Proof.
  induction l as [|x l IH]; cbn [sort fold_right]; [reflexivity|].
  fold (sort leb l). rewrite insert_perm. now rewrite IH.
Qed.

Lemma dedup_In x l : In x (dedup l) <-> In x l.
Proof.
  induction l as [|y l IH]; cbn [dedup]; [reflexivity|].
  cbn [In]. rewrite filter_In, IH.
  destruct (cell_eqb y x) eqn:E.
  - apply cell_eqb_eq in E. subst. cbn. intuition discriminate.
  - cbn. intuition.
Qed.

Lemma dedup_NoDup l : NoDup (dedup l).
Proof.
  induction l as [|y l IH]; cbn [dedup]; constructor.
  - rewrite filter_In. intros [_ H]. now rewrite cell_eqb_refl in H.
  - now apply NoDup_filter.
Qed.

Lemma In_outer_keys L R on k :
  In k (outer_keys L R on) <-> In k (column L on) \/ In k (column R on).
Proof.
  unfold outer_keys. rewrite <- in_app_iff.
  rewrite <- (dedup_In k (column L on ++ column R on)).
  split; apply Permutation_in;
    [apply sort_perm | symmetry; apply sort_perm].
Qed.

Lemma NoDup_outer_keys L R on : NoDup (outer_keys L R on).
Proof.
  unfold outer_keys. eapply Permutation_NoDup.
  - symmetry. apply sort_perm.
  - apply dedup_NoDup.
Qed.

Lemma In_rows_with cols on k rs r :
  In r (rows_with cols on k rs) <-> In r rs /\ get cols r on = k.
Proof. unfold rows_with. now rewrite filter_In, cell_eqb_eq. Qed.

Lemma rows_with_nil cols on k rs :
  rows_with cols on k rs = [] <-> ~ In k (map (fun r => get cols r on) rs).
Proof.
  split.
  - intros E Hin. apply in_map_iff in Hin. destruct Hin as (r & Hk & Hr).
    assert (H : In r (rows_with cols on k rs)) by now apply In_rows_with.
    rewrite E in H. exact H.
  - intros H. destruct (rows_with cols on k rs) as [|r l] eqn:E; [reflexivity|].
    exfalso. apply H.
    assert (Hr : In r (rows_with cols on k rs)) by (rewrite E; now left).
    apply In_rows_with in Hr. apply in_map_iff. exists r. now split.
Qed.

(** The three kinds of rows of an outer join. *)
Lemma outer_rows_for_inv L R on k r :
  In r (outer_rows_for L R on k) ->
  (exists l r',
      In l (rows L) /\ get (columns L) l on = k
      /\ In r' (rows R) /\ get (columns R) r' on = k
      /\ r = join_rows (columns R) on l r')
  \/ (exists l,
        In l (rows L) /\ get (columns L) l on = k
        /\ ~ In k (column R on)
        /\ r = pad_right (columns R) on l)
  \/ (exists r',
        In r' (rows R) /\ get (columns R) r' on = k
        /\ ~ In k (column L on)
        /\ r = pad_left (columns L) (columns R) on r').
Proof.
  unfold outer_rows_for.
  destruct (rows_with (columns L) on k (rows L)) as [|l0 ls] eqn:EL;
    destruct (rows_with (columns R) on k (rows R)) as [|r0 rs] eqn:ER.
  - intros [].
  - intros H. right; right. apply in_map_iff in H. destruct H as (r' & <- & Hr').
    rewrite <- ER in Hr'. apply In_rows_with in Hr'. destruct Hr' as [Hr' Hk].
    exists r'. repeat split; try assumption.
    now apply rows_with_nil in EL.
  - intros H. right; left. apply in_map_iff in H. destruct H as (l & <- & Hl).
    rewrite <- EL in Hl. apply In_rows_with in Hl. destruct Hl as [Hl Hk].
    exists l. repeat split; try assumption.
    now apply rows_with_nil in ER.
  - intros H. left. apply in_flat_map in H. destruct H as (l & Hl & H).
    apply in_map_iff in H. destruct H as (r' & <- & Hr').
    rewrite <- EL in Hl. rewrite <- ER in Hr'.
    apply In_rows_with in Hl. apply In_rows_with in Hr'.
    exists l, r'. intuition.
Qed.

(** Every key of either side has a row in the join. *)
Lemma outer_rows_for_nonempty L R on k :
  In k (column L on) \/ In k (column R on) ->
  outer_rows_for L R on k <> [].
Proof.
  intros H. unfold outer_rows_for.
  destruct (rows_with (columns L) on k (rows L)) as [|l0 ls] eqn:EL;
    destruct (rows_with (columns R) on k (rows R)) as [|r0 rs] eqn:ER;
    cbn; try discriminate.
  apply rows_with_nil in EL. apply rows_with_nil in ER.
  destruct H; contradiction.
Qed.

Lemma In_non_key on cols c : In c (non_key on cols) <-> In c cols /\ c <> on.
Proof.
  unfold non_key. rewrite filter_In.
  destruct (String.eqb_spec c on); cbn; intuition congruence.
Qed.

(** ** One outer join of tables that share only their key *)

Section OuterJoin.
Variables (L R : DataFrame) (on : string).
Hypothesis key_left : In on (columns L).
Hypothesis wf_left : well_formed L.
Hypothesis disjoint : disjoint_columns on L R.

Lemma merge_columns_disjoint :
  columns (merge L R on outer) = columns L ++ non_key on (columns R).
Proof.
  cbn [merge columns]. unfold merge_columns. f_equal.
  - rewrite <- (map_id (columns L)) at 2. apply map_ext_in.
    intros c Hc. unfold suffixed, overlaps.
    destruct (String.eqb_spec c on) as [-> | Hne]; [reflexivity|].
    cbn [negb andb].
    replace (existsb (String.eqb c) (columns R)) with false; [reflexivity|].
    symmetry. apply mem_not_In. now apply disjoint.
  - rewrite <- (map_id (non_key on (columns R))) at 2. apply map_ext_in.
    intros c Hc. apply In_non_key in Hc. destruct Hc as [Hc Hne].
    unfold suffixed, overlaps.
    replace (existsb (String.eqb c) (columns L)) with false;
      [now rewrite andb_false_r|].
    symmetry. apply mem_not_In. intros HL. now apply (disjoint HL).
Qed.

Lemma row_length_left l : In l (rows L) -> List.length l = List.length (columns L).
Proof. intros H. unfold well_formed in wf_left. rewrite Forall_forall in wf_left. auto. Qed.

Lemma right_not_left c : In c (columns R) -> c <> on -> ~ In c (columns L).
Proof. intros HR Hne HL. now apply (disjoint HL). Qed.

Let mcols := columns L ++ non_key on (columns R).

Lemma get_join_left l r' c :
  In l (rows L) -> In c (columns L) ->
  get mcols (join_rows (columns R) on l r') c = get (columns L) l c.
Proof.
  intros Hl Hc. unfold join_rows, mcols.
  apply get_app_l; [exact Hc | now apply row_length_left].
Qed.

Lemma get_join_right l r' c :
  In l (rows L) -> In c (columns R) -> c <> on ->
  get mcols (join_rows (columns R) on l r') c = get (columns R) r' c.
Proof.
  intros Hl Hc Hne. unfold join_rows, mcols.
  rewrite get_app_r; [| now apply right_not_left | now apply row_length_left].
  rewrite get_map.
  replace (existsb (String.eqb c) (non_key on (columns R))) with true;
    [reflexivity|].
  symmetry. apply mem_In. now apply In_non_key.
Qed.

Lemma get_pad_right_left l c :
  In l (rows L) -> In c (columns L) ->
  get mcols (pad_right (columns R) on l) c = get (columns L) l c.
Proof.
  intros Hl Hc. unfold pad_right, mcols.
  apply get_app_l; [exact Hc | now apply row_length_left].
Qed.

Lemma get_pad_right_right l c :
  In l (rows L) -> In c (columns R) -> c <> on ->
  get mcols (pad_right (columns R) on l) c = None.
Proof.
  intros Hl Hc Hne. unfold pad_right, mcols.
  rewrite get_app_r; [| now apply right_not_left | now apply row_length_left].
  rewrite get_map. now destruct (existsb _ _).
Qed.

Lemma get_pad_left_left r' c :
  In c (columns L) ->
  get mcols (pad_left (columns L) (columns R) on r') c
  = if String.eqb c on then get (columns R) r' on else None.
Proof.
  intros Hc. unfold pad_left, mcols.
  rewrite get_app_l; [| exact Hc | now rewrite length_map].
  rewrite get_map. apply mem_In in Hc. now rewrite Hc.
Qed.

Lemma get_pad_left_right r' c :
  In c (columns R) -> c <> on ->
  get mcols (pad_left (columns L) (columns R) on r') c = get (columns R) r' c.
Proof.
  intros Hc Hne. unfold pad_left, mcols.
  rewrite get_app_r; [| now apply right_not_left | now rewrite length_map].
  rewrite get_map.
  replace (existsb (String.eqb c) (non_key on (columns R))) with true;
    [reflexivity|].
  symmetry. apply mem_In. now apply In_non_key.
Qed.

(** A row of the join under the key [k] has the key [k]. *)
Lemma outer_row_key k r :
  In r (outer_rows_for L R on k) -> get mcols r on = k.
Proof.
  intros H. apply outer_rows_for_inv in H.
  destruct H as [(l & r' & Hl & Hk & _ & _ & ->)
                | [(l & Hl & Hk & _ & ->) | (r' & Hr' & Hk & _ & ->)]].
  - now rewrite get_join_left.
  - now rewrite get_pad_right_left.
  - rewrite get_pad_left_left by exact key_left. now rewrite String.eqb_refl.
Qed.

Lemma In_rows_merge r :
  In r (rows (merge L R on outer)) <->
  exists k, (In k (column L on) \/ In k (column R on))
            /\ In r (outer_rows_for L R on k).
Proof.
  cbn [merge rows]. rewrite in_flat_map.
  split; intros (k & Hk & Hr); exists k; (split; [|exact Hr]);
    now apply In_outer_keys.
Qed.

Lemma merge_well_formed : well_formed (merge L R on outer).
Proof.
  unfold well_formed. rewrite Forall_forall. intros r Hr.
  rewrite merge_columns_disjoint. apply In_rows_merge in Hr.
  destruct Hr as (k & _ & Hr). apply outer_rows_for_inv in Hr.
  rewrite length_app.
  destruct Hr as [(l & r' & Hl & _ & _ & _ & ->)
                 | [(l & Hl & _ & _ & ->) | (r' & _ & _ & _ & ->)]].
  - unfold join_rows. rewrite length_app, length_map.
    now rewrite row_length_left.
  - unfold pad_right. rewrite length_app, length_map.
    now rewrite row_length_left.
  - unfold pad_left. now rewrite length_app, !length_map.
Qed.

(** The keys of the join are the keys of either side. *)
Lemma merge_keys k :
  In k (column (merge L R on outer) on) <->
  In k (column L on) \/ In k (column R on).
Proof.
  unfold column at 1. rewrite in_map_iff, merge_columns_disjoint.
  fold mcols. split.
  - intros (r & Hk & Hr). apply In_rows_merge in Hr.
    destruct Hr as (k' & Hk' & Hr). apply outer_row_key in Hr. congruence.
  - intros Hk. pose proof (@outer_rows_for_nonempty L R on k Hk) as Hne.
    destruct (outer_rows_for L R on k) as [|r rs] eqn:E; [congruence|].
    assert (Hr : In r (outer_rows_for L R on k)) by (rewrite E; now left).
    exists r. split; [now apply outer_row_key|].
    apply In_rows_merge. now exists k.
Qed.

(** Every row of the join is drawn from the left table... *)
Lemma merge_drawn_from_left r :
  In r (rows (merge L R on outer)) -> drawn_from on (merge L R on outer) L r.
Proof.
  intros Hr. unfold drawn_from. rewrite merge_columns_disjoint. fold mcols.
  apply In_rows_merge in Hr. destruct Hr as (k & _ & Hr).
  pose proof (@outer_row_key _ _ Hr) as Hkey. rewrite Hkey.
  apply outer_rows_for_inv in Hr.
  destruct Hr as [(l & r' & Hl & Hk & _ & _ & ->)
                 | [(l & Hl & Hk & _ & ->) | (r' & Hr' & Hk & Hno & ->)]].
  - left. exists l. repeat split; try assumption.
    intros c Hc. now apply get_join_left.
  - left. exists l. repeat split; try assumption.
    intros c Hc. now apply get_pad_right_left.
  - right. split; [exact Hno|]. intros c Hc Hne.
    rewrite get_pad_left_left by exact Hc.
    destruct (String.eqb_spec c on); [congruence | reflexivity].
Qed.

(** ... and from the right one. *)
Lemma merge_drawn_from_right r :
  In r (rows (merge L R on outer)) -> drawn_from on (merge L R on outer) R r.
Proof.
  intros Hr. unfold drawn_from. rewrite merge_columns_disjoint. fold mcols.
  apply In_rows_merge in Hr. destruct Hr as (k & _ & Hr).
  pose proof (@outer_row_key _ _ Hr) as Hkey. rewrite Hkey.
  apply outer_rows_for_inv in Hr.
  destruct Hr as [(l & r' & Hl & Hk & Hr' & Hk' & ->)
                 | [(l & Hl & Hk & Hno & ->) | (r' & Hr' & Hk & Hno & ->)]].
  - left. exists r'. repeat split; try assumption.
    intros c Hc. destruct (string_dec c on) as [-> | Hne].
    + rewrite Hkey. now symmetry.
    + now apply get_join_right.
  - right. split; [exact Hno|]. intros c Hc Hne.
    now apply get_pad_right_right.
  - left. exists r'. repeat split; try assumption.
    intros c Hc. destruct (string_dec c on) as [-> | Hne].
    + rewrite Hkey. now symmetry.
    + now apply get_pad_left_right.
Qed.

End OuterJoin.

End pd_facts.

(** ** Joins of tables with unique keys, and chains of joins *)

Module merger_facts.
Import pd pd_facts.

Lemma rows_with_unique cols on k rs :
  NoDup (map (fun r => get cols r on) rs) ->
  List.length (rows_with cols on k rs) <= 1.
Proof.
  unfold rows_with. induction rs as [|r rs IH]; cbn [map filter];
    [cbn; lia|].
  intros H. inversion H as [|? ? Hnin Hnd]; subst.
  destruct (cell_eqb (get cols r on) k) eqn:E.
  - apply cell_eqb_eq in E. subst k. cbn [List.length].
    assert (Hz : filter (fun r0 => cell_eqb (get cols r0 on) (get cols r on)) rs
                 = []).
    { apply (proj2 (rows_with_nil cols on (get cols r on) rs)). exact Hnin. }
    rewrite Hz. cbn. lia.
  - now apply IH.
Qed.

Lemma flat_map_singletons (A : Type) (f : A -> list A) (l : list A) :
  (forall x, In x l -> f x = [x]) -> flat_map f l = l.
Proof.
  induction l as [|x l IH]; intros H; cbn [flat_map]; [reflexivity|].
  rewrite (H x) by now left. cbn. f_equal. apply IH.
  intros y Hy. apply H. now right.
Qed.

Lemma map_flat_map (A B C : Type) (f : B -> C) (g : A -> list B) l :
  map f (flat_map g l) = flat_map (fun x => map f (g x)) l.
Proof.
  induction l as [|x l IH]; cbn [flat_map map]; [reflexivity|].
  now rewrite map_app, IH.
Qed.

Section UniqueKeys.
Variables (L R : DataFrame) (on : string).
Hypothesis key_left : In on (columns L).
Hypothesis wf_left : well_formed L.
Hypothesis disjoint : disjoint_columns on L R.
Hypothesis unique_left : NoDup (column L on).
Hypothesis unique_right : NoDup (column R on).

Lemma outer_rows_for_one k :
  In k (column L on) \/ In k (column R on) ->
  List.length (outer_rows_for L R on k) = 1.
Proof.
  intros Hk. pose proof (@outer_rows_for_nonempty L R on k Hk) as Hne.
  pose proof (@rows_with_unique (columns L) on k (rows L) unique_left) as HL.
  pose proof (@rows_with_unique (columns R) on k (rows R) unique_right) as HR.
  unfold outer_rows_for in *.
  destruct (rows_with (columns L) on k (rows L)) as [|l0 [|l1 ls]];
    destruct (rows_with (columns R) on k (rows R)) as [|r0 [|r1 rs]];
    cbn in *; try lia; congruence.
Qed.

(** When neither side repeats a key, the join has one row per key. *)
Lemma merge_unique_keys :
  column (merge L R on outer) on = outer_keys L R on.
Proof.
  unfold column. rewrite (merge_columns_disjoint disjoint).
  cbn [merge rows]. rewrite map_flat_map.
  apply flat_map_singletons. intros k Hk. apply In_outer_keys in Hk.
  pose proof (@outer_rows_for_one k Hk) as Hlen.
  destruct (outer_rows_for L R on k) as [|r [|r' rs]] eqn:E;
    cbn in Hlen; try lia.
  cbn [map]. f_equal.
  apply (@outer_row_key L R on key_left wf_left k).
  rewrite E. now left.
Qed.

Lemma merge_keeps_keys_unique : NoDup (column (merge L R on outer) on).
Proof. rewrite merge_unique_keys. apply NoDup_outer_keys. Qed.

End UniqueKeys.

(** ** A chain of outer joins *)

Lemma drawn_from_itself on f r : In r (rows f) -> drawn_from on f f r.
Proof. intros H. left. exists r. auto. Qed.

(** A row drawn from an intermediate join is drawn from the tables that
    went into it. *)
Lemma drawn_from_via on M M1 f r :
  In on (columns M1) ->
  (forall c, In c (columns f) -> In c (columns M1)) ->
  (forall k, In k (column f on) -> In k (column M1 on)) ->
  (forall a, In a (rows M1) -> drawn_from on M1 f a) ->
  drawn_from on M M1 r -> drawn_from on M f r.
Proof.
  intros Hon Hcols Hkeys Hrows [(a & Ha & Hk & Hv) | (Hno & Hv)].
  - destruct (Hrows a Ha) as [(b & Hb & Hkb & Hvb) | (Hnob & Hvb)].
    + left. exists b. repeat split; [exact Hb | congruence |].
      intros c Hc. rewrite Hv by auto. auto.
    + right. split.
      * rewrite <- Hk. exact Hnob.
      * intros c Hc Hne. rewrite Hv by auto. auto.
  - right. split.
    + intros H. apply Hno. auto.
    + intros c Hc Hne. auto.
Qed.

Lemma reduce_outer_spec on :
  forall others first,
    Forall (joinable on) (first :: others) ->
    ForallOrdPairs (disjoint_columns on) (first :: others) ->
    let M := reduce (fun l r => merge l r on outer) first others in
    joinable on M
    /\ (forall c, In c (columns M) <->
                  exists f, In f (first :: others) /\ In c (columns f))
    /\ (forall k, In k (column M on) <->
                  exists f, In f (first :: others) /\ In k (column f on))
    /\ (forall f r, In f (first :: others) -> In r (rows M) ->
                    drawn_from on M f r)
    /\ (Forall (fun f => NoDup (column f on)) (first :: others) ->
        NoDup (column M on))
    /\ (Forall (fun f => NoDup (columns f)) (first :: others) ->
        NoDup (columns M)).
Proof.
  induction others as [|f2 rest IH]; intros first Hj Hd M.
  - subst M. cbn [reduce fold_left].
    inversion Hj as [|? ? [Hon1 Hwf1] _]; subst. repeat split.
    + exact Hon1.
    + exact Hwf1.
    + intros Hc. exists first. split; [now left | exact Hc].
    + intros (f & [<- | []] & Hc). exact Hc.
    + intros Hk. exists first. split; [now left | exact Hk].
    + intros (f & [<- | []] & Hk). exact Hk.
    + intros f r [<- | []] Hr. now apply drawn_from_itself.
    + intros H. now inversion H.
    + intros H. now inversion H.
  - inversion Hj as [|? ? [Hon1 Hwf1] Hj']; subst.
    inversion Hj' as [|? ? [Hon2 Hwf2] Hj'']; subst.
    inversion Hd as [|? ? Hd1 Hd']; subst.
    inversion Hd1 as [|? ? Hd12 Hd1r]; subst.
    inversion Hd' as [|? ? Hd2r Hdr]; subst.
    set (M1 := merge first f2 on outer).
    assert (Hcols1 : columns M1 = columns first ++ non_key on (columns f2))
      by (apply merge_columns_disjoint; exact Hd12).
    assert (HinM1 : forall c, In c (columns M1) <->
                              In c (columns first) \/ In c (columns f2)).
    { intros c. rewrite Hcols1, in_app_iff, In_non_key. split.
      - intros [H | [H _]]; auto.
      - intros [H | H]; [now left|].
        destruct (string_dec c on) as [-> | Hne]; [now left | now right]. }
    assert (Hj1 : joinable on M1).
    { split; [apply HinM1; now left | now apply merge_well_formed]. }
    assert (Hdis1 : Forall (disjoint_columns on M1) rest).
    { rewrite Forall_forall in *. intros g Hg c Hc Hne.
      apply HinM1 in Hc. destruct Hc as [Hc | Hc].
      - exact (Hd1r g Hg c Hc Hne).
      - exact (Hd2r g Hg c Hc Hne). }
    destruct (IH M1 (Forall_cons _ Hj1 Hj'') (FOP_cons _ Hdis1 Hdr))
      as (HjM & HcM & HkM & HdM & HuM & HnM).
    change (reduce (fun l r => merge l r on outer) M1 rest) with M in *.
    assert (Hkeys1 : forall k, In k (column M1 on) <->
                               In k (column first on) \/ In k (column f2 on))
      by (intros k; now apply merge_keys).
    repeat split.
    + apply HjM.
    + apply HjM.
    + intros Hc. apply HcM in Hc. destruct Hc as (f & [<- | Hf] & Hc).
      * apply HinM1 in Hc. destruct Hc as [Hc | Hc].
        -- exists first. split; [now left | exact Hc].
        -- exists f2. split; [right; now left | exact Hc].
      * exists f. split; [right; now right | exact Hc].
    + intros (f & Hf & Hc). apply HcM.
      destruct Hf as [<- | [<- | Hf]].
      * exists M1. split; [now left | apply HinM1; now left].
      * exists M1. split; [now left | apply HinM1; now right].
      * exists f. split; [now right | exact Hc].
    + intros Hk. apply HkM in Hk. destruct Hk as (f & [<- | Hf] & Hk).
      * apply Hkeys1 in Hk. destruct Hk as [Hk | Hk].
        -- exists first. split; [now left | exact Hk].
        -- exists f2. split; [right; now left | exact Hk].
      * exists f. split; [right; now right | exact Hk].
    + intros (f & Hf & Hk). apply HkM.
      destruct Hf as [<- | [<- | Hf]].
      * exists M1. split; [now left | apply Hkeys1; now left].
      * exists M1. split; [now left | apply Hkeys1; now right].
      * exists f. split; [now right | exact Hk].
    + intros f r Hf Hr.
      assert (HrM1 : drawn_from on M M1 r) by (apply HdM; [now left | exact Hr]).
      destruct Hf as [<- | [<- | Hf]].
      * apply (drawn_from_via (M1 := M1)); try assumption.
        -- apply Hj1.
        -- intros c Hc. apply HinM1. now left.
        -- intros k Hk. apply Hkeys1. now left.
        -- intros a Ha. now apply merge_drawn_from_left.
      * apply (drawn_from_via (M1 := M1)); try assumption.
        -- apply Hj1.
        -- intros c Hc. apply HinM1. now right.
        -- intros k Hk. apply Hkeys1. now right.
        -- intros a Ha. now apply merge_drawn_from_right.
      * apply HdM; [now right | exact Hr].
    + intros Hu. inversion Hu as [|? ? Hu1 Hu']; subst.
      inversion Hu' as [|? ? Hu2 Hu'']; subst.
      apply HuM. constructor; [|exact Hu''].
      now apply merge_keeps_keys_unique.
    + intros Hn. inversion Hn as [|? ? Hn1 Hn']; subst.
      inversion Hn' as [|? ? Hn2 Hn'']; subst.
      apply HnM. constructor; [|exact Hn''].
      rewrite Hcols1. apply NoDup_app; [exact Hn1 | |].
      * now apply NoDup_filter.
      * intros c Hc1 Hc2. apply In_non_key in Hc2. destruct Hc2 as [Hc2 Hne].
        exact (Hd12 c Hc1 Hne Hc2).
Qed.

End merger_facts.

(** ** The loop of the frame merger *)

Module frame_merger.
Import pd pd_facts merger_facts.

(** ** Selections *)

Lemma select_well_formed df cs : well_formed (select df cs).
Proof.
  unfold well_formed, select. cbn [rows columns]. rewrite Forall_forall.
  intros r Hr. apply in_map_iff in Hr. destruct Hr as (a & <- & _).
  apply length_map.
Qed.

Lemma get_select df cs a c :
  In c cs -> get cs (map (get (columns df) a) cs) c = get (columns df) a c.
Proof. intros H. rewrite get_map. apply mem_In in H. now rewrite H. Qed.

Lemma column_select df cs c :
  In c cs -> column (select df cs) c = column df c.
Proof.
  intros H. unfold column, select. cbn [rows columns]. rewrite map_map.
  apply map_ext. intros a. now apply get_select.
Qed.

Lemma In_new_columns key seen df c :
  In c (new_columns key seen df) <->
  In c (columns df) /\ (~ In c seen \/ c = key).
Proof.
  unfold new_columns, mem. rewrite filter_In, orb_true_iff, negb_true_iff.
  rewrite mem_not_In, String.eqb_eq. reflexivity.
Qed.

Lemma contributes_spec key df :
  contributes key df = true <-> empty df = false /\ In key (columns df).
Proof.
  unfold contributes, has_column. rewrite andb_true_iff, negb_true_iff.
  now rewrite mem_In.
Qed.

(** ** One turn of the loop *)

Lemma collect_step_keeps key mt df st w :
  contributes key df = true ->
  collect_step key (mt, Some df) st w
  = (Ok (fst st ++ [select df (new_columns key (snd st) df)],
         snd st ++ new_columns key (snd st) df), w).
Proof.
  intros H. apply contributes_spec in H. destruct H as [He Hk].
  unfold collect_step. cbn [fst snd]. rewrite He.
  assert (Hin : In key (new_columns key (snd st) df)).
  { apply In_new_columns. split; [exact Hk | now right]. }
  replace (is_nil (new_columns key (snd st) df)) with false
    by (destruct (new_columns key (snd st) df); [destruct Hin | reflexivity]).
  unfold mem at 1. apply mem_In in Hin. rewrite Hin. reflexivity.
Qed.

(** A table that is not empty but lacks the key is passed over without a
    word. *)
Lemma collect_step_silent key mt df st w :
  empty df = false -> has_column key df = false ->
  collect_step key (mt, Some df) st w = (Ok st, w).
Proof.
  intros He Hk. unfold collect_step. cbn [fst snd]. rewrite He.
  replace (mem key (new_columns key (snd st) df)) with false.
  - now rewrite orb_true_r.
  - symmetry. apply mem_not_In. intros H. apply In_new_columns in H.
    destruct H as [H _]. apply mem_In in H. unfold has_column in Hk. congruence.
Qed.

Lemma collect_step_skips key mt odf st w :
  match odf with
  | Some df => contributes key df = false
  | None => True
  end ->
  exists w', collect_step key (mt, odf) st w = (Ok st, w').
Proof.
  intros H. destruct odf as [df|].
  - destruct (empty df) eqn:He.
    + unfold collect_step, bind. cbn [fst snd]. rewrite He.
      log_step. now exists w0.
    + exists w. apply collect_step_silent; [exact He|].
      unfold contributes in H. rewrite He in H. exact H.
  - unfold collect_step, bind. cbn [fst snd]. log_step. now exists w0.
Qed.

Lemma collect_step_total key item st w :
  exists st' w', collect_step key item st w = (Ok st', w').
Proof.
  destruct item as [mt [df|]].
  - destruct (contributes key df) eqn:E.
    + eexists; eexists. now apply collect_step_keeps.
    + destruct (@collect_step_skips key mt (Some df) st w E) as (w' & H).
      now exists st, w'.
  - destruct (@collect_step_skips key mt None st w I) as (w' & H).
    now exists st, w'.
Qed.

(** ** The invariant of the loop *)

Lemma FOP_snoc (A : Type) (R : A -> A -> Prop) l x :
  ForallOrdPairs R l -> Forall (fun y => R y x) l ->
  ForallOrdPairs R (l ++ [x]).
Proof.
  induction l as [|y l IH]; intros HF Hx; cbn [app].
  - constructor; constructor.
  - inversion HF; subst. inversion Hx; subst. constructor.
    + apply Forall_app. split; [assumption | now constructor].
    + now apply IH.
Qed.

Lemma collected_nil key : collected key [] ([], [key]).
Proof.
  unfold collected. cbn [fst snd]. repeat split.
  - now left.
  - intros c [<- | []]. now left.
  - constructor.
  - destruct H.
  - destruct H.
  - intros mt df [].
Qed.

Lemma collected_skip key items mt odf st :
  match odf with
  | Some df => contributes key df = false
  | None => True
  end ->
  collected key items st -> collected key (items ++ [(mt, odf)]) st.
Proof.
  intros Hno (H1 & H2 & H3 & H4 & H5). unfold collected. repeat split.
  - exact H1.
  - intros c Hc. destruct (H2 c Hc) as [-> | (mt' & df' & Hin & Hc' & Hcol)];
      [now left | right].
    exists mt', df'. repeat split; try assumption.
    apply in_or_app. now left.
  - exact H3.
  - now apply H4.
  - destruct (H4 f H) as (_ & mt' & df' & Hin & Hrest).
    exists mt', df'. split; [apply in_or_app; now left | exact Hrest].
  - intros mt' df' Hin Hc. apply in_app_or in Hin.
    destruct Hin as [Hin | [Heq | []]]; [now apply (H5 mt' df')|].
    inversion Heq; subst. congruence.
Qed.

Lemma collected_keep key items mt df st :
  contributes key df = true ->
  collected key items st ->
  collected key (items ++ [(mt, Some df)])
    (fst st ++ [select df (new_columns key (snd st) df)],
     snd st ++ new_columns key (snd st) df).
Proof.
  intros Hc (H1 & H2 & H3 & H4 & H5).
  pose proof (proj1 (contributes_spec key df) Hc) as [He Hk].
  set (nc := new_columns key (snd st) df).
  assert (Hknc : In key nc).
  { apply In_new_columns. split; [exact Hk | now right]. }
  unfold collected. cbn [fst snd]. repeat split.
  - apply in_or_app. now left.
  - intros c Hin. apply in_app_or in Hin. destruct Hin as [Hin | Hin].
    + destruct (H2 c Hin) as [-> | (mt' & df' & Hin' & Hc' & Hcol)];
        [now left | right].
      exists mt', df'. repeat split; try assumption.
      apply in_or_app. now left.
    + right. exists mt, df. repeat split; try assumption.
      * apply in_or_app. right. now left.
      * now apply In_new_columns in Hin.
  - apply FOP_snoc; [exact H3|]. rewrite Forall_forall.
    intros f Hf c Hcf Hne Hcn. cbn [select columns] in Hcn.
    apply In_new_columns in Hcn. destruct Hcn as [_ [Hns | Heq]].
    + apply Hns. now apply (H4 f Hf).
    + contradiction.
  - apply in_app_or in H. destruct H as [Hf | [<- | []]].
    + intros c Hcf. apply in_or_app. left. now apply (H4 f Hf).
    + cbn [select columns]. intros c Hcn. apply in_or_app. now right.
  - apply in_app_or in H. destruct H as [Hf | [<- | []]].
    + destruct (H4 f Hf) as (_ & mt' & df' & Hin & Hrest).
      exists mt', df'. split; [apply in_or_app; now left | exact Hrest].
    + exists mt, df. cbn [select columns]. repeat split.
      * apply in_or_app. right. now left.
      * exact Hc.
      * exact Hknc.
      * intros c Hcn. now apply In_new_columns in Hcn.
      * intros Hnd. now apply NoDup_filter.
  - intros mt' df' Hin Hc'. apply in_app_or in Hin.
    destruct Hin as [Hin | [Heq | []]].
    + destruct (H5 mt' df' Hin Hc') as (cs & Hkcs & Hsel).
      exists cs. split; [exact Hkcs | apply in_or_app; now left].
    + inversion Heq; subst. exists nc.
      split; [exact Hknc | apply in_or_app; right; now left].
Qed.

Lemma collected_step key items item st w st' w' :
  collected key items st ->
  collect_step key item st w = (Ok st', w') ->
  collected key (items ++ [item]) st'.
Proof.
  intros Hinv E. destruct item as [mt [df|]].
  - destruct (contributes key df) eqn:Hc.
    + rewrite collect_step_keeps in E by exact Hc. inversion E; subst.
      now apply collected_keep.
    + destruct (@collect_step_skips key mt (Some df) st w Hc) as (w1 & E1).
      rewrite E1 in E. inversion E; subst. now apply collected_skip.
  - destruct (@collect_step_skips key mt None st w I) as (w1 & E1).
    rewrite E1 in E. inversion E; subst. now apply collected_skip.
Qed.

Lemma for_fold_invariant (A St : Type) (body : A -> St -> M St)
  (Inv : list A -> St -> Prop) :
  (forall pre x s w s' w',
      Inv pre s -> body x s w = (Ok s', w') -> Inv (pre ++ [x]) s') ->
  forall xs pre s w s' w',
    Inv pre s -> for_fold xs body s w = (Ok s', w') -> Inv (pre ++ xs) s'.
Proof.
  intros Hstep. induction xs as [|x xs IH]; intros pre s w s' w' Hinv E.
  - cbn in E. inversion E; subst. now rewrite app_nil_r.
  - cbn [for_fold] in E. unfold bind in E.
    destruct (body x s w) as [[s1 | exc | code] w1] eqn:E1; try discriminate.
    replace (pre ++ x :: xs) with ((pre ++ [x]) ++ xs)
      by (rewrite <- app_assoc; reflexivity).
    apply (IH _ s1 w1 s' w'); [|exact E].
    apply (Hstep pre x s w s1 w1); assumption.
Qed.

Lemma collect_all key d st w w' :
  for_fold d (collect_step key) ([], [key]) w = (Ok st, w') ->
  collected key d st.
Proof.
  intros E.
  apply (@for_fold_invariant _ _ (collect_step key) (collected key)
           (fun pre x s w0 s' w1 => @collected_step key pre x s w0 s' w1)
           d [] ([], [key]) w st w' (collected_nil key) E).
Qed.

(** What [merge_measure_types] returns: the chain of joins of the frames
    it has collected. *)
Lemma merge_measure_types_inv d key w merged w' :
  merge_measure_types d key w = (Ok merged, w') ->
  exists frames seen,
    collected key d (frames, seen)
    /\ merged = match frames with
                | [] => DataFrame_new
                | first :: others =>
                    reduce (fun l r => merge l r key outer) first others
                end.
Proof.
  unfold merge_measure_types. destruct d as [|item d'].
  - cbn. intros E. inversion E; subst.
    exists [], [key]. split; [apply collected_nil | reflexivity].
  - cbn [is_nil]. unfold bind.
    destruct (for_fold (item :: d') (collect_step key) ([], [key]) w)
      as [[[frames seen] | exc | code] w1] eqn:E1; try discriminate.
    apply collect_all in E1. cbn [fst].
    destruct frames as [|first others].
    + intros E. inversion E; subst. exists [], seen. now split.
    + log_step. intros E. inversion E; subst.
      exists (first :: others), seen. now split.
Qed.

(** The frame merger always returns a table. *)
Lemma merge_measure_types_total d key w :
  exists merged w', merge_measure_types d key w = (Ok merged, w').
Proof.
  unfold merge_measure_types. destruct d as [|item d'].
  - eexists; eexists; reflexivity.
  - cbn [is_nil]. unfold bind.
    destruct (@for_fold_total _ _ (collect_step key)
                (collect_step_total key) (item :: d') ([], [key]) w)
      as (st & w1 & E).
    rewrite E. destruct (fst st) as [|first others].
    + eexists; eexists; reflexivity.
    + log_step. eexists; eexists; reflexivity.
Qed.

End frame_merger.

(** ** What the frame merger returns *)

Module merger_claims.
Import pd pd_facts merger_facts frame_merger.

Lemma for_fold_app (A St : Type) (body : A -> St -> M St) xs ys s w :
  for_fold (xs ++ ys) body s w
  = (s1 <- for_fold xs body s ;; for_fold ys body s1) w.
Proof.
  revert s w. induction xs as [|x xs IH]; intros s w.
  - reflexivity.
  - cbn [app for_fold]. unfold bind.
    destruct (body x s w) as [[s1 | exc | code] w1]; try reflexivity.
    rewrite IH. reflexivity.
Qed.

(** The frames only grow. *)
Lemma frames_grow key xs st w st' w' :
  for_fold xs (collect_step key) st w = (Ok st', w') ->
  exists more, fst st' = fst st ++ more.
Proof.
  revert st w. induction xs as [|x xs IH]; intros st w E.
  - cbn in E. inversion E; subst. exists []. now rewrite app_nil_r.
  - cbn [for_fold] in E. unfold bind in E.
    destruct (collect_step key x st w) as [[s1 | exc | code] w1] eqn:E1;
      try discriminate.
    destruct (IH _ _ E) as (more & Hm).
    assert (H1 : exists m1, fst s1 = fst st ++ m1).
    { destruct x as [mt [df|]].
      - destruct (contributes key df) eqn:Hc.
        + rewrite collect_step_keeps in E1 by exact Hc. inversion E1; subst.
          eexists. reflexivity.
        + destruct (@collect_step_skips key mt (Some df) st w Hc) as (w2 & E2).
          rewrite E2 in E1. inversion E1; subst. exists [].
          now rewrite app_nil_r.
      - destruct (@collect_step_skips key mt None st w I) as (w2 & E2).
        rewrite E2 in E1. inversion E1; subst. exists [].
        now rewrite app_nil_r. }
    destruct H1 as (m1 & H1). exists (m1 ++ more).
    rewrite Hm, H1. now rewrite app_assoc.
Qed.

(** What holds of the chain of joins of the frames the loop has
    collected. *)
Lemma chain_spec d key frames seen :
  collected key d (frames, seen) ->
  forall merged,
    merged = match frames with
             | [] => DataFrame_new
             | first :: others =>
                 reduce (fun l r => merge l r key outer) first others
             end ->
    (forall c, In c (columns merged) <->
               exists f, In f frames /\ In c (columns f))
    /\ (forall k, In k (column merged key) <->
                  exists f, In f frames /\ In k (column f key))
    /\ (forall f r, In f frames -> In r (rows merged) ->
                    drawn_from key merged f r)
    /\ (Forall (fun f => NoDup (column f key)) frames ->
        NoDup (column merged key))
    /\ (Forall (fun f => NoDup (columns f)) frames ->
        NoDup (columns merged)).
Proof.
  intros Hinv merged ->. destruct frames as [|first others].
  - cbn. split; [|split; [|split; [|split]]].
    + intros c. split; [intros [] | intros (f & [] & _)].
    + intros k. split; [intros [] | intros (f & [] & _)].
    + intros f r [].
    + intros _. constructor.
    + intros _. constructor.
  - destruct Hinv as (_ & _ & Hd & H4 & _). cbn [fst snd] in *.
    assert (Hj : Forall (joinable key) (first :: others)).
    { rewrite Forall_forall. intros f Hf.
      destruct (H4 f Hf) as (_ & mt & df & _ & _ & Hsel & Hk & _).
      split; [exact Hk|]. rewrite Hsel. apply select_well_formed. }
    destruct (reduce_outer_spec Hj Hd) as (_ & Hc & Hk & Hdr & Hu & Hn).
    repeat split; try apply Hc; try apply Hk; assumption.
Qed.

(** What holds of the table the frame merger returns, in terms of the
    frames it has collected. *)
Lemma merged_spec d key w merged w' :
  merge_measure_types d key w = (Ok merged, w') ->
  exists frames seen,
    collected key d (frames, seen)
    /\ (forall c, In c (columns merged) <->
                  exists f, In f frames /\ In c (columns f))
    /\ (forall k, In k (column merged key) <->
                  exists f, In f frames /\ In k (column f key))
    /\ (forall f r, In f frames -> In r (rows merged) ->
                    drawn_from key merged f r)
    /\ (Forall (fun f => NoDup (column f key)) frames ->
        NoDup (column merged key))
    /\ (Forall (fun f => NoDup (columns f)) frames ->
        NoDup (columns merged)).
Proof.
  intros E. apply merge_measure_types_inv in E.
  destruct E as (frames & seen & Hinv & E).
  exists frames, seen. split; [exact Hinv|].
  exact (chain_spec Hinv E).
Qed.

Lemma for_fold_drop (A St : Type) (body : A -> St -> M St) xs x ys s w :
  (forall s0 w0, body x s0 w0 = (Ok s0, w0)) ->
  for_fold (xs ++ x :: ys) body s w = for_fold (xs ++ ys) body s w.
Proof.
  intros Hx. rewrite !for_fold_app. unfold bind.
  destruct (for_fold xs body s w) as [[s1 | exc | code] w1]; try reflexivity.
  cbn [for_fold]. unfold bind. now rewrite Hx.
Qed.

(** A table that is not empty and lacks the merge key changes nothing:
    the merger does with it, result and log, what it does without it.  An
    empty mapping gives an empty table. *)
Lemma keyless_table_changes_nothing
  (before after : list (string * option DataFrame)) (mt : string)
  (df : DataFrame) (key : string) (w : World) :
  empty df = false ->
  has_column key df = false ->
  merge_measure_types (before ++ (mt, Some df) :: after) key w
  = merge_measure_types (before ++ after) key w
  /\ merge_measure_types [] key w = (Ok DataFrame_new, w).
Proof.
  intros He Hk. split.
  - unfold merge_measure_types.
    replace (is_nil (before ++ (mt, Some df) :: after)) with false
      by (now destruct before).
    unfold bind.
    rewrite for_fold_drop
      by (intros s0 w0; now apply collect_step_silent).
    destruct (before ++ after) as [|item rest] eqn:E.
    + reflexivity.
    + reflexivity.
  - reflexivity.
Qed.

Lemma len_column df key : List.length (column df key) = len df.
Proof. unfold column, len. apply length_map. Qed.

Lemma length_all_keys d key :
  List.length
    (flat_map
       (fun kv : string * option DataFrame =>
          match snd kv with
          | Some df => column df key
          | None => []
          end) d)
  = total_rows d.
Proof.
  induction d as [|[mt [df|]] d IH];
    cbn [flat_map total_rows fold_right snd]; [reflexivity | |].
  - rewrite length_app, len_column. f_equal. exact IH.
  - exact IH.
Qed.

(** Distinct keys that all come from the tables of a mapping are no more
    than the rows of these tables. *)
Lemma keys_within_total_rows d key l :
  NoDup l ->
  (forall k, In k l ->
     exists mt df, In (mt, Some df) d /\ In k (column df key)) ->
  List.length l <= total_rows d.
Proof.
  intros Hnd Hin. rewrite <- (length_all_keys d key).
  apply NoDup_incl_length; [exact Hnd|].
  intros k Hk. destruct (Hin k Hk) as (mt & df & Hd & Hkd).
  apply in_flat_map. exists (mt, Some df). split; [exact Hd | exact Hkd].
Qed.

(** The keys of the merged table are the keys of the contributing
    tables. *)
Lemma merged_keys d key w merged w' :
  merge_measure_types d key w = (Ok merged, w') ->
  forall k,
    In k (column merged key) <->
    exists mt df,
      In (mt, Some df) d /\ contributes key df = true
      /\ In k (column df key).
Proof.
  intros E k. destruct (@merged_spec _ _ _ _ _ E) as (frames & seen & Hinv & _ & Hk & _).
  destruct Hinv as (_ & _ & _ & H4 & H5). cbn [fst snd] in *.
  rewrite Hk. split.
  - intros (f & Hf & Hkf).
    destruct (H4 f Hf) as (_ & mt & df & Hd & Hc & Hsel & Hkey & _).
    exists mt, df. repeat split; try assumption.
    pose proof (@column_select df (columns f) key Hkey) as Hcs.
    rewrite <- Hsel in Hcs. now rewrite <- Hcs.
  - intros (mt & df & Hd & Hc & Hkd).
    destruct (H5 mt df Hd Hc) as (cs & Hkey & Hf).
    exists (select df cs). split; [exact Hf|]. now rewrite column_select.
Qed.

(** C8, as the code has it: the frame merger joins with [how="outer"]
    only; when no contributing table repeats a key, the merged table has
    exactly one row per key of the contributing tables - no key twice, and
    the keys of the contributing tables and no other - so at most as many
    rows as the tables have together and at least as many as each
    contributing table. *)
Theorem unique_keys_bound_the_merged_rows
  (d : list (string * option DataFrame)) (key : string) (w w' : World)
  (merged : DataFrame) :
  merge_measure_types d key w = (Ok merged, w') ->
  (forall mt df,
      In (mt, Some df) d -> contributes key df = true ->
      NoDup (column df key)) ->
  NoDup (column merged key)
  /\ (forall k,
        In k (column merged key) <->
        exists mt df,
          In (mt, Some df) d /\ contributes key df = true
          /\ In k (column df key))
  /\ len merged <= total_rows d
  /\ (forall mt df,
        In (mt, Some df) d -> contributes key df = true ->
        len df <= len merged).
Proof.
  intros E Hu.
  assert (Hnd : NoDup (column merged key)).
  { destruct (@merged_spec _ _ _ _ _ E)
      as (frames & seen & Hinv & _ & _ & _ & Hnd & _).
    apply Hnd. rewrite Forall_forall. intros f Hf.
    destruct Hinv as (_ & _ & _ & H4 & _). cbn [fst snd] in *.
    destruct (H4 f Hf) as (_ & mt & df & Hd & Hc & Hsel & Hkey & _).
    pose proof (@column_select df (columns f) key Hkey) as Hcs.
    rewrite <- Hsel in Hcs. rewrite Hcs. now apply (Hu mt df). }
  split; [exact Hnd|]. split; [exact (@merged_keys _ _ _ _ _ E)|]. split.
  - rewrite <- (len_column merged key).
    apply (@keys_within_total_rows d key); [exact Hnd|].
    intros k Hk. apply (@merged_keys _ _ _ _ _ E) in Hk.
    destruct Hk as (mt & df & Hd & _ & Hkd). now exists mt, df.
  - intros mt df Hd Hc.
    rewrite <- (len_column merged key), <- (len_column df key).
    apply NoDup_incl_length; [now apply (Hu mt df)|].
    intros k Hk. apply (@merged_keys _ _ _ _ _ E). now exists mt, df.
Qed.

End merger_claims.

(** ** First writer wins *)

Module first_writer.
Import pd pd_facts merger_facts frame_merger merger_claims.

(** The run of the frame merger on a mapping that is not empty. *)
Lemma merge_measure_types_unfold d key w merged w' :
  d <> [] ->
  merge_measure_types d key w = (Ok merged, w') ->
  exists st w1,
    for_fold d (collect_step key) ([], [key]) w = (Ok st, w1)
    /\ merged = match fst st with
                | [] => DataFrame_new
                | first :: others =>
                    reduce (fun l r => merge l r key outer) first others
                end.
Proof.
  intros Hd. unfold merge_measure_types.
  destruct d as [|item d']; [congruence|]. cbn [is_nil]. unfold bind.
  destruct (for_fold (item :: d') (collect_step key) ([], [key]) w)
    as [[st | exc | code] w1] eqn:E1; try discriminate.
  destruct (fst st) as [|first others] eqn:Ef.
  - intros E. inversion E; subst. exists st, w'. rewrite Ef. now split.
  - log_step. intros E. inversion E; subst. exists st, w1. rewrite Ef.
    now split.
Qed.

(** The first table that contributes a column supplies its cells. *)
Lemma first_table_supplies_the_column
  (before after : list (string * option DataFrame)) (mt : string)
  (df : DataFrame) (key c : string) (w w' : World) (merged : DataFrame)
  (r : list cell) :
  contributes key df = true ->
  In c (columns df) ->
  c <> key ->
  (forall mt' df',
      In (mt', Some df') before -> contributes key df' = true ->
      ~ In c (columns df')) ->
  merge_measure_types (before ++ (mt, Some df) :: after) key w
  = (Ok merged, w') ->
  In r (rows merged) ->
  In c (columns merged)
  /\ ((exists a,
         In a (rows df)
         /\ get (columns df) a key = get (columns merged) r key
         /\ get (columns merged) r c = get (columns df) a c)
      \/ (~ In (get (columns merged) r key) (column df key)
          /\ get (columns merged) r c = None)).
Proof.
  intros Hc Hcol Hne Hfirst E Hr.
  apply merge_measure_types_unfold in E; [|now destruct before].
  destruct E as (st & w1 & E & Hm).
  pose proof (@collect_all _ _ _ _ _ E) as Hinv.
  rewrite for_fold_app in E. unfold bind in E.
  destruct (for_fold before (collect_step key) ([], [key]) w)
    as [[stb | exc | code] wb] eqn:Eb; try discriminate.
  pose proof (@collect_all _ _ _ _ _ Eb) as Hinvb.
  cbn [for_fold] in E. unfold bind in E.
  rewrite collect_step_keeps in E by exact Hc.
  set (nc := new_columns key (snd stb) df) in *.
  set (g := select df nc) in *.
  destruct (@frames_grow _ _ _ _ _ _ E) as (more & Hgrow). cbn [fst] in Hgrow.
  assert (Hg : In g (fst st)).
  { rewrite Hgrow. apply in_or_app. left. apply in_or_app. right. now left. }
  assert (Hcnc : In c nc).
  { apply In_new_columns. split; [exact Hcol|]. left. intros Hseen.
    destruct Hinvb as (_ & H2 & _).
    destruct (H2 c Hseen) as [-> | (mt' & df' & Hin & Hc' & Hcol')];
      [congruence|].
    exact (Hfirst mt' df' Hin Hc' Hcol'). }
  assert (Hknc : In key nc).
  { apply In_new_columns. split; [|now right].
    now apply contributes_spec in Hc. }
  destruct st as [frames seen]. cbn [fst snd] in *.
  destruct (chain_spec Hinv Hm) as (Hcols & _ & Hdrawn & _).
  split.
  - apply Hcols. exists g. split; [exact Hg | exact Hcnc].
  - destruct (Hdrawn g r Hg Hr) as [(ag & Hag & Hk & Hv) | (Hno & Hv)].
    + left. cbn [g select rows columns] in Hag, Hk, Hv.
      apply in_map_iff in Hag. destruct Hag as (a & <- & Ha).
      exists a. split; [exact Ha|]. split.
      * rewrite <- Hk. symmetry. now apply get_select.
      * rewrite (Hv c Hcnc). now apply get_select.
    + right. split.
      * unfold g in Hno. now rewrite column_select in Hno.
      * apply Hv; assumption.
Qed.

(** C5: first writer wins.  Let [df] be the first table, in the order of
    the mapping, that contributes a column [c] other than the merge key.
    Then the merged table has the column [c], and in each of its rows the
    cell under [c] is the one of a row of [df] with the same key; when
    [df] has no row with that key the cell is missing.  No later table
    that also has a column [c] supplies any value. *)
Theorem first_table_wins
  (before after : list (string * option DataFrame)) (mt : string)
  (df : DataFrame) (key c : string) (w w' : World) (merged : DataFrame)
  (r : list cell) :
  contributes key df = true ->
  In c (columns df) ->
  c <> key ->
  (forall mt' df',
      In (mt', Some df') before -> contributes key df' = true ->
      ~ In c (columns df')) ->
  merge_measure_types (before ++ (mt, Some df) :: after) key w
  = (Ok merged, w') ->
  In r (rows merged) ->
  In c (columns merged)
  /\ ((exists a,
         In a (rows df)
         /\ get (columns df) a key = get (columns merged) r key
         /\ get (columns merged) r c = get (columns df) a c)
      \/ (~ In (get (columns merged) r key) (column df key)
          /\ get (columns merged) r c = None)).
Proof. apply first_table_supplies_the_column. Qed.

(** No column of the merged table is invented: each is a column of a
    contributing table. *)
Lemma merged_columns_come_from_tables d key w merged w' c :
  merge_measure_types d key w = (Ok merged, w') ->
  In c (columns merged) ->
  exists mt df,
    In (mt, Some df) d /\ contributes key df = true /\ In c (columns df).
Proof.
  intros E Hc.
  destruct (@merged_spec _ _ _ _ _ E) as (frames & seen & Hinv & Hcols & _).
  apply Hcols in Hc. destruct Hc as (f & Hf & Hc).
  destruct Hinv as (_ & _ & _ & H4 & _). cbn [fst snd] in *.
  destruct (H4 f Hf) as (_ & mt & df & Hd & Hcon & _ & _ & Hincl & _).
  exists mt, df. repeat split; try assumption. now apply Hincl.
Qed.

(** When no table repeats a column name, neither does the merged table:
    of a name shared by several tables a single column is left. *)
Lemma merged_columns_distinct d key w merged w' :
  merge_measure_types d key w = (Ok merged, w') ->
  (forall mt df, In (mt, Some df) d -> NoDup (columns df)) ->
  NoDup (columns merged).
Proof.
  intros E Hnd.
  destruct (@merged_spec _ _ _ _ _ E)
    as (frames & seen & Hinv & _ & _ & _ & _ & Hn).
  apply Hn. rewrite Forall_forall. intros f Hf.
  destruct Hinv as (_ & _ & _ & H4 & _). cbn [fst snd] in *.
  destruct (H4 f Hf) as (_ & mt & df & Hd & _ & _ & _ & _ & Hkeep).
  apply Hkeep. now apply (Hnd mt df).
Qed.

(** The scenario of C5: tables [A] with columns [K, X] and [B] with
    columns [K, X, Y], in this order.  The merged table has the columns
    [K, X, Y], and under [X] a row whose key is in [A] has the value of a
    row of [A] with that key; a row whose key is not in [A] has none. *)
Lemma two_tables_keep_the_first_X
  (K X Y : string) (rowsA rowsB : list (list cell)) (w : World) :
  K <> X -> K <> Y -> X <> Y -> rowsA <> [] -> rowsB <> [] ->
  let A := mkDataFrame [K; X] rowsA in
  let B := mkDataFrame [K; X; Y] rowsB in
  exists merged w',
    merge_measure_types [("A", Some A); ("B", Some B)] K w = (Ok merged, w')
    /\ columns merged = [K; X; Y]
    /\ forall r, In r (rows merged) ->
         (exists a,
             In a rowsA
             /\ get [K; X] a K = get [K; X; Y] r K
             /\ get [K; X; Y] r X = get [K; X] a X)
         \/ (~ In (get [K; X; Y] r K) (column A K)
             /\ get [K; X; Y] r X = None).
Proof.
  intros HKX HKY HXY HA HB A B.
  destruct (merge_measure_types_total [("A", Some A); ("B", Some B)] K w)
    as (merged & w' & E).
  exists merged, w'. split; [exact E|].
  assert (Hcols : columns merged = [K; X; Y]).
  { revert E. unfold merge_measure_types. cbn [is_nil for_fold]. unfold bind.
    assert (HcA : contributes K A = true).
    { unfold contributes, empty, has_column. cbn.
      destruct rowsA; [congruence|]. cbn. now rewrite String.eqb_refl. }
    assert (HcB : contributes K B = true).
    { unfold contributes, empty, has_column. cbn.
      destruct rowsB; [congruence|]. cbn. now rewrite String.eqb_refl. }
    rewrite (@collect_step_keeps K "A" A _ _ HcA). cbn [fst snd app].
    rewrite (@collect_step_keeps K "B" B _ _ HcB). cbn [fst snd app ret].
    assert (EXK : String.eqb X K = false) by (apply String.eqb_neq; congruence).
    assert (EYK : String.eqb Y K = false) by (apply String.eqb_neq; congruence).
    assert (EYX : String.eqb Y X = false) by (apply String.eqb_neq; congruence).
    assert (EXY : String.eqb X Y = false) by (apply String.eqb_neq; congruence).
    assert (HnA : new_columns K [K] A = [K; X]).
    { unfold new_columns, mem. cbn. rewrite !String.eqb_refl, EXK. reflexivity. }
    rewrite HnA. cbn [app].
    assert (HnB : new_columns K [K; K; X] B = [K; Y]).
    { unfold new_columns, mem. cbn.
      rewrite !String.eqb_refl, EXK, EYK, EYX. reflexivity. }
    rewrite HnB. log_step. intros E. inversion E; subst.
    cbn [reduce fold_left merge columns select].
    unfold merge_columns, suffixed, overlaps, non_key. cbn.
    repeat (rewrite ?String.eqb_refl, ?EXK, ?EYK, ?EXY, ?EYX; cbn).
    reflexivity. }
  split; [exact Hcols|]. intros r Hr. rewrite <- Hcols.
  change [K; X] with (columns A). change rowsA with (rows A).
  apply (@first_table_supplies_the_column [] [("B", Some B)] "A" A K X w w'
           merged r).
  - unfold contributes, empty, has_column. cbn.
    destruct rowsA; [congruence|]. cbn. now rewrite String.eqb_refl.
  - right. now left.
  - congruence.
  - intros mt' df' [].
  - exact E.
  - exact Hr.
Qed.

End first_writer.

Module lineup_merge.
Import pd pd_facts merger_facts frame_merger merger_claims.

Lemma In_dict_set (V : Type) k (v : V) d k' v' :
  In (k', v') (dict_set String.eqb k v d) ->
  (k', v') = (k, v) \/ In (k', v') d.
Proof.
  induction d as [|[k0 v0] d IH]; cbn [dict_set].
  - intros [H | []]. left. now symmetry.
  - destruct (String.eqb k k0).
    + intros [H | H]; [left; now symmetry | right; now right].
    + intros [H | H]; [right; now left|].
      destruct (IH H) as [H' | H']; [now left | right; now right].
Qed.

Section Lineups.
Variable config : Config.
Variable api : nat -> Endpoint -> Kwargs -> Response.

(** Only tables that are not empty enter [measure_frames]. *)
Lemma measure_frames_step_keeps_nonempty season season_type gq per_mode mt
  mf w mf' w' :
  measure_frames_step config api season season_type gq per_mode mt mf w
  = (Ok mf', w') ->
  (forall m odf, In (m, odf) mf ->
     exists df, odf = Some df /\ empty df = false) ->
  forall m odf, In (m, odf) mf' ->
    exists df, odf = Some df /\ empty df = false.
Proof.
  unfold measure_frames_step, pace, time_sleep, emit, bind.
  destruct (fetch_all_lineups config api season season_type gq per_mode mt w)
    as [[[d|] | exc | code] w1]; try discriminate.
  - destruct (empty d) eqn:He; cbn [negb]; intros E Hmf; inversion E; subst.
    + exact Hmf.
    + intros m odf Hin. apply In_dict_set in Hin.
      destruct Hin as [Heq | Hin].
      * inversion Heq; subst. now exists d.
      * exact (Hmf m odf Hin).
  - intros E Hmf. inversion E; subst. exact Hmf.
Qed.

Lemma fetch_measure_frames_nonempty season season_type gq per_mode w mf w' :
  fetch_measure_frames config api season season_type gq per_mode w
  = (Ok mf, w') ->
  forall m odf, In (m, odf) mf ->
    exists df, odf = Some df /\ empty df = false.
Proof.
  unfold fetch_measure_frames. intros E.
  apply (@for_fold_invariant _ _
           (measure_frames_step config api season season_type gq per_mode)
           (fun _ mf0 => forall m odf, In (m, odf) mf0 ->
                           exists df, odf = Some df /\ empty df = false)
           (fun pre x s w0 s' w1 Hs Es =>
              @measure_frames_step_keeps_nonempty season season_type gq
                per_mode x s w0 s' w1 Es Hs)
           (MEASURE_TYPES config) [] [] w mf w'); [|exact E].
  intros m odf [].
Qed.

(** C1, as the code has it: the lineup fetch merges the measure types
    with the semantics of an outer join.  For every (season type, group
    size, per-mode) triple, a lineup key is in the merged table if and
    only if it is in the table of at least one successfully fetched
    measure type (one that has the [GROUP_ID] column). *)
Theorem lineup_merge_keeps_every_fetched_lineup
  (season season_type : string) (gq : Z) (per_mode : string)
  (w w1 w2 : World) (measure_frames : list (string * option DataFrame))
  (merged : DataFrame) (k : cell) :
  fetch_measure_frames config api season season_type gq per_mode w
  = (Ok measure_frames, w1) ->
  merge_measure_types measure_frames "GROUP_ID" w1 = (Ok merged, w2) ->
  (In k (column merged "GROUP_ID") <->
   exists mt df,
     In (mt, Some df) measure_frames
     /\ has_column "GROUP_ID" df = true
     /\ In k (column df "GROUP_ID")).
Proof.
  intros Ef Em. rewrite (@merged_keys _ _ _ _ _ Em k).
  split; intros (mt & df & Hin & Hc & Hk); exists mt, df;
    (split; [exact Hin|]); (split; [|exact Hk]).
  - unfold contributes in Hc. apply andb_true_iff in Hc. apply Hc.
  - destruct (@fetch_measure_frames_nonempty _ _ _ _ _ _ _ Ef mt (Some df) Hin)
      as (df' & Heq & He).
    inversion Heq; subst. unfold contributes. now rewrite He, Hc.
Qed.

End Lineups.

End lineup_merge.

(* ===================================================================== *)
(** * The scenarios, run *)
(* ===================================================================== *)

(** Base has the lineups 1, 2, 3 and Advanced the lineups 2, 3, 4: the
    merged lineup table has the lineups 1, 2, 3 and 4, not only 2 and 3. *)
Lemma lineup_merge_is_not_an_inner_join :
  map (fun df => pd.column df "GROUP_ID")
      (combo_frames
         (lineup_combo scenario_config api_base_advanced [] "2025-26"
            "Regular Season" 5 "Totals" ([(5%Z, [])], 0) initial_world))
  = [[int_cell 1; int_cell 2; int_cell 3; int_cell 4]]
  /\ pd.column base_lineups "GROUP_ID" = [int_cell 1; int_cell 2; int_cell 3]
  /\ pd.column advanced_lineups "GROUP_ID"
     = [int_cell 2; int_cell 3; int_cell 4].
Proof. vm_compute. repeat split; reflexivity. Qed.

Lemma lineup_merge_keeps_every_fetched_lineup_witness :
  In (int_cell 1)
     (pd.column (result_of pd.DataFrame_new scenario_merge) "GROUP_ID") <->
  exists mt df,
    In (mt, Some df) scenario_frames
    /\ pd.has_column "GROUP_ID" df = true
    /\ In (int_cell 1) (pd.column df "GROUP_ID").
Proof.
  apply (@lineup_merge.lineup_merge_keeps_every_fetched_lineup
           scenario_config api_base_advanced "2025-26" "Regular Season" 5%Z
           "Totals" initial_world (snd scenario_fetch) (snd scenario_merge)
           scenario_frames (result_of pd.DataFrame_new scenario_merge)
           (int_cell 1)).
  - vm_compute. reflexivity.
  - vm_compute. reflexivity.
Defined.

Lemma first_table_wins_witness :
  In "X" (pd.columns (result_of pd.DataFrame_new tables_AB_run))
  /\ ((exists a,
         In a (pd.rows table_A)
         /\ pd.get (pd.columns table_A) a "K"
            = pd.get (pd.columns (result_of pd.DataFrame_new tables_AB_run))
                     [int_cell 2; int_cell 20; int_cell 22] "K"
         /\ pd.get (pd.columns (result_of pd.DataFrame_new tables_AB_run))
                   [int_cell 2; int_cell 20; int_cell 22] "X"
            = pd.get (pd.columns table_A) a "X")
      \/ (~ In (pd.get
                  (pd.columns (result_of pd.DataFrame_new tables_AB_run))
                  [int_cell 2; int_cell 20; int_cell 22] "K")
               (pd.column table_A "K")
          /\ pd.get (pd.columns (result_of pd.DataFrame_new tables_AB_run))
                    [int_cell 2; int_cell 20; int_cell 22] "X"
             = None)).
Proof.
  apply (@first_writer.first_table_wins [] [("B", Some table_B)] "A" table_A
           "K" "X" initial_world (snd tables_AB_run)
           (result_of pd.DataFrame_new tables_AB_run)
           [int_cell 2; int_cell 20; int_cell 22]).
  - reflexivity.
  - right. left. reflexivity.
  - discriminate.
  - intros mt' df' [].
  - vm_compute. reflexivity.
  - vm_compute. right. left. reflexivity.
Defined.

(** Two tables of three rows under one key: the merged table has nine
    rows, more than the six rows the tables have together. *)
Lemma repeated_keys_multiply_the_rows :
  pd.len (result_of pd.DataFrame_new repeated_run) = 9
  /\ total_rows repeated_tables = 6
  /\ pd.len repeated_A = 3
  /\ pd.len repeated_B = 3
  /\ pd.dedup (pd.column repeated_A "K" ++ pd.column repeated_B "K")
     = [int_cell 1].
Proof. vm_compute. repeat split; reflexivity. Qed.

Lemma unique_keys_bound_the_merged_rows_witness :
  NoDup (pd.column (result_of pd.DataFrame_new mixed_run) "GROUP_ID")
  /\ (forall k,
        In k (pd.column (result_of pd.DataFrame_new mixed_run) "GROUP_ID") <->
        exists mt df,
          In (mt, Some df) mixed_tables /\ contributes "GROUP_ID" df = true
          /\ In k (pd.column df "GROUP_ID"))
  /\ pd.len (result_of pd.DataFrame_new mixed_run) <= total_rows mixed_tables
  /\ (forall mt df,
        In (mt, Some df) mixed_tables ->
        contributes "GROUP_ID" df = true ->
        pd.len df <= pd.len (result_of pd.DataFrame_new mixed_run)).
Proof.
  apply (@merger_claims.unique_keys_bound_the_merged_rows mixed_tables
           "GROUP_ID" initial_world (snd mixed_run)
           (result_of pd.DataFrame_new mixed_run)).
  - vm_compute. reflexivity.
  - intros mt df [H | [H | [H | []]]] Hc; inversion H; subst;
      try (vm_compute in Hc; discriminate Hc);
      vm_compute; repeat constructor; simpl; intuition discriminate.
Defined.

(** A table without [GROUP_ID] is passed over and nothing in the log says
    so: the only record is the one that reports the merge. *)
Lemma keyless_table_is_not_logged :
  fst keyless_run = Ok base_lineups
  /\ trace (snd keyless_run)
     = [Log utils_logger INFO
            "Merged %d measure-type frames -> %d rows x %d cols"
            [AInt 1; AInt 3; AInt 2]]
  /\ count_logs utils_logger WARNING (trace (snd keyless_run)) = 0.
Proof. vm_compute. repeat split; reflexivity. Qed.

(* ===================================================================== *)
(** * Team lookup, player lists and sort directions *)
(* ===================================================================== *)

Module team_facts.

Lemma team_lookup_listed id ts n :
  team_lookup id ts = Some n -> In (id, n) ts.
Proof.
  induction ts as [|[i fn] ts IH]; simpl; [discriminate|].
  destruct (team_lookup id ts) as [m|] eqn:E.
  - intros H; inversion H; subst. right. now apply IH.
  - destruct (Z.eqb_spec i id); [|discriminate].
    intros H; inversion H; subst. now left.
Qed.

Lemma team_lookup_unlisted id ts :
  team_lookup id ts = None <-> ~ In id (map fst ts).
Proof.
  induction ts as [|[i fn] ts IH]; simpl.
  - split; auto.
  - destruct (team_lookup id ts) as [m|] eqn:E.
    + split; [discriminate|]. intros H. exfalso. apply H. right.
      apply team_lookup_listed in E. apply in_map_iff. now exists (id, m).
    + destruct (Z.eqb_spec i id).
      * split; [discriminate|]. intros H. exfalso. apply H. now left.
      * split; [|reflexivity]. intros _ [H|H]; [congruence|].
        now apply IH in H.
Qed.

Lemma team_lookup_last id pre n post :
  ~ In id (map fst post) ->
  team_lookup id (pre ++ (id, n) :: post) = Some n.
Proof.
  intros H. induction pre as [|[i fn] pre IH]; simpl.
  - apply team_lookup_unlisted in H. rewrite H. now rewrite Z.eqb_refl.
  - now rewrite IH.
Qed.

(** X1: [get_team_name] answers with a full name listed for the id, and
    with ["Unknown"] when the id is not listed; when the id is listed
    several times the last entry is the one returned. *)
Theorem team_name_lookup (teams : list (Z * string)) (team_id : Z) :
  ((exists name, In (team_id, name) teams
                 /\ get_team_name teams team_id = name)
   \/ (~ In team_id (map fst teams)
       /\ get_team_name teams team_id = "Unknown"))
  /\ (forall pre name post,
        teams = pre ++ (team_id, name) :: post ->
        ~ In team_id (map fst post) ->
        get_team_name teams team_id = name).
Proof.
  unfold get_team_name. split.
  - destruct (team_lookup team_id teams) as [n|] eqn:E.
    + left. exists n. split; [now apply team_lookup_listed | reflexivity].
    + right. split; [now apply team_lookup_unlisted | reflexivity].
  - intros pre name post -> H. now rewrite team_lookup_last.
Qed.

Lemma insert_Z_perm x l : Permutation (insert_Z x l) (x :: l).
Proof.
  induction l as [|y l IH]; simpl; [reflexivity|].
  destruct (y <=? x)%Z; [|reflexivity].
  rewrite IH. apply perm_swap.
Qed.

Lemma insert_Z_sorted x l :
  StronglySorted Z.le l -> StronglySorted Z.le (insert_Z x l).
Proof.
  induction 1 as [|y l Hs IH Hy]; simpl.
  - constructor; constructor.
  - destruct (Z.leb_spec y x).
    + constructor; [exact IH|].
      apply Forall_forall. intros z Hz.
      apply (Permutation_in _ (insert_Z_perm x l)) in Hz.
      destruct Hz as [<-|Hz]; [assumption|].
      rewrite Forall_forall in Hy. now apply Hy.
    + constructor; [now constructor|].
      constructor; [lia|].
      apply Forall_forall. intros z Hz. rewrite Forall_forall in Hy.
      specialize (Hy z Hz). lia.
Qed.

(** X2: [get_all_team_ids] returns the ids of all the teams, each as
    often as it is listed, in ascending order. *)
Theorem team_ids_are_sorted (teams : list (Z * string)) :
  StronglySorted Z.le (get_all_team_ids teams)
  /\ Permutation (get_all_team_ids teams) (map fst teams).
Proof.
  unfold get_all_team_ids. induction (map fst teams) as [|x l [IH1 IH2]]; simpl.
  - split; constructor.
  - split; [now apply insert_Z_sorted|].
    rewrite insert_Z_perm. now constructor.
Qed.

End team_facts.

Module split_facts.
Import pd.

Lemma append_assoc (a b c : string) :
  ((a ++ b) ++ c = a ++ (b ++ c))%string.
Proof. induction a; simpl; [reflexivity | now rewrite IHa]. Qed.

Lemma append_nil_r (a : string) : (a ++ "")%string = a.
Proof. induction a; simpl; [reflexivity | now rewrite IHa]. Qed.

Lemma prefix_split p s : prefix p s = true -> exists t, s = (p ++ t)%string.
Proof.
  revert s. induction p as [|c p IH]; intros s H.
  - now exists s.
  - destruct s as [|d s]; simpl in H; [discriminate|].
    destruct (Ascii.ascii_dec c d) as [->|]; [|discriminate].
    destruct (IH s H) as (t & ->). now exists t.
Qed.

Lemma split_from_skip sep u t cur :
  split_from sep (u ++ t)%string (String.length u) cur = split_from sep t 0 cur.
Proof.
  induction u as [|c u IH]; simpl; [|exact IH].
  destruct t; reflexivity.
Qed.

Lemma split_from_not_nil sep s skip cur : split_from sep s skip cur <> [].
Proof.
  revert skip cur. induction s as [|c s IH]; intros skip cur; cbn [split_from].
  - discriminate.
  - destruct skip; [|apply IH].
    destruct (prefix sep (String c s)); [discriminate | apply IH].
Qed.

Lemma concat_cons sep x l :
  l <> [] -> String.concat sep (x :: l) = (x ++ sep ++ String.concat sep l)%string.
Proof. destruct l; [congruence | reflexivity]. Qed.

Lemma length_append (a b : string) :
  String.length (a ++ b)%string = String.length a + String.length b.
Proof. induction a; simpl; [reflexivity | now rewrite IHa]. Qed.

Lemma split_from_concat sep :
  sep <> "" ->
  forall n s cur,
    String.length s <= n ->
    String.concat sep (split_from sep s 0 cur) = (cur ++ s)%string.
Proof.
  intros Hsep. induction n as [|n IH]; intros s cur Hn.
  - destruct s; simpl in Hn; [now rewrite append_nil_r | lia].
  - destruct s as [|ch s']; [now rewrite append_nil_r|].
    cbn [split_from].
    destruct (prefix sep (String ch s')) eqn:P.
    + destruct (prefix_split _ _ P) as (t & E).
      destruct sep as [|c0 sep']; [congruence|].
      simpl in E. inversion E; subst ch s'.
      replace (String.length (String c0 sep') - 1) with (String.length sep')
        by (simpl; lia).
      rewrite split_from_skip.
      rewrite concat_cons by apply split_from_not_nil.
      rewrite IH.
      * reflexivity.
      * simpl in Hn. rewrite length_append in Hn. lia.
    + rewrite IH by (simpl in Hn; lia).
      rewrite append_assoc. reflexivity.
Qed.

Lemma str_split_concat sep s :
  sep <> "" -> String.concat sep (str_split sep s) = s.
Proof.
  intros H. unfold str_split.
  now rewrite (@split_from_concat sep H (String.length s) s "" (le_n _)).
Qed.

End split_facts.

(** X3: the player list built from [GROUP_NAME] loses nothing: joined
    again with [" - "] its pieces give back the name.  A missing name
    gives the list holding the empty string, and a cell that is not a
    string gives a missing list. *)
Theorem players_list_rejoins (cols : list string) (r : list pd.cell) :
  match pd.get cols r "GROUP_NAME" with
  | Some (pd.VStr s) =>
      exists l, players_of cols r = Some (pd.VList l)
                /\ String.concat " - " l = s
  | None => players_of cols r = Some (pd.VList [""])
  | Some _ => players_of cols r = None
  end.
Proof.
  unfold players_of.
  destruct (pd.get cols r "GROUP_NAME") as [[z|s|l]|]; try reflexivity.
  eexists. split; [reflexivity|].
  apply split_facts.str_split_concat. discriminate.
Qed.

(** X4: whichever of the four sort columns the combined lineup table has,
    the directions handed to [sort_values] are as many as the columns, and
    [MIN] is the only column sorted in descending order. *)
Theorem only_MIN_sorts_descending (present : string -> bool) :
  List.length
    (lineup_ascending
       (filter present ["team"; "SEASON_TYPE"; "PER_MODE"; "MIN"]))
  = List.length (filter present ["team"; "SEASON_TYPE"; "PER_MODE"; "MIN"])
  /\ combine (filter present ["team"; "SEASON_TYPE"; "PER_MODE"; "MIN"])
             (lineup_ascending
                (filter present ["team"; "SEASON_TYPE"; "PER_MODE"; "MIN"]))
     = map (fun c => (c, negb (String.eqb c "MIN")))
           (filter present ["team"; "SEASON_TYPE"; "PER_MODE"; "MIN"]).
Proof.
  cbn [filter].
  destruct (present "team"), (present "SEASON_TYPE"), (present "PER_MODE"),
    (present "MIN"); split; reflexivity.
Qed.

(* ===================================================================== *)
(** * The retry caller, request by request *)
(* ===================================================================== *)

Module retry_facts.

Lemma sleeps_app t1 t2 : sleeps (t1 ++ t2) = sleeps t1 ++ sleeps t2.
Proof. apply flat_map_app. Qed.

Lemma requests_app t1 t2 : requests (t1 ++ t2) = requests t1 ++ requests t2.
Proof. apply flat_map_app. Qed.

Lemma files_app t1 t2 : files (t1 ++ t2) = files t1 ++ files t2.
Proof. apply flat_map_app. Qed.


Lemma did_refl w : did 0 [] [] w w.
Proof. unfold did. rewrite !app_nil_r. repeat split; lia. Qed.

Lemma did_trans n m r1 r2 s1 s2 w w1 w2 :
  did n r1 s1 w w1 -> did m r2 s2 w1 w2 ->
  did (n + m) (r1 ++ r2) (s1 ++ s2) w w2.
Proof.
  intros (A1 & A2 & A3 & A4 & A5 & A6) (B1 & B2 & B3 & B4 & B5 & B6).
  unfold did. rewrite B4, B5, B6, A4, A5, A6, !app_assoc.
  repeat split; try lia; congruence.
Qed.

Lemma log_did lg lvl msg args w :
  exists w', log lg lvl msg args w = (Ok tt, w') /\ did 0 [] [] w w'.
Proof.
  unfold log, emit.
  destruct (level_rank (log_level w) <=? level_rank lvl);
    eexists; (split; [reflexivity|]); [|apply did_refl].
  unfold did; simpl. rewrite requests_app, sleeps_app, files_app. simpl.
  rewrite !app_nil_r. repeat split; lia.
Qed.

Lemma sleep_did secs w :
  exists w', time_sleep secs w = (Ok tt, w') /\ did 0 [] [secs] w w'.
Proof.
  unfold time_sleep, emit. eexists; split; [reflexivity|].
  unfold did; simpl. rewrite requests_app, sleeps_app, files_app. simpl.
  rewrite !app_nil_r. repeat split; lia.
Qed.

Ltac did_log :=
  match goal with
  | |- context [log ?a ?b ?c ?d ?w0] =>
      let w1 := fresh "w" in
      let E := fresh "E" in
      let D := fresh "D" in
      destruct (log_did a b c d w0) as (w1 & E & D);
      rewrite E; clear E
  end.

Ltac did_sleep :=
  match goal with
  | |- context [time_sleep ?q ?w0] =>
      let w1 := fresh "w" in
      let E := fresh "E" in
      let D := fresh "D" in
      destruct (sleep_did q w0) as (w1 & E & D);
      rewrite E; clear E
  end.

Ltac did_chain :=
  repeat match goal with
         | D1 : did _ _ _ ?w ?w1, D2 : did _ _ _ ?w1 ?w2 |- _ =>
             pose proof (@did_trans _ _ _ _ _ _ _ _ _ D1 D2); clear D1 D2
         end.

Ltac did_done :=
  did_chain;
  match goal with
  | H : did _ _ _ ?w ?w' |- did _ _ _ ?w ?w' =>
      simpl in H; rewrite ?app_nil_r in H; exact H
  end.

Section Retry.
Variable config : Config.
Variable api : nat -> Endpoint -> Kwargs -> Response.

(** The request itself: the counter, then the call. *)
Lemma request_did ep params w :
  did 1 [(ep, params)] []
      w (snd ((_increment_api_call_count ;; instantiate api ep params) w)).
Proof.
  unfold bind, _increment_api_call_count, instantiate. simpl.
  destruct (api (sent w) ep params); unfold did; simpl;
    rewrite requests_app, sleeps_app, files_app; simpl;
    rewrite !app_nil_r; repeat split; lia.
Qed.

Lemma attempt_once_did ep params retries base_delay attempt w :
  exists out w',
    attempt_once config api ep params retries base_delay attempt w = (out, w')
    /\ match api (sent w) ep (with_timeout config params) with
       | Returns obj =>
           out = Ok (Some obj)
           /\ did 1 [(ep, with_timeout config params)] [] w w'
       | Raises exc =>
           if attempt <? retries - 1 then
             out = Ok None
             /\ did 1 [(ep, with_timeout config params)]
                    [wait config base_delay attempt] w w'
           else
             out = Raise (failed_after ep retries)
             /\ did 1 [(ep, with_timeout config params)] [] w w'
       end.
Proof.
  pose proof (request_did ep (with_timeout config params) w) as D0.
  unfold attempt_once, try_except.
  unfold bind at 1. unfold bind at 2.
  unfold bind, _increment_api_call_count, instantiate in D0 |- *.
  cbn [sent _api_call_count log_level trace fst snd] in D0 |- *.
  destruct (api (sent w) ep (with_timeout config params)) as [exc|obj];
    cbn [snd] in D0.
  - destruct (attempt <? retries - 1).
    + unfold bind. did_log. did_sleep. unfold ret.
      do 2 eexists. split; [reflexivity|]. split; [reflexivity|].
      did_done.
    + unfold bind. did_log. unfold raise.
      do 2 eexists. split; [reflexivity|]. split; [reflexivity|].
      did_done.
  - unfold bind. did_log. unfold ret.
    do 2 eexists. split; [reflexivity|]. split; [reflexivity|].
    did_done.
Qed.

End Retry.

Section Caller.
Variable config : Config.
Variable api : nat -> Endpoint -> Kwargs -> Response.

Lemma attempts_did ep params retries base_delay :
  forall m a w,
    a + m = retries ->
    exists out w' n,
      attempts config api ep params retries base_delay (seq a m) w = (out, w')
      /\ did n (repeat (ep, with_timeout config params) n)
             (map (wait config base_delay) (seq a (n - 1))) w w'
      /\ ((exists obj,
              out = Ok obj /\ 1 <= n <= m
              /\ api (sent w + (n - 1)) ep (with_timeout config params)
                 = Returns obj
              /\ forall i, i < n - 1 ->
                   is_raise (api (sent w + i) ep (with_timeout config params)))
          \/ (out = Raise (failed_after ep retries) /\ n = m /\ 1 <= m
              /\ forall i, i < m ->
                   is_raise (api (sent w + i) ep (with_timeout config params)))
          \/ (m = 0 /\ n = 0
              /\ out = Raise (RuntimeError
                                (class_name ep ++ " exhausted retries")))).
Proof.
  induction m as [|m IH]; intros a w Ha.
  - exists (Raise (RuntimeError (class_name ep ++ " exhausted retries"))), w, 0.
    split; [reflexivity|]. split; [apply did_refl|]. right; right. auto.
  - cbn [seq attempts]. unfold bind at 1.
    destruct (attempt_once_did config api ep params retries base_delay a w)
      as (out & w1 & E & H).
    rewrite E.
    destruct (api (sent w) ep (with_timeout config params)) as [exc|obj] eqn:A.
    + destruct (Nat.ltb_spec a (retries - 1)) as [L|L].
      * destruct H as (-> & D).
        destruct (IH (S a) w1 ltac:(lia)) as (out' & w2 & n' & E' & D' & C).
        rewrite E'.
        assert (S1 : sent w1 = sent w + 1) by (destruct D as (_ & ? & _); lia).
        assert (Hn : 1 <= n').
        { destruct C as [(obj & _ & ? & _) | [(_ & ? & ? & _) | (? & _)]]; lia. }
        exists out', w2, (S n'). split; [reflexivity|]. split.
        { pose proof (did_trans D D') as T.
          replace (S n' - 1) with (S (n' - 1)) by lia.
          cbn [seq map repeat]. exact T. }
        destruct C as [(obj & -> & Hb & R & F) | [(-> & -> & Hm & F) | (? & _)]];
          [left | right; left | lia].
        -- exists obj. split; [reflexivity|]. split; [lia|]. split.
           ++ rewrite <- R. f_equal. lia.
           ++ intros i Hi. destruct i as [|i].
              ** rewrite Nat.add_0_r, A. now exists exc.
              ** replace (sent w + S i) with (sent w1 + i) by lia.
                 apply F. lia.
        -- split; [reflexivity|]. split; [reflexivity|]. split; [lia|].
           intros i Hi. destruct i as [|i].
           ++ rewrite Nat.add_0_r, A. now exists exc.
           ++ replace (sent w + S i) with (sent w1 + i) by lia.
              apply F. lia.
      * destruct H as (-> & D).
        exists (Raise (failed_after ep retries)), w1, 1.
        split; [reflexivity|]. split; [exact D|].
        right; left. split; [reflexivity|]. split; [lia|]. split; [lia|].
        intros i Hi. replace i with 0 by lia.
        rewrite Nat.add_0_r, A. now exists exc.
    + destruct H as (-> & D).
      exists (Ok obj), w1, 1.
      split; [reflexivity|]. split; [exact D|].
      left. exists obj. split; [reflexivity|]. split; [lia|]. split.
      * now rewrite Nat.add_0_r.
      * intros i Hi. lia.
Qed.

End Caller.
End retry_facts.

(** ** The retry caller under Python's arithmetic and clock *)

Module retry_runtime.
Import retry_facts.





Section Caller.
Variable config : Config.
Variable api : nat -> Endpoint -> Kwargs -> Response.



(** Where no wait is refused, the retry caller runs as the one of the
    pipeline does. *)
Lemma attempt_once_alike ep params retries base_delay attempt w :
  wait_error config retries base_delay attempt = None ->
  cpython.attempt_once config api ep params retries base_delay attempt w
  = attempt_once config api ep params retries base_delay attempt w.
Proof.
  intros H. unfold cpython.attempt_once, attempt_once, try_except.
  match goal with
  | |- match ?b w with _ => _ end = _ =>
      destruct (b w) as [[r | exc | code] w1]
  end; try reflexivity.
  unfold wait_error in H. unfold bind at 1. unfold cpython.eval.
  unfold cpython.float_pow in *. cbv zeta in *.
  match type of H with
  | context [if ?b then Raise _ else _] => destruct b
  end; [discriminate|].
  destruct (attempt <? retries - 1); [|reflexivity].
  unfold cpython.time_sleep. rewrite H. reflexivity.
Qed.

Lemma attempts_alike ep params retries base_delay :
  forall range w,
    (forall attempt, In attempt range ->
       wait_error config retries base_delay attempt = None) ->
    cpython.attempts config api ep params retries base_delay range w
    = attempts config api ep params retries base_delay range w.
Proof.
  induction range as [|a range IH]; intros w H; [reflexivity|].
  cbn [cpython.attempts attempts]. unfold bind.
  rewrite attempt_once_alike by (apply H; now left).
  destruct (attempt_once config api ep params retries base_delay a w)
    as [[[r|] | exc | code] w1]; try reflexivity.
  apply IH. intros attempt Hin. apply H. now right.
Qed.

Lemma api_call_with_retry_alike ep params retries base_delay w :
  (forall attempt, attempt < retries ->
     wait_error config retries base_delay attempt = None) ->
  cpython.api_call_with_retry config api ep params retries base_delay w
  = api_call_with_retry config api ep params retries base_delay w.
Proof.
  intros H. apply attempts_alike. intros attempt Hin.
  apply in_seq in Hin. apply H. lia.
Qed.




End Caller.
End retry_runtime.

(** With the delays and the ceiling of [config.py], and with those of the
    health check, no wait is refused. *)
Lemma configured_waits_go_through :
  (forall attempt, attempt < API_RETRIES default_config ->
     wait_error default_config (API_RETRIES default_config)
       (API_BASE_DELAY default_config) attempt = None)
  /\ (forall attempt, attempt < 3 ->
        wait_error default_config 3 (2 # 1) attempt = None).
Proof.
  split; intros attempt Ha.
  - do 5 (destruct attempt as [|attempt]; [vm_compute; reflexivity|]).
    simpl in Ha. lia.
  - do 3 (destruct attempt as [|attempt]; [vm_compute; reflexivity|]).
    lia.
Qed.





(* ===================================================================== *)
(** * The merged table: its columns, lone tables and empty tables *)
(* ===================================================================== *)

Module merged_table.
Import pd pd_facts merger_facts frame_merger merger_claims first_writer.

Lemma claimed_nil key : claimed key [] ([], [key]).
Proof.
  split.
  - intros c [<-|[]]. now left.
  - intros mt df c [].
Qed.

Lemma claimed_step key items item st w st' w' :
  claimed key items st ->
  collect_step key item st w = (Ok st', w') ->
  claimed key (items ++ [item]) st'.
Proof.
  intros [C1 C2] E. destruct item as [mt odf].
  assert (Skip : st' = st -> (match odf with
                              | Some df => contributes key df = false
                              | None => True end) ->
                 claimed key (items ++ [(mt, odf)]) st').
  { intros -> Hs. split; [exact C1|].
    intros mt' df' c Hin Hc Hcol. apply in_app_or in Hin.
    destruct Hin as [Hin | [Heq | []]]; [now apply (C2 mt' df')|].
    inversion Heq; subst. congruence. }
  destruct odf as [df|].
  - destruct (contributes key df) eqn:Hc.
    + rewrite collect_step_keeps in E by exact Hc.
      inversion E; subst; clear E. cbn [fst snd]. split.
      * intros c Hin. apply in_app_or in Hin. destruct Hin as [Hin|Hin].
        -- destruct (C1 c Hin) as [->|(f & Hf & Hcf)]; [now left|].
           right. exists f. split; [apply in_or_app; now left | exact Hcf].
        -- right. exists (select df (new_columns key (snd st) df)).
           split; [apply in_or_app; right; now left | exact Hin].
      * intros mt' df' c Hin Hc' Hcol. apply in_app_or in Hin.
        destruct Hin as [Hin | [Heq | []]].
        -- apply in_or_app. left. now apply (C2 mt' df').
        -- inversion Heq; subst.
           destruct (in_dec string_dec c (snd st)) as [Hs|Hs].
           ++ apply in_or_app. now left.
           ++ apply in_or_app. right. apply In_new_columns. split; auto.
    + destruct (@collect_step_skips key mt (Some df) st w Hc) as (w1 & E1).
      rewrite E1 in E. inversion E; subst. now apply Skip.
  - destruct (@collect_step_skips key mt None st w I) as (w1 & E1).
    rewrite E1 in E. inversion E; subst. now apply Skip.
Qed.

Lemma claimed_all key d st w w' :
  for_fold d (collect_step key) ([], [key]) w = (Ok st, w') ->
  claimed key d st.
Proof.
  intros E.
  apply (@for_fold_invariant _ _ (collect_step key) (claimed key)
           (fun pre x s w0 s' w1 => @claimed_step key pre x s w0 s' w1)
           d [] ([], [key]) w st w' (claimed_nil key) E).
Qed.

(** X7: the columns of the merged table are exactly the columns of the
    tables that contribute (those that are not empty and have the key),
    under their own names: nothing is renamed with a suffix and nothing is
    left out; when no table repeats a column name, neither does the merged
    table. *)
Theorem merged_columns_are_the_union
  (d : list (string * option DataFrame)) (key : string) (w w' : World)
  (merged : DataFrame) :
  merge_measure_types d key w = (Ok merged, w') ->
  (forall c,
      In c (columns merged) <->
      exists mt df,
        In (mt, Some df) d /\ contributes key df = true
        /\ In c (columns df))
  /\ ((forall mt df, In (mt, Some df) d -> NoDup (columns df)) ->
      NoDup (columns merged)).
Proof.
  intros E. split; [|now apply (@merged_columns_distinct d key w merged w' E)].
  intros c. split; [now apply (@merged_columns_come_from_tables d key w merged w' c E)|].
  intros (mt & df & Hin & Hc & Hcol).
  assert (Hd : d <> []) by (intros ->; destruct Hin).
  destruct (@merge_measure_types_unfold d key w merged w' Hd E)
    as ([frames seen] & w1 & F & M).
  pose proof (@collect_all key d _ w w1 F) as Col.
  pose proof (@claimed_all key d _ w w1 F) as [C1 C2].
  destruct (@chain_spec d key frames seen Col merged M) as (Hcols & _).
  apply Hcols. cbn [fst snd] in *.
  destruct (C1 c (C2 mt df c Hin Hc Hcol)) as [->|H]; [|exact H].
  destruct Col as (_ & _ & _ & _ & K).
  destruct (K mt df Hin Hc) as (cs & Hk & Hf).
  exists (select df cs). split; [exact Hf | exact Hk].
Qed.


(** ** A mapping with one contributing table *)

Lemma get_cons_other c c' cols (x : cell) r :
  c' <> c -> get (c :: cols) (x :: r) c' = get cols r c'.
Proof.
  intros H. unfold get. cbn [col_index].
  destruct (String.eqb_spec c' c); [congruence|].
  destruct (col_index c' cols); reflexivity.
Qed.

Lemma map_get_all cols :
  NoDup cols ->
  forall r : list cell,
    List.length r = List.length cols -> map (get cols r) cols = r.
Proof.
  induction 1 as [|c cols Hc Hn IH]; intros r Hr.
  - destruct r; [reflexivity | discriminate].
  - destruct r as [|x r]; [discriminate|]. cbn [map]. f_equal.
    + unfold get. cbn [col_index]. now rewrite String.eqb_refl.
    + rewrite <- (IH r) at 2 by (simpl in Hr; lia).
      apply map_ext_in. intros c' Hc'. apply get_cons_other.
      intros ->. contradiction.
Qed.

Lemma select_all df :
  well_formed df -> NoDup (columns df) -> select df (columns df) = df.
Proof.
  destruct df as [cols rs]. unfold well_formed, select. cbn [columns rows].
  intros Hwf Hn. f_equal. rewrite <- (map_id rs) at 2.
  apply map_ext_in. intros r Hr. apply map_get_all; [exact Hn|].
  rewrite Forall_forall in Hwf. now apply Hwf.
Qed.

Lemma new_columns_first key df : new_columns key [key] df = columns df.
Proof.
  unfold new_columns. induction (columns df) as [|c cols IH]; [reflexivity|].
  cbn [filter]. rewrite IH. unfold mem. cbn [existsb].
  destruct (String.eqb c key); reflexivity.
Qed.

Lemma for_fold_passes key xs st w :
  Forall (fun item => passed_over key item = true) xs ->
  exists w', for_fold xs (collect_step key) st w = (Ok st, w').
Proof.
  intros H. revert w. induction H as [|[mt odf] xs Hx Hxs IH]; intros w.
  - now exists w.
  - cbn [for_fold]. unfold bind.
    destruct (@collect_step_skips key mt odf st w) as (w1 & E).
    { unfold passed_over in Hx. cbn [snd] in Hx.
      destruct odf; [now apply negb_true_iff in Hx | exact I]. }
    rewrite E. apply IH.
Qed.

(** X8: when a single table of the mapping contributes, the others being
    missing, empty or without the key, the frame merger returns that table
    as it is: same columns, same rows, same order. *)
Theorem lone_table_is_returned_unchanged
  (before after : list (string * option DataFrame)) (mt : string)
  (df : DataFrame) (key : string) (w : World) :
  Forall (fun item => passed_over key item = true) (before ++ after) ->
  contributes key df = true ->
  well_formed df ->
  NoDup (columns df) ->
  fst (merge_measure_types (before ++ (mt, Some df) :: after) key w) = Ok df.
Proof.
  intros Hp Hc Hwf Hn. apply Forall_app in Hp. destruct Hp as [Hb Ha].
  unfold merge_measure_types.
  replace (is_nil (before ++ (mt, Some df) :: after)) with false
    by (destruct before; reflexivity).
  unfold bind at 1. rewrite for_fold_app. unfold bind at 1.
  destruct (@for_fold_passes key before ([], [key]) w Hb) as (w1 & E1).
  rewrite E1. cbn [for_fold]. unfold bind at 1.
  rewrite collect_step_keeps by exact Hc. cbn [fst snd app].
  destruct (@for_fold_passes key after
              ([select df (new_columns key [key] df)],
               key :: new_columns key [key] df) w1 Ha) as (w2 & E2).
  rewrite E2. cbn [fst]. unfold reduce. cbn [fold_left].
  unfold bind. log_step. unfold ret. cbn [fst].
  now rewrite new_columns_first, select_all.
Qed.

(** ** Empty tables *)

Lemma collect_step_reports key item st w :
  log_level w <> ERROR ->
  exists st' w',
    collect_step key item st w = (Ok st', w')
    /\ log_level w' = log_level w
    /\ count_logs utils_logger WARNING (trace w')
       = count_logs utils_logger WARNING (trace w)
         + (if reported_empty item then 1 else 0).
Proof.
  intros Hl.
  assert (Hw : (level_rank (log_level w) <=? level_rank WARNING) = true).
  { destruct (log_level w); try reflexivity. congruence. }
  destruct item as [mt [df|]]; unfold collect_step, reported_empty;
    cbn [fst snd].
  - destruct (empty df).
    + unfold bind, log, emit, ret. rewrite Hw. do 2 eexists.
      split; [reflexivity|]. cbn [log_level trace]. split; [reflexivity|].
      now rewrite count_logs_snoc.
    + destruct (is_nil _ || negb _); unfold ret; do 2 eexists;
        (split; [reflexivity|]); (split; [reflexivity | lia]).
  - unfold bind, log, emit, ret. rewrite Hw. do 2 eexists.
    split; [reflexivity|]. cbn [log_level trace]. split; [reflexivity|].
    now rewrite count_logs_snoc.
Qed.

Lemma for_fold_reports key xs :
  forall st w,
    log_level w <> ERROR ->
    exists st' w',
      for_fold xs (collect_step key) st w = (Ok st', w')
      /\ count_logs utils_logger WARNING (trace w')
         = count_logs utils_logger WARNING (trace w)
           + List.length (filter reported_empty xs).
Proof.
  induction xs as [|x xs IH]; intros st w Hl.
  - exists st, w. split; [reflexivity | simpl; lia].
  - cbn [for_fold]. unfold bind.
    destruct (@collect_step_reports key x st w Hl) as (st1 & w1 & E & L & C).
    rewrite E.
    destruct (IH st1 w1 ltac:(congruence)) as (st2 & w2 & E2 & C2).
    exists st2, w2. split; [exact E2|]. rewrite C2, C. cbn [filter].
    destruct (reported_empty x); simpl; lia.
Qed.

(** X9: as long as the log lets warnings through, the frame merger writes
    one warning for each entry of the mapping that is [None] or an empty
    table, and no other; and when no table contributes it returns the
    empty table. *)
Theorem empty_tables_are_reported
  (d : list (string * option DataFrame)) (key : string) (w : World) :
  log_level w <> ERROR ->
  count_logs utils_logger WARNING
    (trace (snd (merge_measure_types d key w)))
  = count_logs utils_logger WARNING (trace w)
    + List.length (filter reported_empty d)
  /\ (Forall (fun item => passed_over key item = true) d ->
      fst (merge_measure_types d key w) = Ok DataFrame_new).
Proof.
  intros Hl. split.
  - unfold merge_measure_types. destruct d as [|item d']; [simpl; lia|].
    cbn [is_nil]. unfold bind.
    destruct (@for_fold_reports key (item :: d') ([], [key]) w Hl)
      as (st & w1 & E & C).
    rewrite E. destruct (fst st) as [|first others]; [exact C|].
    destruct (log_run utils_logger INFO
                "Merged %d measure-type frames -> %d rows x %d cols"
                [AInt (Z.of_nat (List.length (first :: others)));
                 AInt (Z.of_nat
                         (len (reduce (fun l r => merge l r key outer)
                                      first others)));
                 AInt (Z.of_nat
                         (List.length
                            (columns (reduce (fun l r => merge l r key outer)
                                             first others))))] w1)
      as (w2 & E2 & _ & _ & _ & T).
    rewrite E2. cbn [snd ret]. unfold ret. cbn [snd].
    destruct T as [-> | ->]; [exact C|].
    rewrite count_logs_snoc. cbn [is_log_from]. rewrite <- C.
    rewrite String.eqb_refl. cbn. lia.
  - intros Hp. unfold merge_measure_types. destruct d as [|item d'].
    + reflexivity.
    + cbn [is_nil]. unfold bind.
      destruct (@for_fold_passes key (item :: d') ([], [key]) w Hp)
        as (w1 & E).
      rewrite E. reflexivity.
Qed.

End merged_table.

Lemma merged_columns_are_the_union_witness :
  (forall c,
      In c (pd.columns (result_of pd.DataFrame_new tables_AB_run)) <->
      exists mt df,
        In (mt, Some df) [("A", Some table_A); ("B", Some table_B)]
        /\ contributes "K" df = true
        /\ In c (pd.columns df))
  /\ ((forall mt df,
         In (mt, Some df) [("A", Some table_A); ("B", Some table_B)] ->
         NoDup (pd.columns df)) ->
      NoDup (pd.columns (result_of pd.DataFrame_new tables_AB_run))).
Proof.
  apply (@merged_table.merged_columns_are_the_union
           [("A", Some table_A); ("B", Some table_B)] "K" initial_world
           (snd tables_AB_run) (result_of pd.DataFrame_new tables_AB_run)).
  vm_compute. reflexivity.
Defined.

Lemma lone_table_is_returned_unchanged_witness :
  fst (merge_measure_types
         ([("Scoring", None)]
          ++ ("Base", Some base_lineups) :: [("Misc", Some keyless_table)])
         "GROUP_ID" initial_world)
  = Ok base_lineups.
Proof.
  apply (@merged_table.lone_table_is_returned_unchanged
           [("Scoring", None)] [("Misc", Some keyless_table)] "Base"
           base_lineups "GROUP_ID" initial_world).
  - repeat constructor.
  - reflexivity.
  - repeat constructor.
  - repeat constructor; simpl; intuition discriminate.
Defined.

Lemma empty_tables_are_reported_witness :
  count_logs utils_logger WARNING
    (trace
       (snd (merge_measure_types
               [("Base", Some base_lineups); ("Scoring", None);
                ("Misc", Some keyless_table)] "GROUP_ID" initial_world)))
  = count_logs utils_logger WARNING (trace initial_world)
    + List.length
        (filter reported_empty
           [("Base", Some base_lineups); ("Scoring", None);
            ("Misc", Some keyless_table)])
  /\ (Forall (fun item => passed_over "GROUP_ID" item = true)
        [("Base", Some base_lineups); ("Scoring", None);
         ("Misc", Some keyless_table)] ->
      fst (merge_measure_types
             [("Base", Some base_lineups); ("Scoring", None);
              ("Misc", Some keyless_table)] "GROUP_ID" initial_world)
      = Ok pd.DataFrame_new).
Proof.
  apply (@merged_table.empty_tables_are_reported
           [("Base", Some base_lineups); ("Scoring", None);
            ("Misc", Some keyless_table)] "GROUP_ID" initial_world).
  discriminate.
Defined.

(* ===================================================================== *)
(** * What the fetchers and the orchestrator are confined to *)
(* ===================================================================== *)

Module confinement.
Import retry_facts.

Section Steps.
Variable ok : Event -> Prop.

Lemma extends_refl w : extends ok w w.
Proof.
  exists []. rewrite app_nil_r. simpl. repeat split; auto; lia.
Qed.

Lemma extends_trans w w1 w2 :
  extends ok w w1 -> extends ok w1 w2 -> extends ok w w2.
Proof.
  intros (t1 & T1 & F1 & C1 & S1) (t2 & T2 & F2 & C2 & S2).
  exists (t1 ++ t2). rewrite T2, T1, app_assoc, requests_app, length_app.
  repeat split; [apply Forall_app; now split | lia | lia].
Qed.

Lemma returns_ret (A : Type) (Q : A -> Prop) (a : A) :
  Q a -> returns ok Q (ret a).
Proof.
  intros H w. exists a, w. split; [reflexivity|]. split; [apply extends_refl|].
  exact H.
Qed.

Lemma returns_bind (A B : Type) (P : A -> Prop) (Q : B -> Prop)
  (c : M A) (k : A -> M B) :
  returns ok P c -> (forall a, P a -> returns ok Q (k a)) ->
  returns ok Q (bind c k).
Proof.
  intros Hc Hk w. destruct (Hc w) as (a & w1 & E1 & X1 & Pa).
  destruct (Hk a Pa w1) as (b & w2 & E2 & X2 & Qb).
  exists b, w2. unfold bind. rewrite E1. split; [exact E2|].
  split; [now apply (extends_trans X1) | exact Qb].
Qed.

Lemma returns_weaken (A : Type) (P Q : A -> Prop) (c : M A) :
  returns ok P c -> (forall a, P a -> Q a) -> returns ok Q c.
Proof.
  intros Hc H w. destruct (Hc w) as (a & w1 & E1 & X1 & Pa).
  exists a, w1. auto.
Qed.

Lemma returns_may_raise (A : Type) (Q : A -> Prop) (c : M A) :
  returns ok Q c -> may_raise ok Q c.
Proof.
  intros Hc w. destruct (Hc w) as (a & w1 & E1 & X1 & Pa).
  exists (Ok a), w1. auto.
Qed.

Lemma may_raise_bind (A B : Type) (P : A -> Prop) (Q : B -> Prop)
  (c : M A) (k : A -> M B) :
  may_raise ok P c -> (forall a, P a -> may_raise ok Q (k a)) ->
  may_raise ok Q (bind c k).
Proof.
  intros Hc Hk w. destruct (Hc w) as (out & w1 & E1 & X1 & Po).
  unfold bind. rewrite E1. destruct out as [a | exc | code].
  - destruct (Hk a Po w1) as (out2 & w2 & E2 & X2 & Qo).
    exists out2, w2. split; [exact E2|].
    split; [now apply (extends_trans X1) | exact Qo].
  - exists (Raise exc), w1. auto.
  - destruct Po.
Qed.

Lemma returns_try (A : Type) (Q : A -> Prop) (c : M A)
  (h : Exception -> M A) :
  may_raise ok Q c -> (forall exc, returns ok Q (h exc)) ->
  returns ok Q (try_except c h).
Proof.
  intros Hc Hh w. destruct (Hc w) as (out & w1 & E1 & X1 & Po).
  unfold try_except. rewrite E1. destruct out as [a | exc | code].
  - exists a, w1. auto.
  - destruct (Hh exc w1) as (a & w2 & E2 & X2 & Qa).
    exists a, w2. split; [exact E2|].
    split; [now apply (extends_trans X1) | exact Qa].
  - destruct Po.
Qed.

Lemma returns_for_fold (A St : Type) (Inv : St -> Prop)
  (body : A -> St -> M St) (xs : list A) :
  (forall x s, In x xs -> Inv s -> returns ok Inv (body x s)) ->
  forall s, Inv s -> returns ok Inv (for_fold xs body s).
Proof.
  induction xs as [|x xs IH]; intros Hb s Hs.
  - now apply returns_ret.
  - cbn [for_fold]. apply returns_bind with (P := Inv).
    + apply Hb; [now left | exact Hs].
    + intros s' Hs'. apply IH; [|exact Hs'].
      intros y s0 Hy. apply Hb. now right.
Qed.

Lemma steady_ret (A : Type) (a : A) : steady ok (ret a).
Proof. now apply returns_ret. Qed.

Lemma steady_bind (A B : Type) (c : M A) (k : A -> M B) :
  steady ok c -> (forall a, steady ok (k a)) -> steady ok (bind c k).
Proof.
  intros Hc Hk. apply returns_bind with (P := fun _ => True); [exact Hc|].
  intros a _. apply Hk.
Qed.

Lemma steady_try (A : Type) (c : M A) (h : Exception -> M A) :
  may_raise ok (fun _ => True) c -> (forall exc, steady ok (h exc)) ->
  steady ok (try_except c h).
Proof. apply returns_try. Qed.

Lemma steady_for_fold (A St : Type) (body : A -> St -> M St) (xs : list A) :
  (forall x s, steady ok (body x s)) -> forall s, steady ok (for_fold xs body s).
Proof.
  intros Hb s.
  apply (@returns_for_fold A St (fun _ => True) body xs); [|exact I].
  intros x s0 _ _. apply Hb.
Qed.

Lemma steady_for_each (A : Type) (body : A -> M unit) (xs : list A) :
  (forall x, steady ok (body x)) -> steady ok (for_each xs body).
Proof.
  intros Hb. induction xs as [|x xs IH]; cbn [for_each].
  - apply steady_ret.
  - apply steady_bind; [apply Hb | intros _; exact IH].
Qed.

Lemma raises_bind (A B : Type) (c : M A) (k : A -> M B) :
  may_raise ok (fun _ => True) c ->
  (forall a, may_raise ok (fun _ => True) (k a)) ->
  may_raise ok (fun _ => True) (bind c k).
Proof.
  intros Hc Hk. apply may_raise_bind with (P := fun _ => True); [exact Hc|].
  intros a _. apply Hk.
Qed.

Lemma steady_raises (A : Type) (c : M A) :
  steady ok c -> may_raise ok (fun _ => True) c.
Proof. apply returns_may_raise. Qed.

End Steps.


Lemma raises_try ok (A : Type) (Q : A -> Prop) (c : M A)
  (h : Exception -> M A) :
  may_raise ok Q c -> (forall exc, may_raise ok Q (h exc)) ->
  may_raise ok Q (try_except c h).
Proof.
  intros Hc Hh w. destruct (Hc w) as (out & w1 & E1 & X1 & Po).
  unfold try_except. rewrite E1. destruct out as [a | exc | code].
  - exists (Ok a), w1. auto.
  - destruct (Hh exc w1) as (out2 & w2 & E2 & X2 & Qo).
    exists out2, w2. split; [exact E2|].
    split; [now apply (extends_trans X1) | exact Qo].
  - destruct Po.
Qed.

Lemma raises_raise ok (A : Type) (Q : A -> Prop) exc :
  may_raise ok Q (raise (A := A) exc).
Proof.
  intros w. exists (Raise exc), w. split; [reflexivity|].
  split; [apply extends_refl | exact I].
Qed.

Section Confined.
Variable config : Config.
Variable api : nat -> Endpoint -> Kwargs -> Response.
Variable teams : list (Z * string).

(** What the part of the pipeline under study may do; it may always log
    and sleep. *)
Variable ok : Event -> Prop.
Hypothesis ok_log : forall lg lvl msg args, ok (Log lg lvl msg args).
Hypothesis ok_sleep : forall secs, ok (Sleep secs).

Lemma extends_event e w :
  ok e -> requests [e] = [] ->
  extends ok w (mkWorld (_api_call_count w) (sent w) (log_level w)
                        (trace w ++ [e])).
Proof.
  intros He Hr. exists [e]. cbn [trace _api_call_count sent]. rewrite Hr.
  repeat split; [now constructor | simpl; lia | simpl; lia].
Qed.

Lemma steady_log lg lvl msg args : steady ok (log lg lvl msg args).
Proof.
  intros w. unfold log.
  destruct (level_rank (log_level w) <=? level_rank lvl).
  - eexists; eexists. split; [reflexivity|]. split; [|exact I].
    apply extends_event; [apply ok_log | reflexivity].
  - exists tt, w. split; [reflexivity|]. split; [apply extends_refl | exact I].
Qed.

Lemma steady_sleep secs : steady ok (time_sleep secs).
Proof.
  intros w. eexists; eexists. split; [reflexivity|]. split; [|exact I].
  apply extends_event; [apply ok_sleep | reflexivity].
Qed.

Lemma steady_save df path :
  ok (WriteCsv path df) -> steady ok (save_dataframe df path).
Proof.
  intros H. unfold save_dataframe.
  apply steady_bind; [|intros _; apply steady_log].
  intros w. eexists; eexists. split; [reflexivity|]. split; [|exact I].
  apply extends_event; [exact H | reflexivity].
Qed.

(** One request: the counter, the call, and what follows it. *)
Lemma raises_request (A : Type) (Q : A -> Prop) ep params
  (k : EndpointObj -> M A) :
  ok (Request ep params) ->
  (forall obj, may_raise ok Q (k obj)) ->
  may_raise ok Q
    (_increment_api_call_count ;;
     result <- instantiate api ep params ;; k result).
Proof.
  intros Hr Hk w. unfold bind, _increment_api_call_count, instantiate.
  cbn [sent _api_call_count log_level trace].
  set (w1 := mkWorld (_api_call_count w + 1) (sent w + 1) (log_level w)
                     (trace w ++ [Request ep params])).
  assert (X : extends ok w w1).
  { exists [Request ep params]. repeat split. now constructor. }
  destruct (api (sent w) ep params) as [exc|obj].
  - exists (Raise exc), w1. auto.
  - destruct (Hk obj w1) as (out & w2 & E2 & X2 & Qo).
    exists out, w2. split; [exact E2|].
    split; [now apply (extends_trans X) | exact Qo].
Qed.

Lemma raises_attempt_once ep params retries base_delay attempt :
  ok (Request ep (with_timeout config params)) ->
  may_raise ok (fun _ => True)
    (attempt_once config api ep params retries base_delay attempt).
Proof.
  intros Hr. unfold attempt_once. apply raises_try.
  - apply raises_request; [exact Hr|]. intros obj. apply steady_raises.
    apply steady_bind; [apply steady_log | intros _; apply steady_ret].
  - intros exc. destruct (attempt <? retries - 1).
    + apply steady_raises.
      apply steady_bind; [apply steady_log | intros _].
      apply steady_bind; [apply steady_sleep | intros _; apply steady_ret].
    + apply raises_bind; [apply steady_raises, steady_log | intros _].
      apply raises_raise.
Qed.

Lemma raises_retry ep params retries base_delay :
  ok (Request ep (with_timeout config params)) ->
  may_raise ok (fun _ => True)
    (api_call_with_retry config api ep params retries base_delay).
Proof.
  intros Hr. unfold api_call_with_retry.
  induction (seq 0 retries) as [|attempt range IH]; cbn [attempts].
  - apply raises_raise.
  - apply raises_bind; [now apply raises_attempt_once|].
    intros [result|]; [apply steady_raises, steady_ret | exact IH].
Qed.

Lemma steady_collect_step key item st : steady ok (collect_step key item st).
Proof.
  unfold collect_step. destruct (snd item) as [df|].
  - destruct (pd.empty df).
    + apply steady_bind; [apply steady_log | intros _; apply steady_ret].
    + destruct (is_nil _ || negb _); apply steady_ret.
  - apply steady_bind; [apply steady_log | intros _; apply steady_ret].
Qed.

Lemma steady_merge d key : steady ok (merge_measure_types d key).
Proof.
  unfold merge_measure_types. destruct (is_nil d); [apply steady_ret|].
  apply steady_bind.
  - apply steady_for_fold. intros x s. apply steady_collect_step.
  - intros st. destruct (fst st); [apply steady_ret|].
    apply steady_bind; [apply steady_log | intros _; apply steady_ret].
Qed.

Lemma raises_api_call ep params :
  ok (Request ep (with_timeout config params)) ->
  may_raise ok (fun _ => True) (api_call config api ep params).
Proof. intros H. unfold api_call. now apply raises_retry. Qed.

(** The steps the fetchers are made of. *)
Ltac steady_step :=
  first
    [ assumption
    | apply steady_ret
    | apply steady_log
    | apply steady_sleep
    | apply steady_merge
    | apply steady_save;
      solve [auto
            | match goal with
              | H : forall df, ok (WriteCsv _ df) |- _ => apply H
              end]
    | apply raises_api_call; solve [auto]
    | apply raises_retry; solve [auto]
    | apply steady_bind; [| intros ?]
    | apply steady_for_fold; intros ? ?
    | apply steady_for_each; intros ?
    | apply steady_try; [| intros ?]
    | apply raises_bind; [| intros ?]
    | match goal with
      | |- steady _ (if ?b then _ else _) => destruct b
      | |- steady _ (match ?x with _ => _ end) => destruct x
      | |- may_raise _ _ (if ?b then _ else _) => destruct b
      | |- may_raise _ _ (match ?x with _ => _ end) => destruct x
      end
    | apply steady_raises
    | progress
        unfold pace, concat_and_save, clutch_point, on_off_point,
          play_type_point, hustle_call, hustle_save, tracking_point,
          defense_point, estimated_point ].

Ltac steady_tac := repeat steady_step.

Lemma steady_concat_and_save frames none_msg filename done_msg :
  (forall df, ok (WriteCsv (DATA_DIR config ++ "/" ++ filename) df)) ->
  steady ok (concat_and_save config frames none_msg filename done_msg).
Proof. intros H. unfold concat_and_save. steady_tac. Qed.

Lemma steady_clutch_point season season_type frames :
  (forall kwargs,
      ok (Request LeagueDashTeamClutch (with_timeout config kwargs))) ->
  steady ok (clutch_point config api season season_type frames).
Proof. intros H. unfold clutch_point, pace. steady_tac. Qed.


(** ** The supplementary fetchers *)

Lemma steady_fetch_clutch season :
  (forall kwargs,
      ok (Request LeagueDashTeamClutch (with_timeout config kwargs))) ->
  (forall df, ok (WriteCsv (data_file config "clutch" season) df)) ->
  steady ok (fetch_clutch config api season).
Proof. intros H F. unfold fetch_clutch. steady_tac. Qed.

Lemma steady_fetch_on_off season :
  (forall kwargs,
      ok (Request TeamPlayerOnOffSummary (with_timeout config kwargs))) ->
  (forall df, ok (WriteCsv (data_file config "on_off" season) df)) ->
  steady ok (fetch_on_off config api teams season).
Proof. intros H F. unfold fetch_on_off. steady_tac. Qed.

Lemma steady_fetch_play_types season :
  (forall kwargs,
      ok (Request SynergyPlayTypes (with_timeout config kwargs))) ->
  (forall df, ok (WriteCsv (data_file config "play_types" season) df)) ->
  steady ok (fetch_play_types config api season).
Proof. intros H F. unfold fetch_play_types, play_type_sweep. steady_tac. Qed.

Lemma steady_fetch_hustle season :
  (forall kwargs,
      ok (Request LeagueHustleStatsPlayer (with_timeout config kwargs))) ->
  (forall kwargs,
      ok (Request LeagueHustleStatsTeam (with_timeout config kwargs))) ->
  (forall df, ok (WriteCsv (data_file config "hustle_players" season) df)) ->
  (forall df, ok (WriteCsv (data_file config "hustle_teams" season) df)) ->
  steady ok (fetch_hustle config api season).
Proof. intros H1 H2 F1 F2. unfold fetch_hustle. steady_tac. Qed.

Lemma steady_fetch_tracking season :
  (forall kwargs,
      ok (Request LeagueDashPtStats (with_timeout config kwargs))) ->
  (forall df, ok (WriteCsv (data_file config "tracking" season) df)) ->
  steady ok (fetch_tracking config api season).
Proof. intros H F. unfold fetch_tracking. steady_tac. Qed.

Lemma steady_fetch_defense_tracking season :
  (forall kwargs,
      ok (Request LeagueDashPtDefend (with_timeout config kwargs))) ->
  (forall df, ok (WriteCsv (data_file config "defense_tracking" season) df)) ->
  steady ok (fetch_defense_tracking config api season).
Proof. intros H F. unfold fetch_defense_tracking. steady_tac. Qed.

Lemma steady_fetch_estimated_metrics season :
  (forall kwargs,
      ok (Request PlayerEstimatedMetrics (with_timeout config kwargs))) ->
  (forall df,
      ok (WriteCsv (data_file config "estimated_metrics" season) df)) ->
  steady ok (fetch_estimated_metrics config api season).
Proof. intros H F. unfold fetch_estimated_metrics. steady_tac. Qed.


(** ** The lineup fetcher *)

Lemma keys_dict_set (V : Type) k (v : V) d k' :
  In k' (map fst (dict_set Z.eqb k v d)) -> k' = k \/ In k' (map fst d).
Proof.
  induction d as [|[k0 v0] d IH]; cbn [dict_set map fst].
  - intros [<-|[]]. now left.
  - destruct (Z.eqb k k0); cbn [map fst].
    + intros [<-|H]; [now left | right; now right].
    + intros [<-|H]; [right; now left|].
      destruct (IH H) as [->|H']; [now left | right; now right].
Qed.

Lemma keys_dict_append (V : Type) k (x : V) d :
  map fst (dict_append Z.eqb k x d) = map fst d.
Proof.
  unfold dict_append. rewrite map_map. apply map_ext.
  intros [k0 v0]. cbn [fst]. destruct (Z.eqb k k0); reflexivity.
Qed.

Lemma keys_of_accumulators (V : Type) (gqs : list Z) :
  forall (d : list (Z * list V)) k,
    In k (map fst (fold_left (fun d gq => dict_set Z.eqb gq [] d) gqs d)) ->
    In k gqs \/ In k (map fst d).
Proof.
  induction gqs as [|gq gqs IH]; intros d k H; cbn [fold_left] in H.
  - now right.
  - destruct (IH _ _ H) as [H1|H1]; [left; now right|].
    destruct (keys_dict_set _ _ _ _ H1) as [->|H2]; [left; now left | now right].
Qed.

Lemma steady_fetch_all_lineups season season_type gq per_mode mt :
  ok (Request LeagueDashLineups
        (with_timeout config
           (lineups_params season season_type gq per_mode mt))) ->
  steady ok (fetch_all_lineups config api season season_type gq per_mode mt).
Proof. intros H. unfold fetch_all_lineups. steady_tac. Qed.

Lemma steady_fetch_measure_frames season season_type gq per_mode :
  (forall mt,
      In mt (MEASURE_TYPES config) ->
      ok (Request LeagueDashLineups
            (with_timeout config
               (lineups_params season season_type gq per_mode mt)))) ->
  steady ok (fetch_measure_frames config api season season_type gq per_mode).
Proof.
  intros H. unfold fetch_measure_frames.
  apply (@returns_for_fold ok _ _ (fun _ => True)); [|exact I].
  intros mt mf Hin _. unfold measure_frames_step.
  apply steady_bind; [|intros df; steady_tac].
  apply steady_fetch_all_lineups. now apply H.
Qed.

Lemma returns_lineup_combo season season_type gq per_mode state :
  (forall mt,
      In mt (MEASURE_TYPES config) ->
      ok (Request LeagueDashLineups
            (with_timeout config
               (lineups_params season season_type gq per_mode mt)))) ->
  incl (map fst (fst state)) (GROUP_QUANTITIES config) ->
  returns ok
    (fun state' => incl (map fst (fst state')) (GROUP_QUANTITIES config))
    (lineup_combo config api teams season season_type gq per_mode state).
Proof.
  intros H Hs. unfold lineup_combo.
  apply returns_bind with (P := fun _ => True); [apply steady_log|].
  intros _ _.
  apply returns_bind with (P := fun _ => True);
    [now apply steady_fetch_measure_frames|].
  intros mf _. destruct (is_nil mf).
  - apply returns_bind with (P := fun _ => True); [apply steady_log|].
    intros _ _. now apply returns_ret.
  - apply returns_bind with (P := fun _ => True); [apply steady_merge|].
    intros merged _. destruct (pd.empty merged); [now apply returns_ret|].
    apply returns_bind with (P := fun _ => True); [apply steady_sleep|].
    intros _ _. apply returns_ret. cbn [fst].
    now rewrite keys_dict_append.
Qed.

Lemma steady_fetch_and_merge_lineups season :
  lineups_allowed config season ok ->
  steady ok (fetch_and_merge_lineups config api teams season).
Proof.
  intros [H F]. unfold fetch_and_merge_lineups.
  apply returns_bind
    with (P := fun state => incl (map fst (fst state))
                                 (GROUP_QUANTITIES config)).
  - apply returns_for_fold
      with (Inv := fun state => incl (map fst (fst state))
                                     (GROUP_QUANTITIES config)).
    + intros season_type s Hst Hs. apply returns_for_fold; [|exact Hs].
      intros gq s1 Hgq Hs1. apply returns_for_fold; [|exact Hs1].
      intros per_mode s2 Hpm Hs2. apply returns_lineup_combo; [|exact Hs2].
      intros mt Hmt. now apply H.
    + cbn [fst]. intros k Hk.
      destruct (keys_of_accumulators _ _ _ Hk) as [Hin|[]]. exact Hin.
  - intros state Hs.
    apply (@returns_for_fold ok _ _ (fun _ => True)); [|exact I].
    intros [gq frames] results Hin _. cbn [fst snd].
    destruct (is_nil frames); [steady_tac|]. cbv zeta.
    apply steady_bind; [|intros _; steady_tac].
    apply steady_save. apply F. apply Hs. apply in_map_iff.
    now exists (gq, frames).
Qed.

(** ** The orchestrator *)

Lemma steady_health_check season :
  ok (Request LeagueDashLineups
        (with_timeout config (health_check_params season))) ->
  steady ok (health_check config api season).
Proof. intros H. unfold health_check, health_check_banner. steady_tac. Qed.

Lemma steady_run_section name fn :
  may_raise ok (fun _ => True) fn -> steady ok (_run_section name fn).
Proof. intros H. unfold _run_section, section_banner. steady_tac. Qed.

Lemma steady_record_section name key fn files_ state :
  may_raise ok (fun _ => True) fn ->
  steady ok (record_section name key fn files_ state).
Proof.
  intros H. unfold record_section.
  apply steady_bind; [now apply steady_run_section | intros r; steady_tac].
Qed.

Lemma raises_as_section (A : Type) (f : M A) (to_obj : A -> PyObj) :
  steady ok f -> may_raise ok (fun _ => True) (as_section f to_obj).
Proof. intros H. unfold as_section. steady_tac. Qed.

Lemma steady_get_api_call_count : steady ok get_api_call_count.
Proof.
  intros w. exists (_api_call_count w), w. split; [reflexivity|].
  split; [apply extends_refl | exact I].
Qed.

Lemma steady_print_summary results files_written :
  steady ok (_print_summary results files_written).
Proof.
  unfold _print_summary.
  apply steady_bind; [apply steady_get_api_call_count | intros n].
  steady_tac.
Qed.

Lemma steady_setup_logging level : steady ok (setup_logging level).
Proof.
  intros w. eexists; eexists. split; [reflexivity|]. split; [|exact I].
  exists []. cbn [trace _api_call_count sent]. rewrite app_nil_r.
  repeat split; auto; simpl; lia.
Qed.

Lemma ends_bind (A B : Type) (P : A -> Prop) (Q : Outcome B -> Prop)
  (c : M A) (k : A -> M B) :
  returns ok P c -> (forall a, P a -> ends ok Q (k a)) ->
  ends ok Q (bind c k).
Proof.
  intros Hc Hk w. destruct (Hc w) as (a & w1 & E1 & X1 & Pa).
  destruct (Hk a Pa w1) as (out & w2 & E2 & X2 & Qo).
  exists out, w2. unfold bind. rewrite E1. split; [exact E2|].
  split; [now apply (extends_trans X1) | exact Qo].
Qed.

Lemma steady_ends (A : Type) (Q : Outcome A -> Prop) (c : M A) :
  steady ok c -> (forall a, Q (Ok a)) -> ends ok Q c.
Proof.
  intros Hc HQ w. destruct (Hc w) as (a & w1 & E1 & X1 & _).
  exists (Ok a), w1. auto.
Qed.

(** The sections of a run that is not a dry run. *)
Lemma steady_sections args :
  (supplementary_only args = false ->
   lineups_allowed config (season args) ok) ->
  (lineups_only args = false ->
   supplementary_allowed config (season args) ok) ->
  steady ok
    (state <-
       (if negb (supplementary_only args) then
          state <-
            record_section "Lineups (5/3/2-man)" "Lineups"
              (as_section (fetch_and_merge_lineups config api teams
                             (season args))
                 (fun d => PyDict (map (fun kv => PyFrame (snd kv)) d)))
              (map (fun gq =>
                      (DATA_DIR config ++ "/lineups_" ++ str_of_Z gq
                       ++ "man_" ++ season args ++ ".csv")%string)
                   (GROUP_QUANTITIES config))
              ([], []) ;;
          time_sleep (API_ENDPOINT_DELAY config) ;;
          ret state
        else ret ([], [])) ;;
     state <-
       (if negb (lineups_only args) then
          state <-
            record_section "On/Off Court" "On/Off"
              (as_section (fetch_on_off config api teams (season args))
                          opt_frame)
              [data_file config "on_off" (season args)] state ;;
          time_sleep (API_ENDPOINT_DELAY config) ;;
          state <-
            record_section "Clutch" "Clutch"
              (as_section (fetch_clutch config api (season args)) opt_frame)
              [data_file config "clutch" (season args)] state ;;
          time_sleep (API_ENDPOINT_DELAY config) ;;
          state <-
            record_section "Play Types" "Play Types"
              (as_section (fetch_play_types config api (season args))
                          opt_frame)
              [data_file config "play_types" (season args)] state ;;
          time_sleep (API_ENDPOINT_DELAY config) ;;
          state <-
            record_section "Hustle Stats" "Hustle"
              (as_section (fetch_hustle config api (season args))
                 (fun p => PyTuple [opt_frame (fst p); opt_frame (snd p)]))
              [data_file config "hustle_players" (season args);
               data_file config "hustle_teams" (season args)] state ;;
          time_sleep (API_ENDPOINT_DELAY config) ;;
          state <-
            record_section "Player Tracking" "Tracking"
              (as_section (fetch_tracking config api (season args))
                          opt_frame)
              [data_file config "tracking" (season args)] state ;;
          time_sleep (API_ENDPOINT_DELAY config) ;;
          state <-
            record_section "Defense Tracking" "Defense Tracking"
              (as_section (fetch_defense_tracking config api (season args))
                          opt_frame)
              [data_file config "defense_tracking" (season args)] state ;;
          time_sleep (API_ENDPOINT_DELAY config) ;;
          record_section "Estimated Metrics" "Estimated Metrics"
            (as_section (fetch_estimated_metrics config api (season args))
                        opt_frame)
            [data_file config "estimated_metrics" (season args)] state
        else ret state) ;;
     _print_summary (fst state) (snd state)).
Proof.
  intros HL HS.
  apply steady_bind.
  { destruct (supplementary_only args); cbn [negb]; [apply steady_ret|].
    apply steady_bind; [|intros st; steady_tac].
    apply steady_record_section, raises_as_section.
    apply steady_fetch_and_merge_lineups. now apply HL. }
  intros state. apply steady_bind; [|intros st; apply steady_print_summary].
  destruct (lineups_only args); cbn [negb]; [apply steady_ret|].
  destruct (HS eq_refl) as [S1 S2].
  assert (F : forall stem, In stem supplementary_stems ->
                forall df, ok (WriteCsv (data_file config stem (season args))
                                        df)).
  { intros stem Hin df. now apply S2. }
  unfold supplementary_stems in F.
  repeat (apply steady_bind;
          [first [apply steady_sleep
                 | apply steady_record_section, raises_as_section]
          | intros ?]);
    try (apply steady_record_section, raises_as_section).
  - apply steady_fetch_on_off;
      [intros; apply S1; discriminate | apply F; simpl; tauto].
  - apply steady_fetch_clutch;
      [intros; apply S1; discriminate | apply F; simpl; tauto].
  - apply steady_fetch_play_types;
      [intros; apply S1; discriminate | apply F; simpl; tauto].
  - apply steady_fetch_hustle;
      [intros; apply S1; discriminate | intros; apply S1; discriminate
      | apply F; simpl; tauto | apply F; simpl; tauto].
  - apply steady_fetch_tracking;
      [intros; apply S1; discriminate | apply F; simpl; tauto].
  - apply steady_fetch_defense_tracking;
      [intros; apply S1; discriminate | apply F; simpl; tauto].
  - apply steady_fetch_estimated_metrics;
      [intros; apply S1; discriminate | apply F; simpl; tauto].
Qed.

Lemma run_confined argv args :
  parse_known argv (mkNamespace (SEASON config) false false false false)
  = Ok args ->
  ok (Request LeagueDashLineups
        (with_timeout config (health_check_params (season args)))) ->
  (dry_run args = false -> supplementary_only args = false ->
   lineups_allowed config (season args) ok) ->
  (dry_run args = false -> lineups_only args = false ->
   supplementary_allowed config (season args) ok) ->
  ends ok (fun out => out = Ok tt \/ (out = Exit 1 /\ dry_run args = true))
       (run config api teams argv).
Proof.
  intros Hp Hh HL HS. unfold run.
  assert (P : returns ok (fun a => a = args) (_parse_args config argv)).
  { intros w. exists args, w. unfold _parse_args. rewrite Hp.
    split; [reflexivity|]. split; [apply extends_refl | reflexivity]. }
  apply ends_bind with (P := fun a => a = args); [exact P|].
  intros a ->.
  apply ends_bind with (P := fun _ => True); [apply steady_setup_logging|].
  intros _ _.
  apply ends_bind with (P := fun _ => True); [apply steady_log|].
  intros _ _.
  apply ends_bind with (P := fun _ => True); [apply steady_log|].
  intros _ _.
  apply ends_bind with (P := fun _ => True); [apply steady_log|].
  intros _ _.
  apply ends_bind with (P := fun _ => True);
    [now apply steady_health_check|].
  intros healthy _.
  destruct (dry_run args) eqn:D.
  - destruct healthy; cbn [negb].
    + apply steady_ends; [|intros []; now left]. steady_tac.
    + intros w.
      destruct (steady_log main_logger ERROR
                  "Dry-run health check failed. Exiting." [] w)
        as ([] & w1 & E1 & X1 & _).
      exists (Exit 1), w1. unfold bind. rewrite E1.
      split; [reflexivity|]. split; [exact X1|]. right. now split.
  - apply steady_ends; [|intros []; now left].
    apply steady_bind; [destruct healthy; cbn [negb]; steady_tac|].
    intros _. apply steady_sections.
    + intros Hs. now apply HL.
    + intros Hl. now apply HS.
Qed.

(** ** The table a fetcher returns and the file it writes *)

(** [ok] lets no file be written. *)
Hypothesis no_file : forall path df, ~ ok (WriteCsv path df).

Lemma extends_no_file w w' :
  extends ok w w' -> files (trace w') = files (trace w).
Proof.
  intros (t & T & F & _). rewrite T, files_app. clear T.
  rewrite <- (app_nil_r (files (trace w))) at 2. f_equal.
  induction F as [|e t He Ht IH]; [reflexivity|].
  destruct e as [lg lvl msg args | secs | ep params | path df];
    [exact IH | exact IH | exact IH | now apply no_file in He].
Qed.

Lemma nonempty_has_rows f : pd.empty f = false -> 0 < pd.len f.
Proof.
  unfold pd.empty, pd.len. intros H. apply orb_false_iff in H.
  destruct H as [_ H]. apply Nat.eqb_neq in H. lia.
Qed.

Lemma concat_has_rows frames :
  frames <> [] -> Forall (fun f => pd.empty f = false) frames ->
  0 < pd.len (pd.concat frames).
Proof.
  intros Hn Hf. destruct frames as [|f fs]; [congruence|].
  inversion Hf as [|? ? He _]; subst. apply nonempty_has_rows in He.
  unfold pd.len, pd.concat in *. cbn [pd.rows flat_map].
  rewrite length_app, length_map. lia.
Qed.

Lemma files_log lg lvl msg args w :
  exists w', log lg lvl msg args w = (Ok tt, w')
             /\ files (trace w') = files (trace w).
Proof.
  destruct (log_did lg lvl msg args w) as (w' & E & D).
  exists w'. split; [exact E|]. now destruct D as (_ & _ & _ & _ & _ & F).
Qed.

Lemma concat_and_save_files frames none_msg filename done_msg :
  writes_what_it_returns (DATA_DIR config ++ "/" ++ filename)
    (concat_and_save config frames none_msg filename done_msg).
Proof.
  intros w. unfold concat_and_save.
  pose proof (fun g => filter_In (fun f => negb (pd.empty f)) g frames)
    as Hin.
  destruct (filter (fun f => negb (pd.empty f)) frames) as [|f fs] eqn:Ef;
    cbn [is_nil].
  - unfold bind.
    destruct (files_log supp_logger ERROR none_msg [] w) as (w1 & E1 & F1).
    rewrite E1. exists None, w1. split; [reflexivity|].
    split; [now rewrite F1, app_nil_r | exact I].
  - unfold save_dataframe. unfold bind at 1. unfold bind at 1, emit.
    set (df := pd.concat (f :: fs)).
    set (w1 := mkWorld _ _ _ _).
    assert (F1 : files (trace w1)
                 = files (trace w)
                   ++ [((DATA_DIR config ++ "/" ++ filename)%string, df)]).
    { unfold w1. cbn [trace]. now rewrite files_app. }
    clearbody w1. unfold bind.
    match goal with
    | |- context [log ?a ?b ?c ?d w1] =>
        destruct (files_log a b c d w1) as (w2 & E2 & F2); rewrite E2
    end.
    match goal with
    | |- context [log ?a ?b ?c ?d w2] =>
        destruct (files_log a b c d w2) as (w3 & E3 & F3); rewrite E3
    end.
    exists (Some df), w3. split; [reflexivity|].
    split; [now rewrite F3, F2, F1|].
    apply concat_has_rows; [discriminate|].
    apply Forall_forall. intros g Hg. apply Hin in Hg.
    destruct Hg as [_ Hg]. now apply negb_true_iff in Hg.
Qed.

(** The shape of the single-table fetchers: a line in the log, the
    sweep, then the save. *)
Lemma saves_what_it_returns (St : Type) (sweep : M St)
  (frames_of : St -> list pd.DataFrame) lg lvl msg args none_msg filename
  done_msg :
  steady ok sweep ->
  writes_what_it_returns (DATA_DIR config ++ "/" ++ filename)
    (log lg lvl msg args ;;
     state <- sweep ;;
     concat_and_save config (frames_of state) none_msg filename done_msg).
Proof.
  intros Hs w. unfold bind at 1.
  destruct (files_log lg lvl msg args w) as (w1 & E1 & F1). rewrite E1.
  unfold bind. destruct (Hs w1) as (state & w2 & E2 & X2 & _). rewrite E2.
  apply extends_no_file in X2.
  destruct (concat_and_save_files (frames_of state) none_msg filename
              done_msg w2) as (r & w3 & E3 & F3 & R3).
  exists r, w3. split; [exact E3|]. split; [|exact R3].
  now rewrite F3, X2, F1.
Qed.

Lemma fetch_on_off_saves season :
  (forall kwargs,
      ok (Request TeamPlayerOnOffSummary (with_timeout config kwargs))) ->
  writes_what_it_returns (data_file config "on_off" season)
    (fetch_on_off config api teams season).
Proof.
  intros H. unfold fetch_on_off. cbv zeta.
  apply saves_what_it_returns with (frames_of := fst). steady_tac.
Qed.

Lemma fetch_clutch_saves season :
  (forall kwargs,
      ok (Request LeagueDashTeamClutch (with_timeout config kwargs))) ->
  writes_what_it_returns (data_file config "clutch" season)
    (fetch_clutch config api season).
Proof.
  intros H. unfold fetch_clutch.
  apply saves_what_it_returns with (frames_of := fun frames => frames).
  steady_tac.
Qed.

Lemma fetch_play_types_saves season :
  (forall kwargs,
      ok (Request SynergyPlayTypes (with_timeout config kwargs))) ->
  writes_what_it_returns (data_file config "play_types" season)
    (fetch_play_types config api season).
Proof.
  intros H. unfold fetch_play_types.
  apply saves_what_it_returns with (frames_of := fst).
  unfold play_type_sweep. steady_tac.
Qed.

Lemma fetch_tracking_saves season :
  (forall kwargs,
      ok (Request LeagueDashPtStats (with_timeout config kwargs))) ->
  writes_what_it_returns (data_file config "tracking" season)
    (fetch_tracking config api season).
Proof.
  intros H. unfold fetch_tracking.
  apply saves_what_it_returns with (frames_of := fst). steady_tac.
Qed.

Lemma fetch_defense_tracking_saves season :
  (forall kwargs,
      ok (Request LeagueDashPtDefend (with_timeout config kwargs))) ->
  writes_what_it_returns (data_file config "defense_tracking" season)
    (fetch_defense_tracking config api season).
Proof.
  intros H. unfold fetch_defense_tracking.
  apply saves_what_it_returns with (frames_of := fst). steady_tac.
Qed.

Lemma hustle_save_files frames season what :
  Forall (fun f => pd.empty f = false) frames ->
  forall w, exists r w',
    hustle_save config frames season what w = (Ok r, w')
    /\ files (trace w')
       = files (trace w)
         ++ saved (DATA_DIR config ++ "/hustle_" ++ what ++ "_" ++ season
                   ++ ".csv") r
    /\ has_rows r.
Proof.
  intros Hf w. unfold hustle_save. destruct frames as [|f fs]; cbn [is_nil].
  - exists None, w. split; [reflexivity|].
    split; [now rewrite app_nil_r | exact I].
  - unfold save_dataframe. unfold bind at 1. unfold bind at 1, emit.
    set (df := pd.concat (f :: fs)).
    set (w1 := mkWorld _ _ _ _).
    assert (F1 : files (trace w1)
                 = files (trace w)
                   ++ [((DATA_DIR config ++ "/hustle_" ++ what ++ "_"
                         ++ season ++ ".csv")%string, df)]).
    { unfold w1. cbn [trace]. now rewrite files_app. }
    clearbody w1. unfold bind.
    match goal with
    | |- context [log ?a ?b ?c ?d w1] =>
        destruct (files_log a b c d w1) as (w2 & E2 & F2); rewrite E2
    end.
    match goal with
    | |- context [log ?a ?b ?c ?d w2] =>
        destruct (files_log a b c d w2) as (w3 & E3 & F3); rewrite E3
    end.
    exists (Some df), w3. split; [reflexivity|].
    split; [now rewrite F3, F2, F1|].
    apply concat_has_rows; [discriminate | exact Hf].
Qed.

Lemma nonempty_kept (frames : list pd.DataFrame) :
  Forall (fun f => pd.empty f = false)
         (filter (fun f => negb (pd.empty f)) frames).
Proof.
  apply Forall_forall. intros g Hg. apply filter_In in Hg.
  destruct Hg as [_ Hg]. now apply negb_true_iff in Hg.
Qed.

Lemma fetch_hustle_saves season :
  (forall kwargs,
      ok (Request LeagueHustleStatsPlayer (with_timeout config kwargs))) ->
  (forall kwargs,
      ok (Request LeagueHustleStatsTeam (with_timeout config kwargs))) ->
  forall w, exists players teams_ w',
    fetch_hustle config api season w = (Ok (players, teams_), w')
    /\ files (trace w')
       = files (trace w)
         ++ saved (data_file config "hustle_players" season) players
         ++ saved (data_file config "hustle_teams" season) teams_
    /\ has_rows players /\ has_rows teams_.
Proof.
  intros H1 H2 w. unfold fetch_hustle. unfold bind at 1.
  match goal with
  | |- context [log ?a ?b ?c ?d w] =>
      destruct (files_log a b c d w) as (w1 & E1 & F1); rewrite E1
  end.
  unfold bind at 1.
  match goal with
  | |- context [for_fold ?xs ?body ?s w1] =>
      assert (L : steady ok (for_fold xs body s)) by steady_tac;
      destruct (L w1) as (state & w2 & E2 & X2 & _); rewrite E2
  end.
  apply extends_no_file in X2. cbv zeta.
  unfold bind at 1.
  destruct (hustle_save_files season "players"
              (nonempty_kept (fst state)) w2) as (p & w3 & E3 & F3 & R3).
  rewrite E3. unfold bind at 1.
  destruct (hustle_save_files season "teams"
              (nonempty_kept (snd state)) w3) as (t & w4 & E4 & F4 & R4).
  rewrite E4.
  assert (F : files (trace w4)
              = files (trace w)
                ++ saved (data_file config "hustle_players" season) p
                ++ saved (data_file config "hustle_teams" season) t).
  { rewrite F4, F3, X2, F1, <- app_assoc. reflexivity. }
  destruct p as [pdf|], t as [tdf|].
  - exists (Some pdf), (Some tdf), w4. repeat split; auto.
  - exists (Some pdf), None, w4. repeat split; auto.
  - exists None, (Some tdf), w4. repeat split; auto.
  - unfold bind.
    match goal with
    | |- context [log ?a ?b ?c ?d w4] =>
        destruct (files_log a b c d w4) as (w5 & E5 & F5); rewrite E5
    end.
    exists None, None, w5. split; [reflexivity|]. rewrite F5.
    repeat split; auto.
Qed.

Lemma fetch_estimated_metrics_saves season :
  (forall kwargs,
      ok (Request PlayerEstimatedMetrics (with_timeout config kwargs))) ->
  writes_what_it_returns (data_file config "estimated_metrics" season)
    (fetch_estimated_metrics config api season).
Proof.
  intros H. unfold fetch_estimated_metrics.
  apply saves_what_it_returns with (frames_of := fun frames => frames).
  steady_tac.
Qed.

(** ** The tables the lineup fetcher returns and the files it writes *)

Lemma keys_dict_set_fresh (V : Type) k (v : V) d :
  map fst (dict_set Z.eqb k v d)
  = if existsb (Z.eqb k) (map fst d) then map fst d else map fst d ++ [k].
Proof.
  induction d as [|[k0 v0] d IH]; cbn [dict_set map fst existsb].
  - reflexivity.
  - destruct (Z.eqb_spec k k0) as [->|Hn]; cbn [orb map fst].
    + reflexivity.
    + rewrite IH. destruct (existsb (Z.eqb k) (map fst d)); reflexivity.
Qed.

Lemma dict_set_fresh (V : Type) k (v : V) d :
  ~ In k (map fst d) -> dict_set Z.eqb k v d = d ++ [(k, v)].
Proof.
  induction d as [|[k0 v0] d IH]; cbn [dict_set map fst app]; intros H.
  - reflexivity.
  - destruct (Z.eqb_spec k k0) as [->|Hn].
    + exfalso. apply H. now left.
    + rewrite IH; [reflexivity|]. intros Hin. apply H. now right.
Qed.

Lemma NoDup_keys_dict_set (V : Type) k (v : V) d :
  NoDup (map fst d) -> NoDup (map fst (dict_set Z.eqb k v d)).
Proof.
  intros H. rewrite keys_dict_set_fresh.
  destruct (existsb (Z.eqb k) (map fst d)) eqn:E; [exact H|].
  apply NoDup_app; [exact H | repeat constructor; intros [] |].
  intros x Hx [Hk|[]]. subst x.
  assert (E' : existsb (Z.eqb k) (map fst d) = true).
  { apply existsb_exists. exists k. split; [exact Hx | apply Z.eqb_refl]. }
  congruence.
Qed.

Lemma values_dict_set (V : Type) (P : V -> Prop) k (v : V) d :
  P v -> Forall (fun kv => P (snd kv)) d ->
  Forall (fun kv => P (snd kv)) (dict_set Z.eqb k v d).
Proof.
  intros Hv. induction 1 as [|[k0 v0] d Hx Hd IH]; cbn [dict_set].
  - repeat constructor. exact Hv.
  - destruct (Z.eqb k k0); constructor; auto.
Qed.

Lemma accumulating_start :
  accumulating config
    (fold_left (fun d gq => dict_set Z.eqb gq [] d)
               (GROUP_QUANTITIES config) []).
Proof.
  split; [|split].
  - intros k Hk. destruct (keys_of_accumulators _ _ _ Hk) as [H|[]].
    exact H.
  - assert (G : forall gqs (d : list (Z * list pd.DataFrame)),
               NoDup (map fst d) ->
               NoDup (map fst (fold_left
                                 (fun d gq => dict_set Z.eqb gq [] d)
                                 gqs d))).
    { induction gqs as [|gq gqs IH]; intros d Hd; cbn [fold_left];
        [exact Hd|]. apply IH. now apply NoDup_keys_dict_set. }
    apply G. constructor.
  - assert (G : forall gqs (d : list (Z * list pd.DataFrame)),
               Forall (fun kv => Forall (fun f => pd.empty f = false)
                                        (snd kv)) d ->
               Forall (fun kv => Forall (fun f => pd.empty f = false)
                                        (snd kv))
                      (fold_left (fun d gq => dict_set Z.eqb gq [] d)
                                 gqs d)).
    { induction gqs as [|gq gqs IH]; intros d Hd; cbn [fold_left];
        [exact Hd|]. apply IH.
      apply (@values_dict_set _ (Forall (fun f => pd.empty f = false)));
        [constructor | exact Hd]. }
    apply G. constructor.
Qed.

Lemma accumulating_append gq x acc :
  pd.empty x = false ->
  accumulating config acc ->
  accumulating config (dict_append Z.eqb gq x acc).
Proof.
  intros Hx (A1 & A2 & A3). unfold accumulating.
  rewrite keys_dict_append. split; [exact A1|]. split; [exact A2|].
  unfold dict_append. apply Forall_map.
  apply Forall_forall. intros [k fs] Hin. rewrite Forall_forall in A3.
  specialize (A3 _ Hin). cbn [fst snd] in *.
  destruct (Z.eqb gq k); cbn [snd]; [|exact A3].
  apply Forall_app. split; [exact A3 | now repeat constructor].
Qed.

Lemma assign_not_empty df c f :
  pd.empty df = false -> pd.empty (pd.assign df c f) = false.
Proof.
  unfold pd.empty, pd.assign. intros H. apply orb_false_iff in H.
  destruct H as [Hc Hr]. apply Nat.eqb_neq in Hc, Hr.
  destruct (pd.col_index c (pd.columns df)); cbn [pd.columns pd.rows];
    rewrite ?length_map, ?length_app; apply orb_false_iff;
    split; apply Nat.eqb_neq; simpl; lia.
Qed.

Lemma tag_lineups_not_empty merged season_type gq per_mode :
  pd.empty merged = false ->
  pd.empty (tag_lineups teams merged season_type gq per_mode) = false.
Proof.
  intros H. unfold tag_lineups, pd.assign_scalar.
  repeat match goal with
         | |- context [if ?b then _ else _] => destruct b
         end;
    repeat apply assign_not_empty; exact H.
Qed.

Lemma returns_lineup_combo_frames season season_type gq per_mode state :
  (forall kwargs,
      ok (Request LeagueDashLineups (with_timeout config kwargs))) ->
  accumulating config (fst state) ->
  returns ok (fun state' => accumulating config (fst state'))
    (lineup_combo config api teams season season_type gq per_mode state).
Proof.
  intros H Hs. unfold lineup_combo.
  apply returns_bind with (P := fun _ => True); [apply steady_log|].
  intros _ _.
  apply returns_bind with (P := fun _ => True).
  { apply steady_fetch_measure_frames. intros mt _. apply H. }
  intros mf _. destruct (is_nil mf).
  - apply returns_bind with (P := fun _ => True); [apply steady_log|].
    intros _ _. now apply returns_ret.
  - apply returns_bind with (P := fun _ => True); [apply steady_merge|].
    intros merged _. destruct (pd.empty merged) eqn:He;
      [now apply returns_ret|].
    apply returns_bind with (P := fun _ => True); [apply steady_sleep|].
    intros _ _. apply returns_ret. cbn [fst].
    apply accumulating_append; [|exact Hs].
    now apply tag_lineups_not_empty.
Qed.

Lemma combined_has_rows frames :
  frames <> [] -> Forall (fun f => pd.empty f = false) frames ->
  0 < pd.len (combined_lineups frames).
Proof.
  intros Hn Hf. pose proof (concat_has_rows Hn Hf) as H.
  unfold combined_lineups. cbv zeta.
  destruct (negb (is_nil _)); [|exact H].
  unfold pd.sort_values, pd.len in *. cbn [pd.rows].
  now rewrite (Permutation_length (pd_facts.sort_perm _ _)).
Qed.

(** The loop that puts the frames of each group size together, saves
    them and files them under [results]. *)
Lemma lineup_results_saved season :
  forall acc results w,
    NoDup (map fst acc) ->
    (forall k, In k (map fst acc) -> ~ In k (map fst results)) ->
    exists w',
      for_fold acc
        (fun item results =>
           let gq := fst item in
           let frames := snd item in
           if is_nil frames then
             log lineups_logger WARNING
                 "No data collected for %d-man lineups." [AInt gq] ;;
             ret results
           else
             let combined := pd.concat frames in
             let sort_cols :=
               filter (fun c => pd.has_column c combined)
                      ["team"; "SEASON_TYPE"; "PER_MODE"; "MIN"] in
             let combined :=
               if negb (is_nil sort_cols)
               then pd.sort_values combined sort_cols
                                   (lineup_ascending sort_cols)
               else combined in
             let filepath :=
               (DATA_DIR config ++ "/lineups_" ++ str_of_Z gq ++ "man_"
                ++ season ++ ".csv")%string in
             save_dataframe combined filepath ;;
             log lineups_logger INFO
                 "%d-man lineups: %d rows x %d cols -> %s"
                 [AInt gq; AInt (Z.of_nat (pd.len combined));
                  AInt (Z.of_nat (List.length (pd.columns combined)));
                  AStr filepath] ;;
             ret (dict_set Z.eqb gq combined results))
        results w
      = (Ok (results ++ lineup_results acc), w')
      /\ files (trace w')
         = files (trace w)
           ++ map (fun kv => (lineups_file config (fst kv) season, snd kv))
                  (lineup_results acc).
Proof.
  induction acc as [|[gq frames] acc IH]; intros results w Hn Hfresh.
  - exists w. cbn. now rewrite !app_nil_r.
  - cbn [map fst] in Hn, Hfresh. inversion Hn as [|? ? Hgq Hn']; subst.
    cbn [for_fold]. cbv zeta. cbn [fst snd]. unfold bind at 1.
    destruct frames as [|f fs]; cbn [is_nil].
    + unfold bind at 1.
      match goal with
      | |- context [log ?a ?b ?c ?d w] =>
          destruct (files_log a b c d w) as (w1 & E1 & F1); rewrite E1
      end.
      unfold ret at 1.
      destruct (IH results w1 Hn') as (w2 & E2 & F2).
      { intros k Hk. apply Hfresh. now right. }
      exists w2. split; [exact E2|]. now rewrite F2, F1.
    + fold (combined_lineups (f :: fs)).
      unfold save_dataframe. unfold bind at 1. unfold bind at 1.
      unfold bind at 1. unfold emit at 1.
      set (w1 := mkWorld _ _ _ _).
      assert (F1 : files (trace w1)
                   = files (trace w)
                     ++ [(lineups_file config gq season,
                          combined_lineups (f :: fs))]).
      { unfold w1. cbn [trace]. now rewrite files_app. }
      clearbody w1.
      match goal with
      | |- context [log ?a ?b ?c ?d w1] =>
          destruct (files_log a b c d w1) as (w2 & E2 & F2); rewrite E2
      end.
      unfold bind at 1.
      match goal with
      | |- context [log ?a ?b ?c ?d w2] =>
          destruct (files_log a b c d w2) as (w3 & E3 & F3); rewrite E3
      end.
      unfold ret at 1.
      rewrite dict_set_fresh by (apply Hfresh; now left).
      destruct (IH (results ++ [(gq, combined_lineups (f :: fs))]) w3 Hn')
        as (w4 & E4 & F4).
      { intros k Hk. rewrite map_app. cbn [map fst]. intros Hin.
        apply in_app_or in Hin. destruct Hin as [Hin|[<-|[]]].
        - apply (Hfresh k); [now right | exact Hin].
        - contradiction. }
      exists w4. split.
      * replace (results ++ lineup_results ((gq, f :: fs) :: acc))
          with ((results ++ [(gq, combined_lineups (f :: fs))])
                ++ lineup_results acc)
          by (rewrite <- app_assoc; reflexivity).
        exact E4.
      * rewrite F4, F3, F2, F1, <- app_assoc. reflexivity.
Qed.

Lemma lineup_results_cons gq frames acc :
  lineup_results ((gq, frames) :: acc)
  = (if is_nil frames then [] else [(gq, combined_lineups frames)])
    ++ lineup_results acc.
Proof. reflexivity. Qed.

Lemma lineup_results_keys acc k :
  In k (map fst (lineup_results acc)) -> In k (map fst acc).
Proof.
  induction acc as [|[gq frames] acc IH]; [auto|].
  rewrite lineup_results_cons, map_app. cbn [map fst]. intros H.
  apply in_app_or in H. destruct H as [H|H]; [|right; now apply IH].
  destruct frames; cbn [is_nil map fst] in H; [destruct H|].
  destruct H as [<-|[]]. now left.
Qed.

Lemma lineup_results_spec acc :
  accumulating config acc ->
  NoDup (map fst (lineup_results acc))
  /\ incl (map fst (lineup_results acc)) (GROUP_QUANTITIES config)
  /\ Forall (fun kv => 0 < pd.len (snd kv)) (lineup_results acc).
Proof.
  intros (A1 & A2 & A3). split; [|split].
  - clear A1 A3. induction acc as [|[gq frames] acc IH]; [constructor|].
    cbn [map fst] in A2. inversion A2 as [|? ? Hgq Hn]; subst.
    rewrite lineup_results_cons, map_app.
    destruct frames; cbn [is_nil map fst app]; [now apply IH|].
    constructor; [|now apply IH].
    intros Hin. apply Hgq. now apply lineup_results_keys.
  - intros k Hk. apply A1. now apply lineup_results_keys.
  - clear A1 A2. induction A3 as [|[gq frames] acc Hx Hacc IH];
      [constructor|].
    rewrite lineup_results_cons.
    destruct frames as [|f fs]; cbn [is_nil app]; [exact IH|].
    constructor; [|exact IH]. cbn [snd] in *.
    apply combined_has_rows; [discriminate | exact Hx].
Qed.

Lemma fetch_and_merge_lineups_saves season :
  (forall kwargs,
      ok (Request LeagueDashLineups (with_timeout config kwargs))) ->
  forall w, exists results w',
    fetch_and_merge_lineups config api teams season w = (Ok results, w')
    /\ files (trace w')
       = files (trace w)
         ++ map (fun kv => (lineups_file config (fst kv) season, snd kv))
                results
    /\ NoDup (map fst results)
    /\ incl (map fst results) (GROUP_QUANTITIES config)
    /\ Forall (fun kv => 0 < pd.len (snd kv)) results.
Proof.
  intros H w. unfold fetch_and_merge_lineups.
  match goal with
  | |- context [bind ?sweep _] =>
      assert (S : returns ok (fun state => accumulating config (fst state))
                    sweep)
  end.
  { apply returns_for_fold
      with (Inv := fun state => accumulating config (fst state));
      [|apply accumulating_start].
    intros season_type s _ Hs. apply returns_for_fold; [|exact Hs].
    intros gq s1 _ Hs1. apply returns_for_fold; [|exact Hs1].
    intros per_mode s2 _ Hs2.
    now apply returns_lineup_combo_frames. }
  destruct (S w) as (state & w1 & E1 & X1 & A).
  apply extends_no_file in X1.
  destruct (@lineup_results_saved season (fst state) [] w1)
    as (w2 & E2 & F2).
  { now destruct A as (_ & A2 & _). }
  { intros k _ []. }
  unfold bind at 1. rewrite E1.
  exists (lineup_results (fst state)), w2.
  split; [exact E2|]. split; [now rewrite F2, X1|].
  now apply lineup_results_spec.
Qed.

End Confined.


(** ** What the pipeline is confined to *)

Ltac may_log_and_sleep := try (intros; exact I).

Lemma steady_confined (A : Type) ok (c : M A) : steady ok c -> confined ok c.
Proof. intros H. now apply steady_ends. Qed.

(** X10: whatever the service answers and however a supplementary fetcher
    ends, the requests it has sent went to its own endpoint class only,
    every one of them with [timeout=config.API_TIMEOUT]; the only file it
    has written is its own, the one the orchestrator lists for it; and the
    call counter has advanced by the number of requests sent. *)
Theorem supplementary_fetchers_are_confined
  (config : Config) (api : nat -> Endpoint -> Kwargs -> Response)
  (teams : list (Z * string)) (season : string) :
  confined (allowed config (fun ep _ => ep = TeamPlayerOnOffSummary)
                    (eq (data_file config "on_off" season)))
           (fetch_on_off config api teams season)
  /\ confined (allowed config (fun ep _ => ep = LeagueDashTeamClutch)
                       (eq (data_file config "clutch" season)))
              (fetch_clutch config api season)
  /\ confined (allowed config (fun ep _ => ep = SynergyPlayTypes)
                       (eq (data_file config "play_types" season)))
              (fetch_play_types config api season)
  /\ confined (allowed config
                 (fun ep _ =>
                    ep = LeagueHustleStatsPlayer
                    \/ ep = LeagueHustleStatsTeam)
                 (fun path =>
                    path = data_file config "hustle_players" season
                    \/ path = data_file config "hustle_teams" season))
              (fetch_hustle config api season)
  /\ confined (allowed config (fun ep _ => ep = LeagueDashPtStats)
                       (eq (data_file config "tracking" season)))
              (fetch_tracking config api season)
  /\ confined (allowed config (fun ep _ => ep = LeagueDashPtDefend)
                       (eq (data_file config "defense_tracking" season)))
              (fetch_defense_tracking config api season)
  /\ confined (allowed config (fun ep _ => ep = PlayerEstimatedMetrics)
                       (eq (data_file config "estimated_metrics" season)))
              (fetch_estimated_metrics config api season).
Proof.
  repeat split; apply steady_confined.
  - apply steady_fetch_on_off; may_log_and_sleep;
      [intros kw; exists kw; now split | reflexivity].
  - apply steady_fetch_clutch; may_log_and_sleep;
      [intros kw; exists kw; now split | reflexivity].
  - apply steady_fetch_play_types; may_log_and_sleep;
      [intros kw; exists kw; now split | reflexivity].
  - apply steady_fetch_hustle; may_log_and_sleep;
      [intros kw; exists kw; split; [reflexivity | now left]
      | intros kw; exists kw; split; [reflexivity | now right]
      | now left | now right].
  - apply steady_fetch_tracking; may_log_and_sleep;
      [intros kw; exists kw; now split | reflexivity].
  - apply steady_fetch_defense_tracking; may_log_and_sleep;
      [intros kw; exists kw; now split | reflexivity].
  - apply steady_fetch_estimated_metrics; may_log_and_sleep;
      [intros kw; exists kw; now split | reflexivity].
Qed.

(** X11: whatever the service answers and however the lineup fetcher
    ends, the requests it has sent all went to [LeagueDashLineups], each
    for a configured combination of season type, group size, per-mode and
    measure type and with the pipeline's timeout; it has written no other
    file than the lineup files of the configured group sizes; and the call
    counter has advanced by the number of requests sent. *)
Theorem lineup_fetcher_is_confined
  (config : Config) (api : nat -> Endpoint -> Kwargs -> Response)
  (teams : list (Z * string)) (season : string) :
  confined
    (allowed config
       (fun ep kwargs =>
          ep = LeagueDashLineups
          /\ exists season_type gq per_mode mt,
               In season_type (SEASON_TYPES config)
               /\ In gq (GROUP_QUANTITIES config)
               /\ In per_mode (PER_MODES config)
               /\ In mt (MEASURE_TYPES config)
               /\ kwargs = lineups_params season season_type gq per_mode mt)
       (fun path =>
          exists gq,
            In gq (GROUP_QUANTITIES config)
            /\ path = lineups_file config gq season))
    (fetch_and_merge_lineups config api teams season).
Proof.
  apply steady_confined.
  apply steady_fetch_and_merge_lineups; may_log_and_sleep. split.
  - intros st gq pm mt Hst Hgq Hpm Hmt. eexists. split; [reflexivity|].
    split; [reflexivity|]. exists st, gq, pm, mt. auto.
  - intros gq df Hgq. exists gq. now split.
Qed.

(** X12: on an argument list the parser accepts, with a pause between the
    sections that [time.sleep] takes, the run ends normally, or with exit
    status 1 and then on a dry run only.  The requests it has sent to
    [LeagueDashLineups] are those of the health check and of the
    configured lineup combinations, all for the season of the run and
    with the pipeline's timeout; the files it has written are lineup files
    of the configured group sizes and files of the supplementary
    sections, for that season; and the call counter has advanced by the
    number of requests sent. *)
Theorem run_is_confined
  (config : Config) (api : nat -> Endpoint -> Kwargs -> Response)
  (teams : list (Z * string)) (argv : list string) (args : Namespace) :
  parse_known argv (mkNamespace (SEASON config) false false false false)
  = Ok args ->
  cpython.sleep_refusal (API_ENDPOINT_DELAY config) = None ->
  ends
    (allowed config
       (fun ep kwargs =>
          ep = LeagueDashLineups ->
          kwargs = health_check_params (season args)
          \/ exists season_type gq per_mode mt,
               In season_type (SEASON_TYPES config)
               /\ In gq (GROUP_QUANTITIES config)
               /\ In per_mode (PER_MODES config)
               /\ In mt (MEASURE_TYPES config)
               /\ kwargs
                  = lineups_params (season args) season_type gq per_mode mt)
       (fun path =>
          (exists gq,
              In gq (GROUP_QUANTITIES config)
              /\ path = lineups_file config gq (season args))
          \/ exists stem,
               In stem supplementary_stems
               /\ path = data_file config stem (season args)))
    (fun out => out = Ok tt \/ (out = Exit 1 /\ dry_run args = true))
    (run config api teams argv).
Proof.
  intros P _. apply run_confined with (args := args); may_log_and_sleep.
  - exact P.
  - eexists. split; [reflexivity|]. intros _. now left.
  - intros _ _. split.
    + intros st gq pm mt Hst Hgq Hpm Hmt. eexists. split; [reflexivity|].
      intros _. right. exists st, gq, pm, mt. auto.
    + intros gq df Hgq. left. exists gq. now split.
  - intros _ _. split.
    + intros ep kw Hep. exists kw. split; [reflexivity|]. intros ->.
      congruence.
    + intros stem df Hin. right. exists stem. now split.
Qed.

(** X13: with [--lineups-only] the run sends no request to any endpoint
    other than [LeagueDashLineups] and writes no file other than the
    lineup files of the configured group sizes. *)
Theorem lineups_only_leaves_the_rest_alone
  (config : Config) (api : nat -> Endpoint -> Kwargs -> Response)
  (teams : list (Z * string)) (argv : list string) (args : Namespace) :
  parse_known argv (mkNamespace (SEASON config) false false false false)
  = Ok args ->
  lineups_only args = true ->
  ends
    (allowed config (fun ep _ => ep = LeagueDashLineups)
       (fun path =>
          exists gq,
            In gq (GROUP_QUANTITIES config)
            /\ path = lineups_file config gq (season args)))
    (fun out => out = Ok tt \/ (out = Exit 1 /\ dry_run args = true))
    (run config api teams argv).
Proof.
  intros P L. apply run_confined with (args := args); may_log_and_sleep.
  - exact P.
  - eexists. now split.
  - intros _ _. split.
    + intros. eexists. now split.
    + intros gq df Hgq. exists gq. now split.
  - intros _ Hl. congruence.
Qed.

(** X14: with [--supplementary-only] the only requests the run sends to
    [LeagueDashLineups] are those of the health check, and the only files
    it writes are those of the supplementary sections. *)
Theorem supplementary_only_fetches_no_lineups
  (config : Config) (api : nat -> Endpoint -> Kwargs -> Response)
  (teams : list (Z * string)) (argv : list string) (args : Namespace) :
  parse_known argv (mkNamespace (SEASON config) false false false false)
  = Ok args ->
  supplementary_only args = true ->
  ends
    (allowed config
       (fun ep kwargs =>
          ep = LeagueDashLineups ->
          kwargs = health_check_params (season args))
       (fun path =>
          exists stem,
            In stem supplementary_stems
            /\ path = data_file config stem (season args)))
    (fun out => out = Ok tt \/ (out = Exit 1 /\ dry_run args = true))
    (run config api teams argv).
Proof.
  intros P S. apply run_confined with (args := args); may_log_and_sleep.
  - exact P.
  - eexists. now split.
  - intros _ Hs. congruence.
  - intros _ _. split.
    + intros ep kw Hep. exists kw. split; [reflexivity|]. intros ->.
      congruence.
    + intros stem df Hin. exists stem. now split.
Qed.

Lemma saves_when_it_returns path (c : M (option pd.DataFrame)) :
  writes_what_it_returns path c -> returned_is_written path c.
Proof.
  intros H w r w' E. destruct (H w) as (r0 & w0 & E0 & F & R).
  rewrite E0 in E. inversion E; subst. now split.
Qed.

(** X18: when a single-table fetcher returns, it has written what it
    returns: the table it returns, if any, is the one file it has written,
    under the name the orchestrator lists for it, and that table has rows;
    when it returns [None] it has written nothing.  The hustle fetcher
    does the same for each of its two tables. *)
Theorem fetchers_write_what_they_return
  (config : Config) (api : nat -> Endpoint -> Kwargs -> Response)
  (teams : list (Z * string)) (season : string) :
  returned_is_written (data_file config "on_off" season)
    (fetch_on_off config api teams season)
  /\ returned_is_written (data_file config "clutch" season)
       (fetch_clutch config api season)
  /\ returned_is_written (data_file config "play_types" season)
       (fetch_play_types config api season)
  /\ returned_is_written (data_file config "tracking" season)
       (fetch_tracking config api season)
  /\ returned_is_written (data_file config "defense_tracking" season)
       (fetch_defense_tracking config api season)
  /\ returned_is_written (data_file config "estimated_metrics" season)
       (fetch_estimated_metrics config api season)
  /\ (forall w players teams_ w',
        fetch_hustle config api season w = (Ok (players, teams_), w') ->
        files (trace w')
        = files (trace w)
          ++ saved (data_file config "hustle_players" season) players
          ++ saved (data_file config "hustle_teams" season) teams_
        /\ has_rows players /\ has_rows teams_).
Proof.
  assert (N : forall path df,
             ~ allowed config (fun _ _ => True) (fun _ => False)
                 (WriteCsv path df)) by (intros path df []).
  assert (R : forall ep kwargs,
             allowed config (fun _ _ => True) (fun _ => False)
               (Request ep (with_timeout config kwargs))).
  { intros ep kw. exists kw. now split. }
  split; [|split; [|split; [|split; [|split; [|split]]]]];
    try apply saves_when_it_returns.
  - apply fetch_on_off_saves
      with (ok := allowed config (fun _ _ => True) (fun _ => False));
      may_log_and_sleep; auto.
  - apply fetch_clutch_saves
      with (ok := allowed config (fun _ _ => True) (fun _ => False));
      may_log_and_sleep; auto.
  - apply fetch_play_types_saves
      with (ok := allowed config (fun _ _ => True) (fun _ => False));
      may_log_and_sleep; auto.
  - apply fetch_tracking_saves
      with (ok := allowed config (fun _ _ => True) (fun _ => False));
      may_log_and_sleep; auto.
  - apply fetch_defense_tracking_saves
      with (ok := allowed config (fun _ _ => True) (fun _ => False));
      may_log_and_sleep; auto.
  - apply fetch_estimated_metrics_saves
      with (ok := allowed config (fun _ _ => True) (fun _ => False));
      may_log_and_sleep; auto.
  - intros w players teams_ w' E.
    destruct (@fetch_hustle_saves config api
                (allowed config (fun _ _ => True) (fun _ => False)))
      with (season := season) (w := w)
      as (p0 & t0 & w0 & E0 & F & Hp & Ht);
      may_log_and_sleep; auto.
    rewrite E0 in E. inversion E; subst. auto.
Qed.

(** X21: when the lineup fetcher returns, the files it has written are
    exactly the tables it returns, in the order of the result, each under
    the lineups file of its group size; it returns at most one table for a
    group size, for configured group sizes only, and every table it
    returns has rows. *)
Theorem lineup_fetcher_writes_what_it_returns
  (config : Config) (api : nat -> Endpoint -> Kwargs -> Response)
  (teams : list (Z * string)) (season : string) (w w' : World)
  (results : list (Z * pd.DataFrame)) :
  fetch_and_merge_lineups config api teams season w = (Ok results, w') ->
  files (trace w')
  = files (trace w)
    ++ map (fun kv => (lineups_file config (fst kv) season, snd kv)) results
  /\ NoDup (map fst results)
  /\ incl (map fst results) (GROUP_QUANTITIES config)
  /\ Forall (fun kv => 0 < pd.len (snd kv)) results.
Proof.
  intros E.
  assert (N : forall path df,
             ~ allowed config (fun _ _ => True) (fun _ => False)
                 (WriteCsv path df)) by (intros path df []).
  assert (R : forall ep kwargs,
             allowed config (fun _ _ => True) (fun _ => False)
               (Request ep (with_timeout config kwargs))).
  { intros ep kw. exists kw. now split. }
  destruct (@fetch_and_merge_lineups_saves config api teams
              (allowed config (fun _ _ => True) (fun _ => False)))
    with (season := season) (w := w)
    as (r0 & w0 & E0 & H);
    may_log_and_sleep; auto.
  rewrite E0 in E. inversion E; subst. exact H.
Qed.

(** ** What a section reports and what it has written *)

Lemma written_rows_app fs gs :
  written_rows (fs ++ gs) = written_rows fs + written_rows gs.
Proof.
  induction fs as [|f fs IH]; cbn [written_rows fold_right app];
    [reflexivity|].
  fold (written_rows (fs ++ gs)). fold (written_rows fs). rewrite IH. lia.
Qed.

Lemma written_rows_saved path r :
  written_rows (saved path r) = count_rows (opt_frame r).
Proof. destruct r; cbn; lia. Qed.

Lemma written_rows_positive fs :
  Forall (fun f => 0 < pd.len (snd f)) fs ->
  (0 <? written_rows fs) = negb (is_nil fs).
Proof.
  intros H. destruct H as [|f fs Hf _]; [reflexivity|].
  cbn [written_rows fold_right is_nil negb]. apply Nat.ltb_lt. lia.
Qed.

Lemma saved_has_rows path r :
  has_rows r -> Forall (fun f => 0 < pd.len (snd f)) (saved path r).
Proof. destruct r; cbn; intros H; repeat constructor. exact H. Qed.

Lemma run_section_accounts (A : Type) name (f : M A) (to_obj : A -> PyObj)
  (fs_of : A -> list (string * pd.DataFrame)) :
  (forall w, exists r w',
      f w = (Ok r, w')
      /\ files (trace w') = files (trace w) ++ fs_of r
      /\ count_rows (to_obj r) = written_rows (fs_of r)
      /\ Forall (fun f => 0 < pd.len (snd f)) (fs_of r)) ->
  accounts_for_its_files name (as_section f to_obj).
Proof.
  intros H w. unfold _run_section, section_banner.
  unfold bind at 1. unfold bind at 1. unfold bind at 1.
  match goal with
  | |- context [log ?a ?b ?c ?d w] =>
      destruct (files_log a b c d w) as (w1 & E1 & F1); rewrite E1
  end.
  match goal with
  | |- context [log ?a ?b ?c ?d w1] =>
      destruct (files_log a b c d w1) as (w2 & E2 & F2); rewrite E2
  end.
  match goal with
  | |- context [log ?a ?b ?c ?d w2] =>
      destruct (files_log a b c d w2) as (w3 & E3 & F3); rewrite E3
  end.
  destruct (H w3) as (r & w4 & E4 & F4 & C & R).
  unfold try_except, as_section. unfold bind at 1. unfold bind at 1.
  rewrite E4. unfold ret at 1. rewrite C.
  rewrite (written_rows_positive R).
  exists (fs_of r).
  destruct (fs_of r) as [|g gs]; cbn [is_nil negb]; unfold bind;
    match goal with
    | |- context [log ?a ?b ?c ?d w4] =>
        destruct (files_log a b c d w4) as (w5 & E5 & F5); rewrite E5
    end;
    exists w5; (split; [reflexivity | now rewrite F5, F4, F3, F2, F1]).
Qed.

(** What [_run_section] reports of each of the eight sections and what
    the section has written, as long as nothing but a request fails. *)
Lemma sections_accounted
  (config : Config) (api : nat -> Endpoint -> Kwargs -> Response)
  (teams : list (Z * string)) (season name : string) :
  accounts_for_its_files name
    (as_section (fetch_and_merge_lineups config api teams season)
       (fun d => PyDict (map (fun kv => PyFrame (snd kv)) d)))
  /\ accounts_for_its_files name
       (as_section (fetch_on_off config api teams season) opt_frame)
  /\ accounts_for_its_files name
       (as_section (fetch_clutch config api season) opt_frame)
  /\ accounts_for_its_files name
       (as_section (fetch_play_types config api season) opt_frame)
  /\ accounts_for_its_files name
       (as_section (fetch_hustle config api season)
          (fun p => PyTuple [opt_frame (fst p); opt_frame (snd p)]))
  /\ accounts_for_its_files name
       (as_section (fetch_tracking config api season) opt_frame)
  /\ accounts_for_its_files name
       (as_section (fetch_defense_tracking config api season) opt_frame)
  /\ accounts_for_its_files name
       (as_section (fetch_estimated_metrics config api season) opt_frame).
Proof.
  assert (N : forall path df,
             ~ allowed config (fun _ _ => True) (fun _ => False)
                 (WriteCsv path df)) by (intros path df []).
  assert (R : forall ep kwargs,
             allowed config (fun _ _ => True) (fun _ => False)
               (Request ep (with_timeout config kwargs))).
  { intros ep kw. exists kw. now split. }
  assert (S : forall path (c : M (option pd.DataFrame)),
             writes_what_it_returns path c ->
             accounts_for_its_files name (as_section c opt_frame)).
  { intros path c H.
    apply run_section_accounts with (fs_of := saved path). intros w.
    destruct (H w) as (r & w' & E & F & Hr). exists r, w'.
    split; [exact E|]. split; [exact F|].
    split; [symmetry; apply written_rows_saved | now apply saved_has_rows]. }
  split; [|repeat split].
  - apply run_section_accounts
      with (fs_of := map (fun kv => (lineups_file config (fst kv) season,
                                     snd kv))).
    intros w.
    destruct (@fetch_and_merge_lineups_saves config api teams
                (allowed config (fun _ _ => True) (fun _ => False)))
      with (season := season) (w := w)
      as (results & w' & E & F & _ & _ & Hr);
      may_log_and_sleep; auto.
    exists results, w'. split; [exact E|]. split; [exact F|]. split.
    + clear. cbn [count_rows]. unfold sum_frame_lens, written_rows.
      induction results as [|kv results IH]; cbn [map fold_right snd];
        [reflexivity | now rewrite IH].
    + clear -Hr. induction Hr; cbn [map]; constructor; auto.
  - apply S with (path := data_file config "on_off" season).
    apply fetch_on_off_saves
      with (ok := allowed config (fun _ _ => True) (fun _ => False));
      may_log_and_sleep; auto.
  - apply S with (path := data_file config "clutch" season).
    apply fetch_clutch_saves
      with (ok := allowed config (fun _ _ => True) (fun _ => False));
      may_log_and_sleep; auto.
  - apply S with (path := data_file config "play_types" season).
    apply fetch_play_types_saves
      with (ok := allowed config (fun _ _ => True) (fun _ => False));
      may_log_and_sleep; auto.
  - apply run_section_accounts
      with (fs_of := fun p =>
                       saved (data_file config "hustle_players" season)
                             (fst p)
                       ++ saved (data_file config "hustle_teams" season)
                                (snd p)).
    intros w.
    destruct (@fetch_hustle_saves config api
                (allowed config (fun _ _ => True) (fun _ => False)))
      with (season := season) (w := w)
      as (players & teams_ & w' & E & F & Hp & Ht);
      may_log_and_sleep; auto.
    exists (players, teams_), w'. cbn [fst snd].
    split; [exact E|]. split; [exact F|]. split.
    + rewrite written_rows_app, !written_rows_saved.
      cbn [count_rows sum_frame_lens fold_right].
      destruct players, teams_; cbn; lia.
    + apply Forall_app. split; now apply saved_has_rows.
  - apply S with (path := data_file config "tracking" season).
    apply fetch_tracking_saves
      with (ok := allowed config (fun _ _ => True) (fun _ => False));
      may_log_and_sleep; auto.
  - apply S with (path := data_file config "defense_tracking" season).
    apply fetch_defense_tracking_saves
      with (ok := allowed config (fun _ _ => True) (fun _ => False));
      may_log_and_sleep; auto.
  - apply S with (path := data_file config "estimated_metrics" season).
    apply fetch_estimated_metrics_saves
      with (ok := allowed config (fun _ _ => True) (fun _ => False));
      may_log_and_sleep; auto.
Qed.

Lemma accounted_success name fn :
  accounts_for_its_files name fn -> success_is_on_disk name fn.
Proof.
  intros H w rows w' E. destruct (H w) as (fs & w0 & E0 & F).
  rewrite E0 in E. inversion E; subst. exists fs.
  split; [exact F|]. split; [|reflexivity].
  intros ->. discriminate.
Qed.

(** X22: for each of the eight sections of a run, under any name: when
    [_run_section] reports the section as succeeded, the section has
    written at least one file, and the row count reported is the number
    of rows of the files it has written. *)
Theorem sections_account_for_their_files
  (config : Config) (api : nat -> Endpoint -> Kwargs -> Response)
  (teams : list (Z * string)) (season name : string) :
  success_is_on_disk name
    (as_section (fetch_and_merge_lineups config api teams season)
       (fun d => PyDict (map (fun kv => PyFrame (snd kv)) d)))
  /\ success_is_on_disk name
       (as_section (fetch_on_off config api teams season) opt_frame)
  /\ success_is_on_disk name
       (as_section (fetch_clutch config api season) opt_frame)
  /\ success_is_on_disk name
       (as_section (fetch_play_types config api season) opt_frame)
  /\ success_is_on_disk name
       (as_section (fetch_hustle config api season)
          (fun p => PyTuple [opt_frame (fst p); opt_frame (snd p)]))
  /\ success_is_on_disk name
       (as_section (fetch_tracking config api season) opt_frame)
  /\ success_is_on_disk name
       (as_section (fetch_defense_tracking config api season) opt_frame)
  /\ success_is_on_disk name
       (as_section (fetch_estimated_metrics config api season) opt_frame).
Proof.
  destruct (sections_accounted config api teams season name)
    as (H1 & H2 & H3 & H4 & H5 & H6 & H7 & H8).
  split; [|split; [|split; [|split; [|split; [|split; [|split]]]]]];
    now apply accounted_success.
Qed.

End confinement.

Lemma lineup_fetcher_writes_what_it_returns_witness :
  files (trace (snd lineups_run))
  = files (trace initial_world)
    ++ map (fun kv =>
              (lineups_file (with_measure_types ["Base"] 1) (fst kv)
                 "2025-26", snd kv))
           (result_of [] lineups_run)
  /\ NoDup (map fst (result_of [] lineups_run))
  /\ incl (map fst (result_of [] lineups_run))
          (GROUP_QUANTITIES (with_measure_types ["Base"] 1))
  /\ Forall (fun kv => 0 < pd.len (snd kv)) (result_of [] lineups_run).
Proof.
  apply (@confinement.lineup_fetcher_writes_what_it_returns
           (with_measure_types ["Base"] 1) (api_flaky 0 some_lineups) []
           "2025-26" initial_world (snd lineups_run)
           (result_of [] lineups_run)).
  vm_compute. reflexivity.
Defined.

Lemma run_is_confined_witness :
  ends
    (allowed default_config
       (fun ep kwargs =>
          ep = LeagueDashLineups ->
          kwargs = health_check_params "2024-25"
          \/ exists season_type gq per_mode mt,
               In season_type (SEASON_TYPES default_config)
               /\ In gq (GROUP_QUANTITIES default_config)
               /\ In per_mode (PER_MODES default_config)
               /\ In mt (MEASURE_TYPES default_config)
               /\ kwargs
                  = lineups_params "2024-25" season_type gq per_mode mt)
       (fun path =>
          (exists gq,
              In gq (GROUP_QUANTITIES default_config)
              /\ path = lineups_file default_config gq "2024-25")
          \/ exists stem,
               In stem supplementary_stems
               /\ path = data_file default_config stem "2024-25"))
    (fun out => out = Ok tt \/ (out = Exit 1 /\ false = true))
    (run default_config api_down [] ["--season"; "2024-25"]).
Proof.
  apply (@confinement.run_is_confined default_config api_down []
           ["--season"; "2024-25"]
           (mkNamespace "2024-25" false false false false)).
  - reflexivity.
  - vm_compute. reflexivity.
Defined.

Lemma lineups_only_leaves_the_rest_alone_witness :
  ends
    (allowed default_config (fun ep _ => ep = LeagueDashLineups)
       (fun path =>
          exists gq,
            In gq (GROUP_QUANTITIES default_config)
            /\ path = lineups_file default_config gq "2025-26"))
    (fun out => out = Ok tt \/ (out = Exit 1 /\ false = true))
    (run default_config api_down [] ["--lineups-only"]).
Proof.
  apply (@confinement.lineups_only_leaves_the_rest_alone default_config
           api_down [] ["--lineups-only"]
           (mkNamespace "2025-26" true false false false));
    reflexivity.
Defined.

Lemma supplementary_only_fetches_no_lineups_witness :
  ends
    (allowed default_config
       (fun ep kwargs =>
          ep = LeagueDashLineups -> kwargs = health_check_params "2025-26")
       (fun path =>
          exists stem,
            In stem supplementary_stems
            /\ path = data_file default_config stem "2025-26"))
    (fun out => out = Ok tt \/ (out = Exit 1 /\ false = true))
    (run default_config api_down [] ["--supplementary-only"]).
Proof.
  apply (@confinement.supplementary_only_fetches_no_lineups default_config
           api_down [] ["--supplementary-only"]
           (mkNamespace "2025-26" false true false false));
    reflexivity.
Defined.

(* ===================================================================== *)
(** * How many requests a fetcher sends *)
(* ===================================================================== *)

Module budget.

Lemma spends_ret (A : Type) (a : A) : spends 0 0 (ret a).
Proof. intros w. exists a, w. split; [reflexivity | lia]. Qed.

Lemma spends_weaken (A : Type) lo hi lo' hi' (c : M A) :
  spends lo hi c -> lo' <= lo -> hi <= hi' -> spends lo' hi' c.
Proof.
  intros H Hl Hh w. destruct (H w) as (a & w' & E & B).
  exists a, w'. split; [exact E | lia].
Qed.

Lemma spends_bind (A B : Type) l1 h1 l2 h2 (c : M A) (k : A -> M B) :
  spends l1 h1 c -> (forall a, spends l2 h2 (k a)) ->
  spends (l1 + l2) (h1 + h2) (bind c k).
Proof.
  intros Hc Hk w. destruct (Hc w) as (a & w1 & E1 & B1).
  destruct (Hk a w1) as (b & w2 & E2 & B2).
  exists b, w2. unfold bind. rewrite E1. split; [exact E2 | lia].
Qed.

Lemma silent_bind (A B : Type) (c : M A) (k : A -> M B) :
  spends 0 0 c -> (forall a, spends 0 0 (k a)) -> spends 0 0 (bind c k).
Proof. intros Hc Hk. apply (@spends_bind _ _ 0 0 0 0 c k Hc Hk). Qed.

Lemma spends_after (A B : Type) lo hi (c : M A) (k : A -> M B) :
  spends 0 0 c -> (forall a, spends lo hi (k a)) -> spends lo hi (bind c k).
Proof. intros Hc Hk. apply (@spends_bind _ _ 0 0 lo hi c k Hc Hk). Qed.

Lemma spends_before (A B : Type) lo hi (c : M A) (k : A -> M B) :
  spends lo hi c -> (forall a, spends 0 0 (k a)) -> spends lo hi (bind c k).
Proof.
  intros Hc Hk. apply spends_weaken with (lo := lo + 0) (hi := hi + 0);
    [apply (@spends_bind _ _ lo hi 0 0 c k Hc Hk) | lia | lia].
Qed.

Lemma spends_for_fold (A St : Type) lo hi (body : A -> St -> M St) xs :
  (forall x s, spends lo hi (body x s)) ->
  forall s,
    spends (List.length xs * lo) (List.length xs * hi) (for_fold xs body s).
Proof.
  intros Hb. induction xs as [|x xs IH]; intros s; cbn [for_fold].
  - apply spends_ret.
  - cbn [List.length Nat.mul]. apply spends_bind; [apply Hb | exact IH].
Qed.

Lemma silent_for_fold (A St : Type) (body : A -> St -> M St) xs :
  (forall x s, spends 0 0 (body x s)) ->
  forall s, spends 0 0 (for_fold xs body s).
Proof.
  intros Hb s.
  apply spends_weaken with (lo := List.length xs * 0)
                           (hi := List.length xs * 0);
    [now apply spends_for_fold | lia | lia].
Qed.

Lemma silent_log lg lvl msg args : spends 0 0 (log lg lvl msg args).
Proof.
  intros w. destruct (log_run lg lvl msg args w) as (w' & E & _ & S & _).
  exists tt, w'. split; [exact E | lia].
Qed.

Lemma silent_sleep secs : spends 0 0 (time_sleep secs).
Proof.
  intros w. eexists; eexists. split; [reflexivity|]. simpl. lia.
Qed.

Lemma silent_save df path : spends 0 0 (save_dataframe df path).
Proof.
  unfold save_dataframe. apply silent_bind; [|intros _; apply silent_log].
  intros w. eexists; eexists. split; [reflexivity|]. simpl. lia.
Qed.

Lemma may_spend_before (A B : Type) lo hi (c : M A) (k : A -> M B) :
  may_spend lo hi c -> (forall a, spends 0 0 (k a)) ->
  may_spend lo hi (bind c k).
Proof.
  intros Hc Hk w. destruct (Hc w) as (out & w1 & E1 & B1 & O1).
  unfold bind. rewrite E1. destruct out as [a | exc | code].
  - destruct (Hk a w1) as (b & w2 & E2 & B2).
    exists (Ok b), w2. split; [exact E2|]. split; [lia | exact I].
  - exists (Raise exc), w1. auto.
  - destruct O1.
Qed.

Lemma spends_try (A : Type) lo hi (c : M A) (h : Exception -> M A) :
  may_spend lo hi c -> (forall exc, spends 0 0 (h exc)) ->
  spends lo hi (try_except c h).
Proof.
  intros Hc Hh w. destruct (Hc w) as (out & w1 & E1 & B1 & O1).
  unfold try_except. rewrite E1. destruct out as [a | exc | code].
  - exists a, w1. auto.
  - destruct (Hh exc w1) as (a & w2 & E2 & B2).
    exists a, w2. split; [exact E2 | lia].
  - destruct O1.
Qed.

Section Budgets.
Variable config : Config.
Variable api : nat -> Endpoint -> Kwargs -> Response.
Variable teams : list (Z * string).

Lemma may_spend_retry ep params retries base_delay :
  may_spend (Nat.min 1 retries) retries
            (api_call_with_retry config api ep params retries base_delay).
Proof.
  intros w.
  destruct (@retry_outcome config api ep params retries base_delay w)
    as [(obj & w' & n & E & Hn & A) | (exc & w' & E & A)];
    destruct A as (_ & S & _).
  - exists (Ok obj), w'. split; [exact E|]. split; [lia | exact I].
  - exists (Raise exc), w'. split; [exact E|]. split; [lia | exact I].
Qed.

Lemma may_spend_api_call ep params :
  may_spend (Nat.min 1 (API_RETRIES config)) (API_RETRIES config)
            (api_call config api ep params).
Proof. apply may_spend_retry. Qed.

(** Steps that send nothing. *)
Ltac quiet_step :=
  first
    [ apply spends_ret
    | apply silent_log
    | apply silent_sleep
    | apply silent_save
    | apply silent_bind; [| intros ?]
    | apply silent_for_fold; intros ? ?
    | match goal with
      | |- spends 0 0 (if ?b then _ else _) => destruct b
      | |- spends 0 0 (match ?x with _ => _ end) => destruct x
      end
    | progress unfold pace, concat_and_save, hustle_save, collect_step ].

Ltac quiet_tac := repeat quiet_step.

Lemma silent_merge d key : spends 0 0 (merge_measure_types d key).
Proof. unfold merge_measure_types. quiet_tac. Qed.

(** A parameter point: one call through the retry caller inside a [try],
    then steps that send nothing. *)
Ltac point_tac :=
  repeat (apply spends_after; [solve [quiet_tac] | intros ?]);
  apply spends_before; [| intros ?; solve [quiet_tac]];
  apply spends_try; [| intros ?; solve [quiet_tac]];
  apply may_spend_before; [| intros ?; solve [quiet_tac]];
  first [apply may_spend_api_call | apply may_spend_retry].

Lemma fetch_all_lineups_budget season season_type gq per_mode mt :
  spends (Nat.min 1 (API_RETRIES config)) (API_RETRIES config)
    (fetch_all_lineups config api season season_type gq per_mode mt).
Proof.
  unfold fetch_all_lineups.
  apply spends_after; [apply silent_log | intros _].
  apply spends_try; [| intros ?; solve [quiet_tac]].
  apply may_spend_before; [| intros ?; solve [quiet_tac]].
  apply may_spend_retry.
Qed.

Lemma lineup_combo_budget season season_type gq per_mode state :
  spends (List.length (MEASURE_TYPES config) * (Nat.min 1 (API_RETRIES config)))
         (List.length (MEASURE_TYPES config) * (API_RETRIES config))
         (lineup_combo config api teams season season_type gq per_mode state).
Proof.
  unfold lineup_combo.
  apply spends_after; [apply silent_log | intros _].
  apply spends_before.
  - unfold fetch_measure_frames. apply spends_for_fold. intros mt mf.
    unfold measure_frames_step.
    apply spends_before; [apply fetch_all_lineups_budget|].
    intros df. quiet_tac.
  - intros mf. destruct (is_nil mf); [solve [quiet_tac]|].
    apply silent_bind; [apply silent_merge | intros merged]. quiet_tac.
Qed.

Lemma fetch_and_merge_lineups_budget season :
  spends
    (List.length (SEASON_TYPES config)
     * (List.length (GROUP_QUANTITIES config)
        * (List.length (PER_MODES config)
           * (List.length (MEASURE_TYPES config) * (Nat.min 1 (API_RETRIES config))))))
    (List.length (SEASON_TYPES config)
     * (List.length (GROUP_QUANTITIES config)
        * (List.length (PER_MODES config)
           * (List.length (MEASURE_TYPES config) * (API_RETRIES config)))))
    (fetch_and_merge_lineups config api teams season).
Proof.
  unfold fetch_and_merge_lineups. apply spends_before.
  - apply spends_for_fold. intros season_type s.
    apply spends_for_fold. intros gq s1.
    apply spends_for_fold. intros per_mode s2.
    apply lineup_combo_budget.
  - intros state. apply silent_for_fold. intros [gq frames] results.
    cbn [fst snd]. destruct (is_nil frames); [solve [quiet_tac]|].
    cbv zeta. quiet_tac.
Qed.

Lemma fetch_on_off_budget season :
  spends
    (List.length (get_all_team_ids teams)
     * (List.length (SEASON_TYPES config) * (Nat.min 1 (API_RETRIES config))))
    (List.length (get_all_team_ids teams)
     * (List.length (SEASON_TYPES config) * (API_RETRIES config)))
    (fetch_on_off config api teams season).
Proof.
  unfold fetch_on_off.
  apply spends_after; [apply silent_log | intros _]. cbv zeta.
  apply spends_before; [| intros ?; solve [quiet_tac]].
  apply spends_for_fold. intros team_id state.
  apply spends_after; [apply silent_log | intros _].
  apply spends_before; [| intros ?; solve [quiet_tac]].
  apply spends_for_fold. intros season_type frames.
  unfold on_off_point. point_tac.
Qed.

Lemma fetch_clutch_budget season :
  spends (List.length (SEASON_TYPES config) * (Nat.min 1 (API_RETRIES config)))
         (List.length (SEASON_TYPES config) * (API_RETRIES config))
         (fetch_clutch config api season).
Proof.
  unfold fetch_clutch.
  apply spends_after; [apply silent_log | intros _].
  apply spends_before; [| intros ?; solve [quiet_tac]].
  apply spends_for_fold. intros season_type frames.
  unfold clutch_point. point_tac.
Qed.

Lemma fetch_play_types_budget season :
  spends
    (List.length (SEASON_TYPES config)
     * (List.length (SYNERGY_PLAY_TYPES config)
        * (List.length type_groupings
           * (List.length play_type_player_or_team * (Nat.min 1 (API_RETRIES config))))))
    (List.length (SEASON_TYPES config)
     * (List.length (SYNERGY_PLAY_TYPES config)
        * (List.length type_groupings
           * (List.length play_type_player_or_team * (API_RETRIES config)))))
    (fetch_play_types config api season).
Proof.
  unfold fetch_play_types, play_type_sweep.
  apply spends_after; [apply silent_log | intros _].
  apply spends_before; [| intros ?; solve [quiet_tac]].
  apply spends_for_fold. intros season_type s.
  apply spends_for_fold. intros play_type s1.
  apply spends_for_fold. intros tg s2.
  apply spends_for_fold. intros pt s3.
  unfold play_type_point. point_tac.
Qed.

Lemma hustle_call_budget ep season season_type what frames :
  spends (Nat.min 1 (API_RETRIES config)) (API_RETRIES config) (hustle_call config api ep season season_type what frames).
Proof. unfold hustle_call. point_tac. Qed.

Lemma fetch_hustle_budget season :
  spends (List.length (SEASON_TYPES config) * ((Nat.min 1 (API_RETRIES config)) + (Nat.min 1 (API_RETRIES config))))
         (List.length (SEASON_TYPES config) * ((API_RETRIES config) + (API_RETRIES config)))
         (fetch_hustle config api season).
Proof.
  unfold fetch_hustle.
  apply spends_after; [apply silent_log | intros _].
  apply spends_before.
  - apply spends_for_fold. intros season_type state.
    apply spends_bind; [apply hustle_call_budget | intros pf].
    apply spends_before; [apply hustle_call_budget | intros tf].
    apply spends_ret.
  - intros state. cbv zeta. quiet_tac.
Qed.

Lemma fetch_tracking_budget season :
  spends
    (List.length (SEASON_TYPES config)
     * (List.length (PT_MEASURE_TYPES config)
        * (List.length tracking_player_or_team * (Nat.min 1 (API_RETRIES config)))))
    (List.length (SEASON_TYPES config)
     * (List.length (PT_MEASURE_TYPES config)
        * (List.length tracking_player_or_team * (API_RETRIES config))))
    (fetch_tracking config api season).
Proof.
  unfold fetch_tracking.
  apply spends_after; [apply silent_log | intros _].
  apply spends_before; [| intros ?; solve [quiet_tac]].
  apply spends_for_fold. intros season_type s.
  apply spends_for_fold. intros pt_measure s1.
  apply spends_for_fold. intros pot s2.
  unfold tracking_point. point_tac.
Qed.

Lemma fetch_defense_tracking_budget season :
  spends
    (List.length (SEASON_TYPES config)
     * (List.length (DEFENSE_CATEGORIES config) * (Nat.min 1 (API_RETRIES config))))
    (List.length (SEASON_TYPES config)
     * (List.length (DEFENSE_CATEGORIES config) * (API_RETRIES config)))
    (fetch_defense_tracking config api season).
Proof.
  unfold fetch_defense_tracking.
  apply spends_after; [apply silent_log | intros _].
  apply spends_before; [| intros ?; solve [quiet_tac]].
  apply spends_for_fold. intros season_type s.
  apply spends_for_fold. intros category s1.
  unfold defense_point. point_tac.
Qed.

Lemma fetch_estimated_metrics_budget season :
  spends (List.length (SEASON_TYPES config) * (Nat.min 1 (API_RETRIES config)))
         (List.length (SEASON_TYPES config) * (API_RETRIES config))
         (fetch_estimated_metrics config api season).
Proof.
  unfold fetch_estimated_metrics.
  apply spends_after; [apply silent_log | intros _].
  apply spends_before; [| intros ?; solve [quiet_tac]].
  apply spends_for_fold. intros season_type frames.
  unfold estimated_point. point_tac.
Qed.

End Budgets.


Lemma calls_within_intro (A : Type) config points lo hi (c : M A) :
  spends lo hi c ->
  lo = points * Nat.min 1 (API_RETRIES config) ->
  hi = points * API_RETRIES config ->
  calls_within config points c.
Proof.
  intros H -> -> w. destruct (H w) as (a & w' & E & B).
  rewrite E. cbn [fst snd]. split; [lia|]. intros r _. lia.
Qed.

(** X15: however the lineup fetcher ends, it has sent at most
    [config.API_RETRIES] requests for each of its parameter points - the
    configured combinations of season type, group size, per-mode and
    measure type; when it returns it has sent at least one request for
    each of them. *)
Theorem lineup_fetcher_budget
  (config : Config) (api : nat -> Endpoint -> Kwargs -> Response)
  (teams : list (Z * string)) (season : string) :
  calls_within config
    (List.length (SEASON_TYPES config)
     * List.length (GROUP_QUANTITIES config)
     * List.length (PER_MODES config)
     * List.length (MEASURE_TYPES config))
    (fetch_and_merge_lineups config api teams season).
Proof.
  eapply calls_within_intro;
    [apply fetch_and_merge_lineups_budget | | ];
    rewrite !Nat.mul_assoc; reflexivity.
Qed.

(** X16: however a supplementary fetcher ends, it has sent at most
    [config.API_RETRIES] requests for each of its parameter points, and at
    least one for each when it returns: teams times season types for the
    on/off data, season types for the clutch data and the estimated
    metrics, the four nested loops for the play types, two calls per
    season type for the hustle data, and so on. *)
Theorem supplementary_fetchers_budget
  (config : Config) (api : nat -> Endpoint -> Kwargs -> Response)
  (teams : list (Z * string)) (season : string) :
  calls_within config
    (List.length (get_all_team_ids teams)
     * List.length (SEASON_TYPES config))
    (fetch_on_off config api teams season)
  /\ calls_within config (List.length (SEASON_TYPES config))
       (fetch_clutch config api season)
  /\ calls_within config
       (List.length (SEASON_TYPES config)
        * List.length (SYNERGY_PLAY_TYPES config)
        * List.length type_groupings
        * List.length play_type_player_or_team)
       (fetch_play_types config api season)
  /\ calls_within config (List.length (SEASON_TYPES config) * 2)
       (fetch_hustle config api season)
  /\ calls_within config
       (List.length (SEASON_TYPES config)
        * List.length (PT_MEASURE_TYPES config)
        * List.length tracking_player_or_team)
       (fetch_tracking config api season)
  /\ calls_within config
       (List.length (SEASON_TYPES config)
        * List.length (DEFENSE_CATEGORIES config))
       (fetch_defense_tracking config api season)
  /\ calls_within config (List.length (SEASON_TYPES config))
       (fetch_estimated_metrics config api season).
Proof.
  split; [|split; [|split; [|split; [|split; [|split]]]]].
  - eapply calls_within_intro; [apply fetch_on_off_budget | | ];
      rewrite !Nat.mul_assoc; reflexivity.
  - eapply calls_within_intro; [apply fetch_clutch_budget | | ];
      reflexivity.
  - eapply calls_within_intro; [apply fetch_play_types_budget | | ];
      rewrite !Nat.mul_assoc; reflexivity.
  - eapply calls_within_intro; [apply fetch_hustle_budget | | ]; lia.
  - eapply calls_within_intro; [apply fetch_tracking_budget | | ];
      rewrite !Nat.mul_assoc; reflexivity.
  - eapply calls_within_intro;
      [apply fetch_defense_tracking_budget | | ];
      rewrite !Nat.mul_assoc; reflexivity.
  - eapply calls_within_intro;
      [apply fetch_estimated_metrics_budget | | ]; reflexivity.
Qed.

End budget.

(* ===================================================================== *)
(** * The dry run *)
(* ===================================================================== *)

Module dry_run_facts.
Import retry_facts.

Lemma did_eq n n' r r' s s' w w' :
  did n r s w w' -> n = n' -> r = r' -> s = s' -> did n' r' s' w w'.
Proof. now intros H <- <- <-. Qed.

Ltac did_close :=
  did_chain;
  match goal with
  | H : did _ _ _ ?w ?w' |- did _ _ _ ?w ?w' =>
      apply (did_eq H);
      [lia | simpl; rewrite ?app_nil_r; reflexivity | reflexivity]
  end.

Section DryRun.
Variable config : Config.
Variable api : nat -> Endpoint -> Kwargs -> Response.
Variable teams : list (Z * string).

(** The health check makes one to three requests, and says [False] when
    all three have failed. *)
Lemma health_check_verdict season w :
  exists b w' n sl,
    health_check config api season w = (Ok b, w')
    /\ 1 <= n <= 3
    /\ did n (repeat (LeagueDashLineups,
                      with_timeout config (health_check_params season)) n)
           sl w w'
    /\ (b = false <->
        forall i, i < 3 ->
          is_raise (api (sent w + i) LeagueDashLineups
                        (with_timeout config (health_check_params season)))).
Proof.
  unfold health_check, health_check_banner, try_except.
  unfold bind at 1. did_log.
  assert (S0 : sent w0 = sent w) by (destruct D as (_ & ? & _); lia).
  unfold api_call_with_retry. unfold bind at 1.
  destruct (@attempts_did config api LeagueDashLineups
              (health_check_params season) 3 (2 # 1) 3 0 w0 eq_refl)
    as (out & w1 & n & E & D1 & C).
  rewrite E.
  destruct C as [(obj & -> & Hn & R & F) | [(-> & -> & _ & F) | (? & _)]];
    [| | discriminate].
  - assert (V : true = false <->
                forall i, i < 3 ->
                  is_raise (api (sent w + i) LeagueDashLineups
                              (with_timeout config
                                 (health_check_params season)))).
    { split; [discriminate|]. intros H.
      destruct (H (n - 1) ltac:(lia)) as (exc & He).
      rewrite S0 in R. congruence. }
    destruct obj as [|df0 dfs].
    + unfold bind. did_log. unfold ret.
      exists true, w2, n. eexists. split; [reflexivity|]. split; [lia|].
      split; [did_close | exact V].
    + destruct (0 <? pd.len df0); unfold bind; did_log; unfold ret;
        exists true, w2, n; eexists; (split; [reflexivity|]);
        (split; [lia|]); (split; [did_close | exact V]).
  - unfold bind. did_log. unfold ret.
    exists false, w2, 3. eexists. split; [reflexivity|]. split; [lia|].
    split; [did_close|]. split; [|reflexivity].
    intros _ i Hi. rewrite <- S0. now apply F.
Qed.

(** X17: on a dry run the orchestrator does the health check and nothing
    else: it sends one to three requests, all of them the health check's,
    writes no file, and ends with exit status 1 exactly when the three
    attempts of the health check have failed, normally otherwise. *)
Theorem dry_run_only_checks_the_service
  (argv : list string) (args : Namespace) (w : World) :
  parse_known argv (mkNamespace (SEASON config) false false false false)
  = Ok args ->
  dry_run args = true ->
  exists out w' n,
    run config api teams argv w = (out, w')
    /\ 1 <= n <= 3
    /\ _api_call_count w' = _api_call_count w + n
    /\ requests (trace w')
       = requests (trace w)
         ++ repeat (LeagueDashLineups,
                    with_timeout config (health_check_params (season args)))
                   n
    /\ files (trace w') = files (trace w)
    /\ (out = Ok tt \/ out = Exit 1)
    /\ (out = Exit 1 <->
        forall i, i < 3 ->
          is_raise (api (sent w + i) LeagueDashLineups
                        (with_timeout config
                           (health_check_params (season args))))).
Proof.
  intros Hparse Hdry.
  unfold run, _parse_args. unfold bind at 1. rewrite Hparse.
  unfold bind at 1, setup_logging.
  set (w1 := mkWorld _ _ _ _).
  assert (T1 : trace w1 = trace w) by reflexivity.
  assert (C1 : _api_call_count w1 = _api_call_count w) by reflexivity.
  assert (S1 : sent w1 = sent w) by reflexivity.
  clearbody w1.
  unfold bind at 1. did_log. unfold bind at 1. did_log.
  unfold bind at 1. did_log.
  did_chain.
  match goal with H : did _ _ _ w1 ?x |- _ => rename H into D0; rename x into w4 end.
  unfold bind at 1.
  destruct (health_check_verdict (season args) w4)
    as (b & w5 & n & sl & E & Hn & D5 & V).
  rewrite E.
  assert (S4 : sent w4 = sent w) by (destruct D0 as (_ & ? & _); lia).
  rewrite S4 in V.
  pose proof (did_trans D0 D5) as D. clear D0 D5.
  rewrite Hdry. destruct b; cbn [negb].
  - unfold bind, ret. did_log.
    match goal with
    | D0 : did 0 [] [] w5 ?wf |- _ =>
        pose proof (did_trans D D0) as (A1 & A2 & _ & A4 & _ & A6);
        exists (Ok tt), wf, n
    end.
    simpl in A4. rewrite app_nil_r in A4.
    split; [reflexivity|]. split; [lia|].
    split; [lia|]. split; [now rewrite A4, T1|].
    split; [now rewrite A6, T1|]. split; [now left|].
    split; [discriminate|]. intros H. apply V in H. discriminate.
  - unfold bind. did_log. unfold sys_exit.
    match goal with
    | D0 : did 0 [] [] w5 ?wf |- _ =>
        pose proof (did_trans D D0) as (A1 & A2 & _ & A4 & _ & A6);
        exists (Exit 1), wf, n
    end.
    simpl in A4. rewrite app_nil_r in A4.
    split; [reflexivity|]. split; [lia|].
    split; [lia|]. split; [now rewrite A4, T1|].
    split; [now rewrite A6, T1|]. split; [now right|].
    split; [|reflexivity]. intros _. now apply V.
Qed.

End DryRun.

End dry_run_facts.

Lemma dry_run_only_checks_the_service_witness :
  exists out w' n,
    run default_config api_down [] ["--dry-run"] initial_world = (out, w')
    /\ 1 <= n <= 3
    /\ _api_call_count w' = _api_call_count initial_world + n
    /\ requests (trace w')
       = requests (trace initial_world)
         ++ repeat (LeagueDashLineups,
                    with_timeout default_config
                      (health_check_params "2025-26"))
                   n
    /\ files (trace w') = files (trace initial_world)
    /\ (out = Ok tt \/ out = Exit 1)
    /\ (out = Exit 1 <->
        forall i, i < 3 ->
          is_raise (api_down (sent initial_world + i) LeagueDashLineups
                      (with_timeout default_config
                         (health_check_params "2025-26")))).
Proof.
  apply (@dry_run_facts.dry_run_only_checks_the_service default_config
           api_down [] ["--dry-run"]
           (mkNamespace "2025-26" false false true false) initial_world);
    reflexivity.
Defined.

(* ===================================================================== *)
(** * The metadata columns of the lineup tables *)
(* ===================================================================== *)

Module tagging.
Import pd pd_facts.

Lemma col_index_bound c cols i :
  col_index c cols = Some i -> i < List.length cols.
Proof.
  revert i. induction cols as [|c0 cols IH]; intros i; cbn [col_index].
  - discriminate.
  - destruct (String.eqb c c0).
    + intros H; inversion H; simpl; lia.
    + destruct (col_index c cols) as [j|]; [|discriminate].
      intros H; inversion H; subst. specialize (IH j eq_refl). simpl. lia.
Qed.

Lemma col_index_same c c' cols i :
  col_index c cols = Some i -> col_index c' cols = Some i -> c = c'.
Proof.
  revert i. induction cols as [|c0 cols IH]; intros i; cbn [col_index].
  - discriminate.
  - destruct (String.eqb_spec c c0), (String.eqb_spec c' c0).
    + congruence.
    + destruct (col_index c' cols); cbn; intros H1 H2; inversion H1;
        subst; discriminate.
    + destruct (col_index c cols); cbn; intros H1 H2; inversion H2;
        subst; discriminate.
    + destruct (col_index c cols) as [j|], (col_index c' cols) as [j'|];
        cbn; try discriminate.
      intros H1 H2. inversion H1; inversion H2; subst.
      apply (IH j'); congruence.
Qed.

Lemma length_set_nth i (v : cell) r :
  i < List.length r -> List.length (set_nth i v r) = List.length r.
Proof.
  intros H. unfold set_nth.
  rewrite length_app, length_firstn. cbn [List.length].
  rewrite length_skipn. lia.
Qed.

Lemma nth_set_nth_same i (v : cell) r :
  i < List.length r -> nth i (set_nth i v r) None = v.
Proof.
  intros H. unfold set_nth. rewrite app_nth2; rewrite length_firstn.
  - replace (i - Nat.min i (List.length r)) with 0 by lia. reflexivity.
  - lia.
Qed.

Lemma nth_set_nth_other i j (v : cell) r :
  i < List.length r -> j <> i -> nth j (set_nth i v r) None = nth j r None.
Proof.
  intros H Hj. unfold set_nth.
  rewrite <- (firstn_skipn i r) at 3.
  destruct (Nat.lt_ge_cases j i) as [L|L].
  - rewrite !app_nth1 by (rewrite length_firstn; lia). reflexivity.
  - rewrite !app_nth2 by (rewrite length_firstn; lia).
    rewrite length_firstn.
    replace (j - Nat.min i (List.length r)) with (S (j - S i)) by lia.
    cbn [nth].
    assert (E : skipn i r = nth i r None :: skipn (S i) r).
    { clear -H. revert i H. induction r as [|x r IH]; intros i H.
      - simpl in H. lia.
      - destruct i; [reflexivity|]. simpl in H.
        cbn [skipn nth]. apply IH. lia. }
    rewrite E. reflexivity.
Qed.

(** [df[c] = f(row)]: the rows stay complete, the column [c] holds the new
    values and every other column is left as it was. *)
Lemma assign_rows df c f :
  well_formed df ->
  well_formed (assign df c f)
  /\ len (assign df c f) = len df
  /\ forall r',
       In r' (rows (assign df c f)) ->
       exists r,
         In r (rows df)
         /\ get (columns (assign df c f)) r' c = f r
         /\ forall c', c' <> c ->
              get (columns (assign df c f)) r' c' = get (columns df) r c'.
Proof.
  intros Hwf. unfold well_formed in Hwf. rewrite Forall_forall in Hwf.
  unfold assign. destruct (col_index c (columns df)) as [i|] eqn:Ei.
  - pose proof (@col_index_bound c (columns df) i Ei) as Hi.
    split; [|split].
    + unfold well_formed. cbn [rows columns]. apply Forall_forall.
      intros r' Hr'. apply in_map_iff in Hr'. destruct Hr' as (r & <- & Hr).
      rewrite length_set_nth; [now apply Hwf|]. rewrite (Hwf r Hr). exact Hi.
    + unfold len. cbn [rows]. apply length_map.
    + cbn [rows columns]. intros r' Hr'. apply in_map_iff in Hr'.
      destruct Hr' as (r & <- & Hr). exists r. split; [exact Hr|].
      assert (Hl : i < List.length r) by (rewrite (Hwf r Hr); exact Hi).
      split.
      * unfold get. rewrite Ei. now apply nth_set_nth_same.
      * intros c' Hc'. unfold get.
        destruct (col_index c' (columns df)) as [j|] eqn:Ej; [|reflexivity].
        apply nth_set_nth_other; [exact Hl|].
        intros ->. apply Hc'. symmetry. now apply (@col_index_same c c' (columns df) i Ei Ej).
  - apply col_index_None in Ei.
    split; [|split].
    + unfold well_formed. cbn [rows columns]. apply Forall_forall.
      intros r' Hr'. apply in_map_iff in Hr'. destruct Hr' as (r & <- & Hr).
      rewrite !length_app, (Hwf r Hr). reflexivity.
    + unfold len. cbn [rows]. apply length_map.
    + cbn [rows columns]. intros r' Hr'. apply in_map_iff in Hr'.
      destruct Hr' as (r & <- & Hr). exists r. split; [exact Hr|].
      split.
      * rewrite get_app_r by (auto using Hwf).
        unfold get. cbn [col_index]. now rewrite String.eqb_refl.
      * intros c' Hc'.
        destruct (in_dec string_dec c' (columns df)) as [Hin|Hin].
        -- now rewrite get_app_l by (auto using Hwf).
        -- rewrite get_app_r by (auto using Hwf).
           unfold get at 1. cbn [col_index].
           destruct (String.eqb_spec c' c); [congruence|]. cbn.
           unfold get. apply col_index_None in Hin. now rewrite Hin.
Qed.


Lemma has_column_assign c' df c f :
  c' <> c -> has_column c' (assign df c f) = has_column c' df.
Proof.
  intros H. unfold assign, has_column.
  destruct (col_index c (columns df)); cbn [columns]; [reflexivity|].
  rewrite existsb_app. cbn [existsb].
  destruct (String.eqb_spec c' c); [congruence|].
  now rewrite !orb_false_r.
Qed.

(** The same for an assignment made under a condition. *)
Lemma assign_if_rows (b : bool) df c f :
  well_formed df ->
  well_formed (if b then assign df c f else df)
  /\ len (if b then assign df c f else df) = len df
  /\ forall r',
       In r' (rows (if b then assign df c f else df)) ->
       exists r,
         In r (rows df)
         /\ (b = true ->
             get (columns (if b then assign df c f else df)) r' c = f r)
         /\ forall c', c' <> c ->
              get (columns (if b then assign df c f else df)) r' c'
              = get (columns df) r c'.
Proof.
  intros Hwf. destruct b.
  - destruct (@assign_rows df c f Hwf) as (W & L & R).
    split; [exact W|]. split; [exact L|].
    intros r' Hr'. destruct (R r' Hr') as (r & Hr & G & O).
    exists r. auto.
  - split; [exact Hwf|]. split; [reflexivity|].
    intros r' Hr'. exists r'. split; [exact Hr'|].
    split; [discriminate | reflexivity].
Qed.

(** [df[c] = f(row)], row by row: the rows keep their places, the column
    [c] holds the new values and every other column is left as it was. *)
Lemma assign_nth df c f :
  well_formed df ->
  well_formed (assign df c f)
  /\ len (assign df c f) = len df
  /\ forall i r,
       nth_error (rows df) i = Some r ->
       exists r',
         nth_error (rows (assign df c f)) i = Some r'
         /\ get (columns (assign df c f)) r' c = f r
         /\ forall c', c' <> c ->
              get (columns (assign df c f)) r' c' = get (columns df) r c'.
Proof.
  intros Hwf. destruct (@assign_rows df c f Hwf) as (W & L & _).
  split; [exact W|]. split; [exact L|].
  unfold well_formed in Hwf. rewrite Forall_forall in Hwf.
  intros i r Hi. pose proof (nth_error_In _ _ Hi) as Hr.
  unfold assign. destruct (col_index c (columns df)) as [j|] eqn:Ej;
    cbn [rows columns]; rewrite nth_error_map, Hi; cbn [option_map];
    eexists; (split; [reflexivity|]).
  - pose proof (@col_index_bound c (columns df) j Ej) as Hj.
    assert (Hl : j < List.length r) by (rewrite (Hwf r Hr); exact Hj).
    split.
    + unfold get. rewrite Ej. now apply nth_set_nth_same.
    + intros c' Hc'. unfold get.
      destruct (col_index c' (columns df)) as [k|] eqn:Ek; [|reflexivity].
      apply nth_set_nth_other; [exact Hl|].
      intros ->. apply Hc'. symmetry.
      now apply (@col_index_same c c' (columns df) j Ej Ek).
  - apply col_index_None in Ej. split.
    + rewrite get_app_r by (auto using Hwf).
      unfold get. cbn [col_index]. now rewrite String.eqb_refl.
    + intros c' Hc'.
      destruct (in_dec string_dec c' (columns df)) as [Hin|Hin].
      * now rewrite get_app_l by (auto using Hwf).
      * rewrite get_app_r by (auto using Hwf).
        unfold get at 1. cbn [col_index].
        destruct (String.eqb_spec c' c); [congruence|]. cbn.
        unfold get. apply col_index_None in Hin. now rewrite Hin.
Qed.

(** The same for an assignment made under a condition. *)
Lemma assign_if_nth (b : bool) df c f :
  well_formed df ->
  well_formed (if b then assign df c f else df)
  /\ len (if b then assign df c f else df) = len df
  /\ forall i r,
       nth_error (rows df) i = Some r ->
       exists r',
         nth_error (rows (if b then assign df c f else df)) i = Some r'
         /\ (b = true ->
             get (columns (if b then assign df c f else df)) r' c = f r)
         /\ forall c', c' <> c ->
              get (columns (if b then assign df c f else df)) r' c'
              = get (columns df) r c'.
Proof.
  intros Hwf. destruct b.
  - destruct (@assign_nth df c f Hwf) as (W & L & R).
    split; [exact W|]. split; [exact L|].
    intros i r Hi. destruct (R i r Hi) as (r' & Hr' & G & O).
    exists r'. auto.
  - split; [exact Hwf|]. split; [reflexivity|].
    intros i r Hi. exists r. split; [exact Hi|].
    split; [discriminate | reflexivity].
Qed.

Section Tags.
Variable teams : list (Z * string).

(** X19: the metadata columns of a merged combination whose [TEAM_ID]
    holds integers and whose [GROUP_NAME] holds strings.  The tagged table
    has the rows of the merged one, as many, complete and in the same
    order; in the row at each place [SEASON_TYPE], [GROUP_QUANTITY] and
    [PER_MODE] hold the combination; [team] holds the full name listed for
    the [TEAM_ID] of the merged row at that place ([Unknown] when it is
    missing) and [players_list] the pieces of its [GROUP_NAME] (of the
    empty string when it is missing), when the merged table has these
    columns; and every other column holds what it held. *)
Theorem tag_lineups_tags_every_row
  (merged : DataFrame) (season_type : string) (group_quantity : Z)
  (per_mode : string) :
  well_formed merged ->
  holds_ints "TEAM_ID" merged ->
  holds_strings "GROUP_NAME" merged ->
  well_formed (tag_lineups teams merged season_type group_quantity per_mode)
  /\ len (tag_lineups teams merged season_type group_quantity per_mode)
     = len merged
  /\ forall i r,
       nth_error (rows merged) i = Some r ->
       exists r',
         nth_error
           (rows (tag_lineups teams merged season_type group_quantity
                    per_mode)) i
         = Some r'
         /\ get (columns (tag_lineups teams merged season_type
                            group_quantity per_mode)) r' "SEASON_TYPE"
            = Some (VStr season_type)
         /\ get (columns (tag_lineups teams merged season_type
                            group_quantity per_mode)) r' "GROUP_QUANTITY"
            = Some (VInt group_quantity)
         /\ get (columns (tag_lineups teams merged season_type
                            group_quantity per_mode)) r' "PER_MODE"
            = Some (VStr per_mode)
         /\ (has_column "TEAM_ID" merged = true ->
             get (columns (tag_lineups teams merged season_type
                             group_quantity per_mode)) r' "team"
             = Some (VStr
                       match get (columns merged) r "TEAM_ID" with
                       | Some (VInt team_id) => get_team_name teams team_id
                       | _ => "Unknown"
                       end))
         /\ (has_column "GROUP_NAME" merged = true ->
             get (columns (tag_lineups teams merged season_type
                             group_quantity per_mode)) r' "players_list"
             = Some (VList
                       (str_split " - "
                          match get (columns merged) r "GROUP_NAME" with
                          | Some (VStr name) => name
                          | _ => ""
                          end)))
         /\ forall c,
              ~ In c ["SEASON_TYPE"; "GROUP_QUANTITY"; "PER_MODE"; "team";
                      "players_list"] ->
              get (columns (tag_lineups teams merged season_type
                              group_quantity per_mode)) r' c
              = get (columns merged) r c.
Proof.
  intros Hwf Hint Hstr. unfold tag_lineups, assign_scalar.
  set (m1 := assign merged "SEASON_TYPE" (fun _ => Some (VStr season_type))).
  set (m2 := assign m1 "GROUP_QUANTITY" (fun _ => Some (VInt group_quantity))).
  set (m3 := assign m2 "PER_MODE" (fun _ => Some (VStr per_mode))).
  destruct (@assign_nth merged "SEASON_TYPE"
              (fun _ => Some (VStr season_type)) Hwf) as (W1 & L1 & R1).
  fold m1 in W1, L1, R1.
  destruct (@assign_nth m1 "GROUP_QUANTITY"
              (fun _ => Some (VInt group_quantity)) W1) as (W2 & L2 & R2).
  fold m2 in W2, L2, R2.
  destruct (@assign_nth m2 "PER_MODE"
              (fun _ => Some (VStr per_mode)) W2) as (W3 & L3 & R3).
  fold m3 in W3, L3, R3.
  assert (T3 : has_column "TEAM_ID" m3 = has_column "TEAM_ID" merged).
  { unfold m3, m2, m1. now rewrite !has_column_assign by discriminate. }
  destruct (@assign_if_nth (has_column "TEAM_ID" m3) m3 "team"
              (team_of teams (columns m3)) W3) as (W4 & L4 & R4).
  set (m4 := if has_column "TEAM_ID" m3
             then assign m3 "team" (team_of teams (columns m3)) else m3)
    in *.
  assert (G4 : has_column "GROUP_NAME" m4 = has_column "GROUP_NAME" merged).
  { unfold m4. destruct (has_column "TEAM_ID" m3); unfold m3, m2, m1;
      now rewrite !has_column_assign by discriminate. }
  destruct (@assign_if_nth (has_column "GROUP_NAME" m4) m4 "players_list"
              (players_of (columns m4)) W4) as (W5 & L5 & R5).
  set (m5 := if has_column "GROUP_NAME" m4
             then assign m4 "players_list" (players_of (columns m4))
             else m4) in *.
  split; [exact W5|]. split; [congruence|].
  intros i r Hi.
  destruct (R1 i r Hi) as (r1 & Hr1 & P1 & O1).
  destruct (R2 i r1 Hr1) as (r2 & Hr2 & P2 & O2).
  destruct (R3 i r2 Hr2) as (r3 & Hr3 & P3 & O3).
  destruct (R4 i r3 Hr3) as (r4 & Hr4 & P4 & O4).
  destruct (R5 i r4 Hr4) as (r5 & Hr5 & P5 & O5).
  pose proof (nth_error_In _ _ Hi) as Hr.
  assert (Keep : forall c,
             ~ In c ["SEASON_TYPE"; "GROUP_QUANTITY"; "PER_MODE"; "team";
                     "players_list"] ->
             get (columns m5) r5 c = get (columns merged) r c).
  { intros c Hc. cbn [In] in Hc.
    rewrite O5, O4, O3, O2, O1 by (intros ->; tauto). reflexivity. }
  exists r5. split; [exact Hr5|].
  split; [rewrite O5, O4, O3, O2 by discriminate; exact P1|].
  split; [rewrite O5, O4, O3 by discriminate; exact P2|].
  split; [rewrite O5, O4 by discriminate; exact P3|].
  split; [|split; [|exact Keep]].
  - intros Ht. rewrite <- T3 in Ht. rewrite O5 by discriminate.
    rewrite (P4 Ht). unfold team_of.
    rewrite O3, O2, O1 by discriminate.
    specialize (Hint r Hr).
    destruct (get (columns merged) r "TEAM_ID") as [[z|s|l]|];
      try reflexivity; contradiction.
  - intros Hg. rewrite <- G4 in Hg. rewrite (P5 Hg). unfold players_of.
    rewrite O4, O3, O2, O1 by discriminate.
    specialize (Hstr r Hr).
    destruct (get (columns merged) r "GROUP_NAME") as [[z|s|l]|];
      try reflexivity; contradiction.
Qed.

End Tags.

End tagging.

Lemma tag_lineups_tags_every_row_witness :
  pd.well_formed
    (tag_lineups one_team named_lineups "Regular Season" 5 "Totals")
  /\ pd.len (tag_lineups one_team named_lineups "Regular Season" 5 "Totals")
     = pd.len named_lineups
  /\ forall i r,
       nth_error (pd.rows named_lineups) i = Some r ->
       exists r',
         nth_error
           (pd.rows (tag_lineups one_team named_lineups "Regular Season" 5
                       "Totals")) i
         = Some r'
         /\ pd.get (pd.columns (tag_lineups one_team named_lineups
                                  "Regular Season" 5 "Totals")) r'
              "SEASON_TYPE"
            = Some (pd.VStr "Regular Season")
         /\ pd.get (pd.columns (tag_lineups one_team named_lineups
                                  "Regular Season" 5 "Totals")) r'
              "GROUP_QUANTITY"
            = Some (pd.VInt 5)
         /\ pd.get (pd.columns (tag_lineups one_team named_lineups
                                  "Regular Season" 5 "Totals")) r'
              "PER_MODE"
            = Some (pd.VStr "Totals")
         /\ (pd.has_column "TEAM_ID" named_lineups = true ->
             pd.get (pd.columns (tag_lineups one_team named_lineups
                                   "Regular Season" 5 "Totals")) r' "team"
             = Some (pd.VStr
                       match pd.get (pd.columns named_lineups) r "TEAM_ID"
                       with
                       | Some (pd.VInt team_id) =>
                           get_team_name one_team team_id
                       | _ => "Unknown"
                       end))
         /\ (pd.has_column "GROUP_NAME" named_lineups = true ->
             pd.get (pd.columns (tag_lineups one_team named_lineups
                                   "Regular Season" 5 "Totals")) r'
               "players_list"
             = Some (pd.VList
                       (pd.str_split " - "
                          match pd.get (pd.columns named_lineups) r
                                  "GROUP_NAME" with
                          | Some (pd.VStr name) => name
                          | _ => ""
                          end)))
         /\ forall c,
              ~ In c ["SEASON_TYPE"; "GROUP_QUANTITY"; "PER_MODE"; "team";
                      "players_list"] ->
              pd.get (pd.columns (tag_lineups one_team named_lineups
                                    "Regular Season" 5 "Totals")) r' c
              = pd.get (pd.columns named_lineups) r c.
Proof.
  apply (@tagging.tag_lineups_tags_every_row one_team named_lineups
           "Regular Season" 5 "Totals").
  - repeat constructor.
  - intros r [<- | [<- | []]]; exact I.
  - intros r [<- | [<- | []]]; exact I.
Defined.

(* ===================================================================== *)
(** * A lineup point that is answered *)
(* ===================================================================== *)

Module lineup_point.

Ltac quiet_lineup_log :=
  match goal with
  | |- context [log ?a ?b ?c ?d ?w0] =>
      let w1 := fresh "w" in
      let E := fresh "E" in
      let F := fresh "F" in
      destruct (@log_fetched lineups_logger a b c d w0) as (w1 & E & F);
      [discriminate|]; rewrite E; clear E
  end.

Section Point.
Variable config : Config.
Variable api : nat -> Endpoint -> Kwargs -> Response.

(** X20: when the service answers at the attempt [k + 1], the earlier
    ones having failed, [fetch_all_lineups] returns the first table of the
    answer when it has rows and columns, and [None] when the answer holds
    no table or an empty first table; it has sent [k + 1] requests and
    logged no error. *)
Theorem fetch_all_lineups_answers
  (season season_type : string) (gq : Z) (per_mode mt : string) (w : World)
  (k : nat) (dfs : list pd.DataFrame) :
  k < API_RETRIES config ->
  (forall i, i < k ->
     is_raise
       (api (sent w + i) LeagueDashLineups
            (with_timeout config
               (lineups_params season season_type gq per_mode mt)))) ->
  api (sent w + k) LeagueDashLineups
      (with_timeout config (lineups_params season season_type gq per_mode mt))
  = Returns dfs ->
  exists w',
    fetch_all_lineups config api season season_type gq per_mode mt w
    = (Ok match dfs with
          | df :: _ => if pd.empty df then None else Some df
          | [] => None
          end, w')
    /\ _api_call_count w' = _api_call_count w + S k
    /\ sent w' = sent w + S k
    /\ count_logs lineups_logger ERROR (trace w')
       = count_logs lineups_logger ERROR (trace w).
Proof.
  intros Hk Hfail Hok. unfold fetch_all_lineups, try_except, bind.
  quiet_lineup_log.
  assert (S0 : sent w0 = sent w) by (destruct F as (_ & F2 & _); lia).
  rewrite <- S0 in Hfail, Hok.
  destruct (@retry_first_success config api LeagueDashLineups
              (lineups_params season season_type gq per_mode mt)
              (API_RETRIES config) (API_BASE_DELAY config) w0 k dfs
              Hk Hfail Hok)
    as (w1 & E & A).
  rewrite E. apply (advanced_fetched lineups_not_utils) in A.
  pose proof (fetched_trans F A) as FA. clear F A.
  destruct dfs as [|df rest].
  - quiet_lineup_log. pose proof (fetched_trans FA F) as (C1 & C2 & _ & C4).
    exists w2. split; [reflexivity|]. repeat split; lia.
  - destruct (pd.empty df); cbn [negb]; quiet_lineup_log;
      pose proof (fetched_trans FA F) as (C1 & C2 & _ & C4);
      exists w2; (split; [reflexivity|]); repeat split; lia.
Qed.

End Point.

End lineup_point.

Lemma fetch_all_lineups_answers_witness :
  exists w',
    fetch_all_lineups default_config (api_flaky 1 no_lineups) "2025-26"
      "Regular Season" 5 "Totals" "Base" initial_world
    = (Ok None, w')
    /\ _api_call_count w' = _api_call_count initial_world + 2
    /\ sent w' = sent initial_world + 2
    /\ count_logs lineups_logger ERROR (trace w')
       = count_logs lineups_logger ERROR (trace initial_world).
Proof.
  apply (@lineup_point.fetch_all_lineups_answers default_config
           (api_flaky 1 no_lineups) "2025-26" "Regular Season" 5 "Totals"
           "Base" initial_world 1 [no_lineups]).
  - vm_compute. lia.
  - intros i Hi. replace i with 0 by lia. now exists connection_error.
  - reflexivity.
Defined.
